(** * smart-modules: the bounded stream, its timer and its serializer

    A shallow embedding of [modules/stream/lib/stream.js] (class
    [SmartStream]), [modules/stream/lib/util.js] (serialize, deserialize,
    compress, decompress) and [modules/timer/lib/timer.js] (class
    [SmartTimer]), with the properties of the bounded stream stated and
    proved over it.

    Conventions of the embedding:
    - a JavaScript number is [JS.number]: an integer, [NaN] or one of the two
      infinities (byte counts and millisecond counts are integers; IEEE
      rounding and negative zero are outside the model);
    - a plain configuration object ([props], the result of [toJSON], the
      metadata of an error) is a [gmap string value]; a missing key reads as
      [undefined], and [Object.assign] is the union in which later sources win;
    - a function that may throw returns a [result];
    - the Node.js runtime ([stream.Transform], timers, [setImmediate], zlib)
      is not part of the repository: the embedding carries the part of its
      state that the code observes, with the behaviour of Node 14 and later
      (a failed transform destroys the stream). *)

From stdpp Require Import gmap strings list.
From Stdlib Require Import ZArith Ascii String DecimalString Lia.
From Stdlib.Strings Require Import Byte.

Set Warnings "-register-all".

Local Open Scope Z_scope.

(** ** JavaScript values and coercions *)

Module JS.

Inductive number := NaN | NegInfinity | Finite (z : Z) | Infinity.

Inductive value :=
| VUndefined
| VNull
| VBool (b : bool)
| VNum (n : number)
| VStr (s : string).

(** A structured value: what is serialized and what parsing yields.  The
    properties of an object are kept in their order. *)
Inductive data :=
| Prim (v : value)
| Arr (elements : list data)
| Obj (properties : list (string * data)).

(** [a < b] *)
Definition lt (a b : number) : bool :=
  match a, b with
  | NaN, _ => false
  | _, NaN => false
  | _, NegInfinity => false
  | NegInfinity, _ => true
  | Infinity, _ => false
  | Finite _, Infinity => true
  | Finite x, Finite y => bool_decide (x < y)
  end.

(** [a <= b] *)
Definition le (a b : number) : bool :=
  match a, b with
  | NaN, _ => false
  | _, NaN => false
  | NegInfinity, _ => true
  | _, NegInfinity => false
  | _, Infinity => true
  | Infinity, _ => false
  | Finite x, Finite y => bool_decide (x <= y)
  end.

(** [a > b] and [a >= b] *)
Definition gt (a b : number) : bool := lt b a.
Definition ge (a b : number) : bool := le b a.

Definition isNaN (n : number) : bool :=
  match n with NaN => true | _ => false end.

(** Truthiness of a number, as [||] and [?:] see it. *)
Definition truthy (n : number) : bool :=
  match n with
  | NaN => false
  | Finite 0 => false
  | _ => true
  end.

(** [a || b] on numbers *)
Definition or_else (a b : number) : number := if truthy a then a else b.

(** [v == null] *)
Definition is_nullish (v : value) : bool :=
  match v with VUndefined | VNull => true | _ => false end.

(** [n - z] *)
Definition minus (n : number) (z : Z) : number :=
  match n with
  | Finite x => Finite (x - z)
  | _ => n
  end.

(** [a === b] on primitives *)
Definition strict_eq (a b : value) : bool :=
  match a, b with
  | VUndefined, VUndefined => true
  | VNull, VNull => true
  | VBool x, VBool y => bool_decide (x = y)
  | VNum (Finite x), VNum (Finite y) => bool_decide (x = y)
  | VNum Infinity, VNum Infinity => true
  | VNum NegInfinity, VNum NegInfinity => true
  | VStr x, VStr y => bool_decide (x = y)
  | _, _ => false
  end.

Section Coercion.
(** The runtime's StringToNumber ("12" to 12, "foo" to NaN, ...) is taken as
    given. *)
Variable StringToNumber : string -> number.

(** Unary plus: [+v] *)
Definition ToNumber (v : value) : number :=
  match v with
  | VUndefined => NaN
  | VNull => Finite 0
  | VBool true => Finite 1
  | VBool false => Finite 0
  | VNum n => n
  | VStr s => StringToNumber s
  end.
End Coercion.

(** [o.k]: a missing property reads as [undefined]. *)
Definition get (o : gmap string value) (k : string) : value :=
  default VUndefined (o !! k).

(** [Object.assign(target, source)]: the properties of the source win; an
    absent ([undefined] or [null]) source is skipped. *)
Definition assign (target : gmap string value)
    (source : option (gmap string value)) : gmap string value :=
  match source with
  | Some o => o ∪ target
  | None => target
  end.

(** [re.test(v)]: the argument is first converted to a string.  For the
    primitives other than strings that conversion yields "undefined", "null",
    "true", "false" or a numeral, none of which any expression of this
    program accepts. *)
Definition test (re : string -> bool) (v : value) : bool :=
  match v with
  | VStr s => re s
  | _ => false
  end.

(** Thrown values.  A message template is kept as a constructor holding the
    values interpolated into it. *)
Inductive message :=
| props_is_required
| not_a_valid_MIME_type (contentType : value)
| not_a_valid_encoding (contentEncoding : value)
| invalid_content_length (contentLength : value)
| invalid_limit (limit : value)
| timeout_must_be_higher (timeout interval : value)
| invalid_timeout (timeout : number)
| invalid_interval (interval : number)
| interval_exceeds_timeout (interval timeout : number)
| timer_already_destroyed
| unknown_MIME_type (type : value)
| unknown_compression (type : value)
| cannot_read_property (name : string)   (* property access on undefined *)
| write_after_end                        (* ERR_STREAM_WRITE_AFTER_END *)
| invalid_argument.                      (* e.g. Buffer.from(undefined) *)

Inductive metadata :=
| NoMetadata
| Object (o : gmap string value)
| Text (m : message).

(** [SmartError] is the class of modules/error/lib/error.js: a name (that of
    the subclass made by [SmartError.create]), a code, optional metadata and
    an optional cause. *)
Inductive exn :=
| TypeError (m : message)
| Error (m : message)
| SyntaxError
| SmartError (name code : string) (metadata : metadata) (cause : option exn).

Inductive result (A : Type) :=
| Ok (a : A)
| Throw (e : exn).
Arguments Ok {A} a.
Arguments Throw {A} e.

End JS.
Import JS.

(** modules/stream/lib/error.js: the error class of the stream, made by
    [SmartError.create('SmartStreamError', {...})].  A helper called with an
    [Error] as its first argument makes that error the cause (the constructor
    of [SmartError] moves it). *)
Module SmartStreamError.
Definition name : string := "SmartStreamError".
Definition TooLarge (md : gmap string value) : exn :=
  SmartError name "TooLarge" (Object md) None.
Definition TimedOut (md : gmap string value) : exn :=
  SmartError name "TimedOut" (Object md) None.
Definition Unexpected (m : message) : exn :=
  SmartError name "Unexpected" (Text m) None.
Definition Unexpected_caused_by (err : exn) : exn :=
  SmartError name "Unexpected" NoMetadata (Some err).
End SmartStreamError.

Definition isSmartStreamError (e : exn) : bool :=
  match e with
  | SmartError n _ _ _ => bool_decide (n = SmartStreamError.name)
  | _ => false
  end.

Arguments isSmartStreamError : simpl never.

Definition code_of (e : exn) : option string :=
  match e with
  | SmartError _ c _ _ => Some c
  | _ => None
  end.

Definition isTooLarge (e : exn) : bool := bool_decide (code_of e = Some "TooLarge").
Definition isTimedOut (e : exn) : bool := bool_decide (code_of e = Some "TimedOut").
Arguments isTooLarge : simpl never.
Arguments isTimedOut : simpl never.

(** ** modules/error/lib/error.js

    The constructor of [SmartError] and the helpers [SmartError.create]
    attaches to a class, one for each code.  The constructor looks at its
    arguments only so far as to tell a string, an [Error] and [undefined] or
    [null] from anything else. *)

Module ErrorClass.

Inductive arg :=
| Nullish                 (* [undefined] or [null] *)
| Str (s : string)
| Err (e : exn)           (* an instance of [Error] *)
| Other.                  (* a plain object, a number, ... *)

(** The [TypeError]s of the constructor. *)
Inductive refusal :=
| message_must_be_a_string
| code_must_be_a_short_string
| cause_must_be_an_Error.

Record props := {
  code : arg;
  metadata : arg;
  cause : arg;
  stack : arg
}.

(** What the constructor assigns to the instance.  [the_stack] is [None]
    when the trace is the one the runtime captures. *)
Record instance := {
  the_message : string;
  the_code : arg;
  the_metadata : arg;
  the_cause : arg;
  the_stack : option string
}.

Definition is_nullish (a : arg) : bool :=
  match a with Nullish => true | _ => false end.

Definition is_string (a : arg) : bool :=
  match a with Str _ => true | _ => false end.

Definition is_Error (a : arg) : bool :=
  match a with Err _ => true | _ => false end.

(** [props.code.length > 16], for a code that is a string; the codes are
    property names in ASCII, one character per unit of length. *)
Definition too_long (a : arg) : bool :=
  match a with
  | Str c => bool_decide (16 < String.length c)%nat
  | _ => false
  end.

(** [new SmartError(message, props)] *)
Definition construct (message : arg) (p : props) : instance + refusal :=
  match message with
  | Str m =>
      if negb (is_nullish (code p)) && (negb (is_string (code p)) || too_long (code p))
      then inr code_must_be_a_short_string
      else if negb (is_nullish (cause p)) && negb (is_Error (cause p))
      then inr cause_must_be_an_Error
      else
        let p :=
          if is_Error (metadata p)
          then {| code := code p; metadata := Nullish; cause := metadata p;
                  stack := cause p |}
          else p in
        let p :=
          if is_string (cause p)
          then {| code := code p; metadata := metadata p; cause := Nullish;
                  stack := cause p |}
          else p in
        inl {| the_message := m;
               the_code := code p;
               the_metadata := metadata p;
               the_cause := cause p;
               the_stack := match stack p with Str s => Some s | _ => None end |}
  | _ => inr message_must_be_a_string
  end.

(** The helper of a code: [(metadata, cause) => new SmarterError(errors[code],
    { code, metadata, cause })], where [errors[code]] is the message. *)
Definition helper (message code : string) (metadata cause : arg)
    : instance + refusal :=
  construct (Str message)
    {| code := Str code; metadata := metadata; cause := cause; stack := Nullish |}.

(** The getter [is<Code>] of an instance: [this.code === code]. *)
Definition is_code (i : instance) (c : string) : bool :=
  match the_code i with
  | Str c' => bool_decide (c' = c)
  | _ => false
  end.

End ErrorClass.

(** ** The runtime's timers *)

Module Timers.
(** [setTimeout] and [setInterval] replace a delay that is not within
    1 .. 2^31-1 by 1 ms. *)
Definition delay (d : number) : Z :=
  match d with
  | Finite z => if bool_decide (1 <= z <= 2147483647) then z else 1
  | _ => 1
  end.

(** A handle is pending with a due time, or absent ([null], cleared or
    fired). *)
Definition due (handle : option Z) (now : Z) : bool :=
  match handle with
  | Some t => bool_decide (t <= now)
  | None => false
  end.
End Timers.

(** ** modules/timer/lib/timer.js *)

Module Timer.

Record SmartTimer := {
  timeout : number;
  interval : number;
  _timeoutTimer : option Z;
  _intervalTimer : option Z;
  _hadActivity : bool;
  _lastActivity : Z;
  _destroyed : bool
}.

(** [new SmartTimer({ timeout, interval }, callback)], the call the stream
    makes: both properties are numbers and the callback is a function.  The
    callback itself is the owner's; [_onTimeout] hands back the duration it
    is called with. *)
Definition new (now : Z) (timeout interval : number) : result SmartTimer :=
  if lt timeout (Finite 0) then Throw (TypeError (invalid_timeout timeout))
  else if lt interval (Finite 0) then Throw (TypeError (invalid_interval interval))
  else if gt interval timeout then
    Throw (Error (interval_exceeds_timeout interval timeout))
  else Ok {| timeout := timeout;
             interval := interval;
             _timeoutTimer := Some (now + Timers.delay timeout);
             _intervalTimer := Some (now + Timers.delay interval);
             _hadActivity := false;
             _lastActivity := now;
             _destroyed := false |}.

Definition _onInterval (now : Z) (t : SmartTimer) : SmartTimer :=
  if _hadActivity t then
    {| timeout := timeout t; interval := interval t;
       _timeoutTimer := _timeoutTimer t; _intervalTimer := _intervalTimer t;
       _hadActivity := false; _lastActivity := now;
       _destroyed := _destroyed t |}
  else t.

(** The guard of [destroy] reads [this.destroyed], a property the timer never
    defines (its flag is [_destroyed]), so the body always runs; clearing an
    absent handle does nothing. *)
Definition destroy (t : SmartTimer) : SmartTimer :=
  {| timeout := timeout t; interval := interval t;
     _timeoutTimer := None; _intervalTimer := None;
     _hadActivity := _hadActivity t; _lastActivity := _lastActivity t;
     _destroyed := true |}.

(** Returns the timer and the duration of the 'timeout' event, if emitted. *)
Definition _onTimeout (now : Z) (t : SmartTimer) : SmartTimer * option Z :=
  let t := _onInterval now t in
  let timeSinceLastActivity := now - _lastActivity t in
  if lt (Finite timeSinceLastActivity) (timeout t) then
    let timeout' := minus (timeout t) timeSinceLastActivity in
    ({| timeout := timeout t; interval := interval t;
        _timeoutTimer := Some (now + Timers.delay timeout');
        _intervalTimer := _intervalTimer t;
        _hadActivity := _hadActivity t; _lastActivity := _lastActivity t;
        _destroyed := _destroyed t |}, None)
  else (destroy t, Some timeSinceLastActivity).

Definition touch (t : SmartTimer) : result SmartTimer :=
  if negb (_destroyed t) then
    Ok {| timeout := timeout t; interval := interval t;
          _timeoutTimer := _timeoutTimer t; _intervalTimer := _intervalTimer t;
          _hadActivity := true; _lastActivity := _lastActivity t;
          _destroyed := _destroyed t |}
  else Throw (Error timer_already_destroyed).

(** The runtime at clock value [now]: the timeout handle runs if it is due,
    then the interval handle if it is (still) due, and is set again. *)
Definition run_due (now : Z) (t : SmartTimer) : SmartTimer * option Z :=
  let '(t, fired) :=
    if Timers.due (_timeoutTimer t) now then
      _onTimeout now
        {| timeout := timeout t; interval := interval t;
           _timeoutTimer := None; _intervalTimer := _intervalTimer t;
           _hadActivity := _hadActivity t; _lastActivity := _lastActivity t;
           _destroyed := _destroyed t |}
    else (t, None) in
  if Timers.due (_intervalTimer t) now then
    let t := _onInterval now t in
    ({| timeout := timeout t; interval := interval t;
        _timeoutTimer := _timeoutTimer t;
        _intervalTimer := Some (now + Timers.delay (interval t));
        _hadActivity := _hadActivity t; _lastActivity := _lastActivity t;
        _destroyed := _destroyed t |}, fired)
  else (t, fired).

End Timer.

(** ** modules/stream/lib/stream.js *)

Module Stream.

(** *** The regular expressions

    Strings are sequences of bytes holding UTF-8; the expressions are
    evaluated directly. *)

(** [\w] *)
Definition word_char (c : ascii) : bool :=
  (("0" <=? c) && (c <=? "9") || ("A" <=? c) && (c <=? "Z")
   || ("a" <=? c) && (c <=? "z") || (c =? "_"))%char.

(** [[\w-]] *)
Definition subtype_char (c : ascii) : bool := word_char c || (c =? "-")%char.

Fixpoint strip_prefix (p s : string) : option string :=
  match p, s with
  | EmptyString, _ => Some s
  | String a p', String b s' => if (a =? b)%char then strip_prefix p' s' else None
  | String _ _, EmptyString => None
  end.

(** The longest prefix of characters satisfying [f], and the rest. *)
Fixpoint span (f : ascii -> bool) (s : string) : string * string :=
  match s with
  | String c s' =>
      if f c then let '(t, r) := span f s' in (String c t, r)
      else (EmptyString, s)
  | EmptyString => (EmptyString, EmptyString)
  end.

(** [.*$]: any characters up to the end of the input, none of them a line
    terminator (LF, CR, U+2028, U+2029; the last two are the byte sequences
    226 128 168 and 226 128 169). *)
Fixpoint dot_star (s : string) : bool :=
  match s with
  | EmptyString => true
  | String c s' =>
      if ((c =? "010") || (c =? "013"))%char then false
      else
        match s' with
        | String d (String e _) =>
            if ((c =? "226") && (d =? "128") && ((e =? "168") || (e =? "169")))%char
            then false else dot_star s'
        | _ => dot_star s'
        end
  end.

Definition TYPES : list string :=
  ["application"; "audio"; "image"; "multipart"; "text"; "video"]%string.

(** [/^((application|audio|image|multipart|text|video)\/([\w-]+));?.*$/]:
    the first capture group of the match, if any.  No alternative is a prefix
    of another followed by the slash, and [;?.*] accepts what a shorter
    subtype would leave behind exactly when it accepts the rest after the
    longest one, so the greedy match decides. *)
Fixpoint exec_from (types : list string) (s : string) : option string :=
  match types with
  | [] => None
  | ty :: types' =>
      match strip_prefix (ty +:+ "/") s with
      | Some after =>
          let '(subtype, rest) := span subtype_char after in
          if bool_decide (subtype = EmptyString) then None
          else if dot_star rest then Some (ty +:+ "/" +:+ subtype)
          else None
      | None => exec_from types' s
      end
  end.

Definition CONTENT_TYPES_exec (s : string) : option string := exec_from TYPES s.

Definition CONTENT_TYPES (s : string) : bool :=
  bool_decide (is_Some (CONTENT_TYPES_exec s)).

(** [/^(identity|gzip|deflate)$/] *)
Definition CONTENT_ENCODINGS (s : string) : bool :=
  bool_decide (s ∈ ["identity"; "gzip"; "deflate"]%string).

(** [/^application\/(json|msgpack|x-www-form-urlencoded)$/] *)
Definition DESERIALIZABLE_TYPES (s : string) : bool :=
  bool_decide (s ∈ ["application/json"; "application/msgpack";
                     "application/x-www-form-urlencoded"]%string).

Definition OBJECT_STREAM_TYPES : list string :=
  ["application/ndjson"; "text/event-stream"]%string.

(** [/^(gzip|deflate)$/] *)
Definition COMPRESSED_ENCODINGS (s : string) : bool :=
  bool_decide (s ∈ ["gzip"; "deflate"]%string).

(** *** The instance *)

Definition chunk := list byte.

(** [Buffer.byteLength(chunk)] *)
Definition byteLength (c : chunk) : Z := Z.of_nat (List.length c).

(** What an observer of the stream sees. *)
Inductive event :=
| EvData (c : chunk)
| EvError (e : exn)
| EvEnd
| EvClose
| EvThrown (e : exn).   (* an exception that escaped a callback into the caller *)

(** The state of the [Transform] the class extends, as far as the code and
    the properties below observe it.  [writing] stays set when a transform
    callback threw: the writable side is then left in the middle of a write
    and passes nothing more to the callbacks. *)
Record Transform := {
  destroyed : bool;
  errored : option exn;
  ended : bool;
  writing : bool;
  emitted : list event
}.

(** [this._timer] is [{ touch: NOOP, destroy: NOOP }] or a [SmartTimer]. *)
Inductive timer :=
| NOOP
| Smart (t : Timer.SmartTimer).

(** [immediate] is set while the callback the constructor gave to
    [setImmediate] is waiting to run. *)
Record SmartStream := {
  super : Transform;
  _contentTypeRaw : value;
  _contentType : string;
  _contentEncoding : value;
  _contentLength : option number;   (* [None] is [undefined] *)
  _size : Z;
  _limit : number;
  _timeout : number;
  _interval : number;
  _timer : option timer;            (* [None] is [undefined] *)
  immediate : bool
}.

Definition with_super (s : SmartStream) (b : Transform) : SmartStream :=
  {| super := b; _contentTypeRaw := _contentTypeRaw s;
     _contentType := _contentType s; _contentEncoding := _contentEncoding s;
     _contentLength := _contentLength s; _size := _size s; _limit := _limit s;
     _timeout := _timeout s; _interval := _interval s; _timer := _timer s;
     immediate := immediate s |}.

Definition with_size (s : SmartStream) (n : Z) : SmartStream :=
  {| super := super s; _contentTypeRaw := _contentTypeRaw s;
     _contentType := _contentType s; _contentEncoding := _contentEncoding s;
     _contentLength := _contentLength s; _size := n; _limit := _limit s;
     _timeout := _timeout s; _interval := _interval s; _timer := _timer s;
     immediate := immediate s |}.

Definition with_contentLength (s : SmartStream) (n : option number) : SmartStream :=
  {| super := super s; _contentTypeRaw := _contentTypeRaw s;
     _contentType := _contentType s; _contentEncoding := _contentEncoding s;
     _contentLength := n; _size := _size s; _limit := _limit s;
     _timeout := _timeout s; _interval := _interval s; _timer := _timer s;
     immediate := immediate s |}.

Definition with_timer (s : SmartStream) (t : option timer) : SmartStream :=
  {| super := super s; _contentTypeRaw := _contentTypeRaw s;
     _contentType := _contentType s; _contentEncoding := _contentEncoding s;
     _contentLength := _contentLength s; _size := _size s; _limit := _limit s;
     _timeout := _timeout s; _interval := _interval s; _timer := t;
     immediate := immediate s |}.

Definition with_immediate (s : SmartStream) (b : bool) : SmartStream :=
  {| super := super s; _contentTypeRaw := _contentTypeRaw s;
     _contentType := _contentType s; _contentEncoding := _contentEncoding s;
     _contentLength := _contentLength s; _size := _size s; _limit := _limit s;
     _timeout := _timeout s; _interval := _interval s; _timer := _timer s;
     immediate := b |}.

(** [+this._contentLength] *)
Definition plus_contentLength (s : SmartStream) : number :=
  match _contentLength s with
  | Some n => n
  | None => NaN
  end.

(** The getter [contentLength], as a value. *)
Definition contentLength (s : SmartStream) : value :=
  match _contentLength s with
  | Some n => VNum n
  | None => VUndefined
  end.

Definition isCompressed (s : SmartStream) : bool :=
  test COMPRESSED_ENCODINGS (_contentEncoding s).

Definition isDeserializable (s : SmartStream) : bool :=
  DESERIALIZABLE_TYPES (_contentType s).

Definition isObjectStream (s : SmartStream) : bool :=
  bool_decide (_contentType s ∈ OBJECT_STREAM_TYPES).

(** [s.startsWith(p)] *)
Definition startsWith (s p : string) : bool :=
  match strip_prefix p s with
  | Some _ => true
  | None => false
  end.

Definition isAppSpecific (s : SmartStream) : bool :=
  startsWith (_contentType s) "application/".

Definition isAudio (s : SmartStream) : bool :=
  startsWith (_contentType s) "audio/".

Definition isImage (s : SmartStream) : bool :=
  startsWith (_contentType s) "image/".

Definition isMultipart (s : SmartStream) : bool :=
  startsWith (_contentType s) "multipart/".

Definition isText (s : SmartStream) : bool :=
  startsWith (_contentType s) "text/".

Definition isVideo (s : SmartStream) : bool :=
  startsWith (_contentType s) "video/".

Definition toJSON (s : SmartStream) : gmap string value :=
  let obj : gmap string value :=
    {[ "contentType" := _contentTypeRaw s;
       "contentEncoding" := _contentEncoding s ]} in
  if gt (plus_contentLength s) (Finite 0)
  then <["contentLength" := contentLength s]> obj
  else obj.
Arguments toJSON : simpl never.

(** *** The callbacks given to [super] *)

(** [this._timer.touch()] *)
Definition timer_touch (t : option timer) : result (option timer) :=
  match t with
  | None => Throw (TypeError (cannot_read_property "touch"))
  | Some NOOP => Ok (Some NOOP)
  | Some (Smart t) =>
      match Timer.touch t with
      | Ok t' => Ok (Some (Smart t'))
      | Throw e => Throw e
      end
  end.

(** [this._timer == null || this._timer.destroy(err)] *)
Definition timer_destroy (t : option timer) : option timer :=
  match t with
  | None => None
  | Some NOOP => Some NOOP
  | Some (Smart t) => Some (Smart (Timer.destroy t))
  end.

(** How a call of the transform callback ends: [cb(err)], [cb(null, chunk)]
    or an exception. *)
Inductive outcome :=
| CbError (e : exn)
| CbPush (c : chunk)
| Raised (e : exn).

Definition transform (this : SmartStream) (c : chunk) : SmartStream * outcome :=
  let this := with_size this (_size this + byteLength c) in
  if gt (Finite (_size this)) (_limit this) then
    (this, CbError (SmartStreamError.TooLarge (toJSON this)))
  else
    match timer_touch (_timer this) with
    | Throw e => (this, Raised e)
    | Ok t => (with_timer this t, CbPush c)
    end.

(** "If no content-length was provided, populate the value" *)
Definition populate (this : SmartStream) : SmartStream :=
  match _contentLength this with
  | None => with_contentLength this (Some (Finite (_size this)))
  | Some _ => this
  end.

Definition flush (this : SmartStream) : SmartStream :=
  populate (with_timer this (timer_destroy (_timer this))).

(** Returns the instance and the argument of [cb]. *)
Definition _destroy (this : SmartStream) (err : option exn)
    : SmartStream * option exn :=
  let this := populate (with_timer this (timer_destroy (_timer this))) in
  (this,
   match err with
   | None => None
   | Some e =>
       if isSmartStreamError e then Some e
       else Some (SmartStreamError.Unexpected_caused_by e)
   end).

(** *** The runtime around the callbacks *)

Definition fresh : Transform :=
  {| destroyed := false; errored := None; ended := false; writing := false;
     emitted := [] |}.

Definition emit (s : SmartStream) (e : event) : SmartStream :=
  let b := super s in
  with_super s {| destroyed := destroyed b; errored := errored b;
                  ended := ended b; writing := writing b;
                  emitted := emitted b ++ [e] |}.

Definition set_destroyed (s : SmartStream) : SmartStream :=
  let b := super s in
  with_super s {| destroyed := true; errored := errored b; ended := ended b;
                  writing := writing b; emitted := emitted b |}.

Definition set_errored (s : SmartStream) (e : exn) : SmartStream :=
  let b := super s in
  with_super s {| destroyed := destroyed b; errored := Some e; ended := ended b;
                  writing := writing b; emitted := emitted b |}.

Definition set_ended (s : SmartStream) : SmartStream :=
  let b := super s in
  with_super s {| destroyed := destroyed b; errored := errored b; ended := true;
                  writing := writing b; emitted := emitted b |}.

Definition set_writing (s : SmartStream) : SmartStream :=
  let b := super s in
  with_super s {| destroyed := destroyed b; errored := errored b;
                  ended := ended b; writing := true; emitted := emitted b |}.

(** [stream.destroy(err)]: nothing on a destroyed stream; otherwise the
    destroy callback runs, and what it passes on is emitted as 'error',
    followed by 'close'. *)
Definition destroy (s : SmartStream) (err : option exn) : SmartStream :=
  if destroyed (super s) then s
  else
    let '(s, err) := _destroy (set_destroyed s) err in
    match err with
    | Some e => emit (emit (set_errored s e) (EvError e)) EvClose
    | None => emit s EvClose
    end.

(** [stream.write(chunk)]: a destroyed stream takes nothing (the refusal goes
    to the callback of the write alone); a write after the end is an error of
    the stream; otherwise the transform callback runs, and a chunk it passes
    on is emitted as 'data'. *)
Definition write (s : SmartStream) (c : chunk) : SmartStream :=
  if destroyed (super s) then s
  else if ended (super s) then destroy s (Some (Error write_after_end))
  else if writing (super s) then s
  else
    let '(s, out) := transform s c in
    match out with
    | CbError e => destroy s (Some e)
    | CbPush c => emit s (EvData c)
    | Raised e => emit (set_writing s) (EvThrown e)
    end.

(** [stream.end()]: the flush callback runs once the last write has
    completed, and 'end' follows. *)
Definition end_ (s : SmartStream) : SmartStream :=
  if destroyed (super s) || ended (super s) then s
  else if writing (super s) then set_ended s
  else emit (set_ended (flush s)) EvEnd.

(** The states of the design, read off the instance. *)
Inductive state := Open | Flushed | Errored | Destroyed.

Definition state_of (s : SmartStream) : state :=
  match errored (super s) with
  | Some _ => Errored
  | None =>
      if destroyed (super s) then Destroyed
      else if ended (super s) && negb (writing (super s)) then Flushed
      else Open
  end.

(** *** The constructor and the factories that need no other object *)

Section Constructor.
Variable StringToNumber : string -> number.

(** [+v] *)
Definition num (v : value) : number := ToNumber StringToNumber v.

(** [CONTENT_TYPES.exec(v)[1]]; indexing the [null] of a failed match is a
    [TypeError]. *)
Definition exec1 (v : value) : result string :=
  match v with
  | VStr s =>
      match CONTENT_TYPES_exec s with
      | Some type => Ok type
      | None => Throw (TypeError (cannot_read_property "1"))
      end
  | _ => Throw (TypeError (cannot_read_property "1"))
  end.

(** The guards at the head of the constructor, before [super] is called:
    the [TypeError] thrown, if any.  [None] is a [props] that is [undefined]
    or [null]. *)
Definition validate (props : option (gmap string value)) : option exn :=
  match props with
  | None => Some (TypeError props_is_required)
  | Some props =>
      let contentType := get props "contentType" in
      let contentEncoding := get props "contentEncoding" in
      let contentLength := get props "contentLength" in
      let limit := get props "limit" in
      let timeout := get props "timeout" in
      let interval := get props "interval" in
      if negb (test CONTENT_TYPES contentType) then
        Some (TypeError (not_a_valid_MIME_type contentType))
      else if negb (test CONTENT_ENCODINGS contentEncoding) then
        Some (TypeError (not_a_valid_encoding contentEncoding))
      else if le (num contentLength) (Finite 0) then
        Some (TypeError (invalid_content_length contentLength))
      else if negb (is_nullish limit)
              && (isNaN (num limit) || le (num limit) (Finite 0)) then
        Some (TypeError (invalid_limit limit))
      else if lt (num timeout) (num interval) then
        Some (TypeError (timeout_must_be_higher timeout interval))
      else None
  end.

(** The rest of the constructor: the fields, then the immediate or the
    timer. *)
Definition initialize (now : Z) (props : gmap string value)
    : result SmartStream :=
  let contentType := get props "contentType" in
  let contentEncoding := get props "contentEncoding" in
  let contentLength := get props "contentLength" in
  let limit := get props "limit" in
  let timeout := get props "timeout" in
  let interval := get props "interval" in
  match exec1 contentType with
  | Throw e => Throw e
  | Ok type =>
      let this :=
        {| super := fresh;
           _contentTypeRaw := contentType;
           _contentType := type;
           _contentEncoding := contentEncoding;
           _contentLength :=
             if truthy (num contentLength) then Some (num contentLength)
             else None;
           _size := 0;
           _limit :=
             or_else (num limit)
               (if DESERIALIZABLE_TYPES type then Finite (1024 * 64)
                else Finite (1024 * 1024 * 10));
           _timeout :=
             if ge (num timeout) (Finite 0) then num timeout
             else Finite 30000;
           _interval :=
             if ge (num interval) (Finite 0) then num interval
             else Finite 1000;
           _timer := None;
           immediate := false |} in
      if gt (plus_contentLength this) (_limit this) then
        Ok (with_immediate this true)
      else if strict_eq (VNum (_timeout this)) (VNum (Finite 0)) then
        Ok (with_timer this (Some NOOP))
      else
        match Timer.new now (_timeout this) (_interval this) with
        | Ok t => Ok (with_timer this (Some (Smart t)))
        | Throw e => Throw e
        end
  end.

(** [new SmartStream(props)] at clock value [now]. *)
Definition construct (now : Z) (props : option (gmap string value))
    : result SmartStream :=
  match validate props, props with
  | Some e, _ => Throw e
  | None, Some props => initialize now props
  | None, None => Throw (TypeError props_is_required)
  end.

Definition defaults : gmap string value :=
  {[ "contentType" := VStr "application/octet-stream";
     "contentEncoding" := VStr "identity" ]}.

(** [SmartStream.create(props)] *)
Definition create (now : Z) (props : option (gmap string value))
    : result SmartStream :=
  construct now (Some (assign defaults props)).

(** [SmartStream.fromBuffer(buf, props)]; [stream.end(buf)] is a write
    followed by the end. *)
Definition fromBuffer (now : Z) (buf : chunk) (props : option (gmap string value))
    : result SmartStream :=
  match
    create now
      (Some (assign (assign defaults props)
               (Some {[ "contentLength" := VNum (Finite (byteLength buf));
                        "limit" := VNum (Finite (byteLength buf)) ]})))
  with
  | Ok stream => Ok (end_ (write stream buf))
  | Throw e => Throw e
  end.

End Constructor.

(** *** One stream over time

    What can happen to an instance, one event at a time: a chunk is written,
    the input ends, somebody destroys it, the event loop runs the pending
    [setImmediate] callback, or a millisecond passes. *)

Record world := {
  clock : Z;
  stream : SmartStream
}.

Inductive action :=
| ActWrite (c : chunk)
| ActEnd
| ActDestroy (err : option exn)
| ActImmediate
| ActElapse.

(** [() => this.destroy(SmartStreamError.TooLarge(this.toJSON()))] *)
Definition run_immediate (s : SmartStream) : SmartStream :=
  if immediate s then
    let s := with_immediate s false in
    destroy s (Some (SmartStreamError.TooLarge (toJSON s)))
  else s.

(** The timer's handles that are due at [now], and the callback the stream
    gave it: [duration => this.destroy(SmartStreamError.TimedOut({ duration }))]. *)
Definition run_timers (now : Z) (s : SmartStream) : SmartStream :=
  match _timer s with
  | Some (Smart t) =>
      let '(t, fired) := Timer.run_due now t in
      let s := with_timer s (Some (Smart t)) in
      match fired with
      | Some duration =>
          destroy s
            (Some (SmartStreamError.TimedOut
                     {[ "duration" := VNum (Finite duration) ]}))
      | None => s
      end
  | _ => s
  end.

Definition step (w : world) (a : action) : world :=
  match a with
  | ActWrite c => {| clock := clock w; stream := write (stream w) c |}
  | ActEnd => {| clock := clock w; stream := end_ (stream w) |}
  | ActDestroy err => {| clock := clock w; stream := destroy (stream w) err |}
  | ActImmediate => {| clock := clock w; stream := run_immediate (stream w) |}
  | ActElapse =>
      {| clock := clock w + 1;
         stream := run_timers (clock w + 1) (stream w) |}
  end.

Definition run (w : world) (acts : list action) : world := fold_left step acts w.

(** Chunks arriving one after the other, with no time in between. *)
Definition consume (s : SmartStream) (chunks : list chunk) : SmartStream :=
  fold_left write chunks s.

End Stream.

(** ** Objects and references

    Where identity matters (a method that returns [this] or a new instance, a
    stream piped into another) streams live in a store and are named by their
    index in it. *)

Module Heap.

Inductive zlib := Deflate | Gzip | Inflate | Gunzip | PassThrough.

Inductive object :=
| ObjSmartStream (s : Stream.SmartStream)    (* a [SmartStream] *)
| ObjCodec (z : zlib) (input : option Stream.chunk)
                                             (* a zlib transform or a
                                                PassThrough, and the buffer
                                                given to its [end] *)
| ObjReadable.                               (* any other readable stream *)

(** [pipes] holds (source, destination) for each [source.pipe(destination)];
    [once_error] holds (emitter, target) for each handler
    [emitter.once('error', err => target.destroyed || target.destroy(err))]. *)
Record heap := {
  objects : list object;
  pipes : list (nat * nat);
  once_error : list (nat * nat);
  clock : Z
}.

Definition M (A : Type) : Type := heap -> result A * heap.

Definition ret {A} (a : A) : M A := fun h => (Ok a, h).

(** An exception ends the computation and leaves the store as it is then. *)
Definition bind {A B} (m : M A) (f : A -> M B) : M B := fun h =>
  match m h with
  | (Ok a, h') => f a h'
  | (Throw e, h') => (Throw e, h')
  end.

Notation "'let*' x ':=' m 'in' k" := (bind m (fun x => k))
  (at level 10, x name, m at level 100, k at level 200).
Notation "m ';;' k" := (bind m (fun _ => k))
  (at level 100, k at level 200, right associativity).

Definition throw {A} (e : exn) : M A := fun h => (Throw e, h).

Definition lift {A} (r : result A) : M A := fun h => (r, h).

Definition now : M Z := fun h => (Ok (clock h), h).

(** A new object gets the next index. *)
Definition alloc (o : object) : M nat := fun h =>
  (Ok (List.length (objects h)),
   {| objects := objects h ++ [o]; pipes := pipes h;
      once_error := once_error h; clock := clock h |}).

Definition lookup (r : nat) : M (option object) := fun h =>
  (Ok (objects h !! r), h).

Definition store (r : nat) (o : object) : M unit := fun h =>
  (Ok tt,
   {| objects := <[r := o]> (objects h); pipes := pipes h;
      once_error := once_error h; clock := clock h |}).

(** [source.pipe(destination)] *)
Definition pipe (source destination : nat) : M unit := fun h =>
  (Ok tt,
   {| objects := objects h; pipes := pipes h ++ [(source, destination)];
      once_error := once_error h; clock := clock h |}).

(** [emitter.once('error', err => target.destroyed || target.destroy(err))] *)
Definition once (emitter target : nat) : M unit := fun h =>
  (Ok tt,
   {| objects := objects h; pipes := pipes h;
      once_error := once_error h ++ [(emitter, target)]; clock := clock h |}).

(** [stream instanceof SmartStream] *)
Definition instanceof_SmartStream (r : nat) : M bool :=
  let* o := lookup r in
  ret (match o with Some (ObjSmartStream _) => true | _ => false end).

End Heap.

(** ** modules/stream/lib/util.js *)

Module Util.
Import Heap.

(** [Buffer.from(text)] and [buf.toString('utf8')]: a string holds its UTF-8
    bytes, so both keep the bytes.  (Bytes that are not UTF-8 would be
    replaced by the decoder; the buffers decoded by this program come from
    the text given to it.) *)
Definition Buffer_from (text : string) : Stream.chunk := list_byte_of_string text.
Definition toString (buf : Stream.chunk) : string := string_of_list_byte buf.

Section Serializer.
(** The codecs are those of the runtime ([JSON]) and of the packages
    querystring and msgpack5.  [JSON.stringify] returns [undefined] ([None])
    for a value that has no JSON text. *)
Variable JSON_stringify : data -> result (option string).
Variable JSON_parse : string -> result data.
Variable msgpack_encode : data -> result Stream.chunk.
Variable msgpack_decode : Stream.chunk -> result data.
Variable qs_stringify : data -> string.
Variable qs_parse : string -> data.

Definition serialize (type : value) (d : data) : result Stream.chunk :=
  if strict_eq type (VStr "application/json") then
    match JSON_stringify d with
    | Ok (Some text) => Ok (Buffer_from text)
    | Ok None => Throw (TypeError invalid_argument)
    | Throw e => Throw e
    end
  else if strict_eq type (VStr "application/msgpack") then
    msgpack_encode d
  else if strict_eq type (VStr "application/x-www-form-urlencoded") then
    Ok (Buffer_from (qs_stringify d))
  else Throw (SmartStreamError.Unexpected (unknown_MIME_type type)).

Definition deserialize (type : value) (buf : Stream.chunk) : result data :=
  if strict_eq type (VStr "application/json") then
    match JSON_parse (toString buf) with
    | Ok val =>
        Ok (match val with
            | Prim v => if strict_eq v (VStr "null") then Prim VNull else val
            | _ => val
            end)
    | Throw e => Throw e
    end
  else if strict_eq type (VStr "application/msgpack") then
    msgpack_decode buf
  else if strict_eq type (VStr "application/x-www-form-urlencoded") then
    Ok (qs_parse (toString buf))
  else Throw (SmartStreamError.Unexpected (unknown_MIME_type type)).

End Serializer.

(** [data] is a buffer or (the reference of) a readable stream. *)
Definition source : Type := Stream.chunk + nat.

(** [stream.end(data)] on the transform just made. *)
Definition end_with (stream : nat) (data : Stream.chunk) : M unit :=
  let* o := lookup stream in
  match o with
  | Some (ObjCodec z _) => store stream (ObjCodec z (Some data))
  | _ => ret tt
  end.

(** The tail shared by [compress] and [decompress]. *)
Definition feed (data : source) (stream : nat) : M nat :=
  match data with
  | inl buf => end_with stream buf
  | inr r => if bool_decide (r ≠ stream) then pipe r stream else ret tt
  end;;
  ret stream.

Definition compress (type : value) (data : source) : M nat :=
  let* stream :=
    (if strict_eq type (VStr "deflate") then alloc (ObjCodec Deflate None)
     else if strict_eq type (VStr "gzip") then alloc (ObjCodec Gzip None)
     else if strict_eq type (VStr "identity") then
       match data with
       | inl _ => alloc (ObjCodec PassThrough None)
       | inr r => ret r
       end
     else throw (SmartStreamError.Unexpected (unknown_compression type))) in
  feed data stream.

Definition decompress (type : value) (data : source) : M nat :=
  let* stream :=
    (if strict_eq type (VStr "deflate") then alloc (ObjCodec Inflate None)
     else if strict_eq type (VStr "gzip") then alloc (ObjCodec Gunzip None)
     else if strict_eq type (VStr "identity") then
       match data with
       | inl _ => alloc (ObjCodec PassThrough None)
       | inr r => ret r
       end
     else throw (SmartStreamError.Unexpected (unknown_compression type))) in
  feed data stream.

(** A promise: pending, resolved with a value or rejected with an error.
    [RejectedUnexpected cause] is a promise rejected with
    [SmartStreamError.Unexpected({ stream }, cause)], an error whose metadata
    holds the stream object itself. *)
Inductive promise (A : Type) :=
| Pending
| Resolved (a : A)
| Rejected (e : exn)
| RejectedUnexpected (cause : exn).
Arguments Pending {A}.
Arguments Resolved {A} a.
Arguments Rejected {A} e.
Arguments RejectedUnexpected {A} cause.

(** The listeners of [streamToBuffer] over the events of the stream, in the
    order they are emitted: 'data' pushes the chunk, the first 'end' resolves
    with the chunks concatenated, the first 'error' rejects; a promise that
    is settled stays as it is. *)
Fixpoint collect (chunks : list Stream.chunk) (log : list Stream.event)
    : promise Stream.chunk :=
  match log with
  | [] => Pending
  | Stream.EvData c :: log' => collect (chunks ++ [c]) log'
  | Stream.EvEnd :: _ => Resolved (List.concat chunks)
  | Stream.EvError err :: _ =>
      if isSmartStreamError err then Rejected err else RejectedUnexpected err
  | _ :: log' => collect chunks log'
  end.

Definition streamToBuffer (log : list Stream.event) : promise Stream.chunk :=
  collect [] log.

Section Paths.
(** [path.extname] and [mime.getType] are those of the runtime and of the
    package mime; [mime.getType] returns a string or [null]. *)
Variable extname : string -> string.
Variable mime_getType : string -> value.

(** [path.slice(0, -n)] *)
Definition slice_off (path : string) (n : nat) : string :=
  substring 0 (String.length path - n) path.

Definition getContentType (path : string) : value :=
  let extension := extname path in
  if bool_decide (extension = ".gz") || bool_decide (extension = ".deflate")
  then mime_getType (slice_off path (String.length extension))
  else mime_getType path.

Definition getContentEncoding (path : string) : string :=
  let extension := extname path in
  if bool_decide (extension = ".gz") then "gzip"
  else if bool_decide (extension = ".deflate") then "deflate"
  else "identity".

End Paths.

End Util.

(** ** The methods of the stream that make or link other objects *)

Module Pipeline.
Import Heap Stream.

Section Methods.
Variable StringToNumber : string -> number.

(** [SmartStream.create(props)], the instance placed in the store. *)
Definition create (props : option (gmap string value)) : M nat :=
  let* t := now in
  let* s := lift (Stream.create StringToNumber t props) in
  alloc (ObjSmartStream s).

(** [SmartStream.fromStream(stream, props)]; [pipe] returns its destination
    and [once] its receiver, so the result is the new instance. *)
Definition fromStream (stream : nat) (props : option (gmap string value))
    : M nat :=
  let props := assign defaults props in
  let* is_smart := instanceof_SmartStream stream in
  let props :=
    if is_smart then
      <["interval" := VNum (Finite 0)]>
        (<["timeout" := VNum (Finite 0)]>
           (<["limit" := VNum Infinity]> props))
    else props in
  let* smartStream := create (Some props) in
  once stream smartStream;;
  pipe stream smartStream;;
  once smartStream stream;;
  ret smartStream.

(** [this.toContentEncoding(contentEncoding)] *)
Definition toContentEncoding (this : nat) (contentEncoding : value) : M nat :=
  let* o := lookup this in
  match o with
  | Some (ObjSmartStream s) =>
      let source := _contentEncoding s in
      let target := contentEncoding in
      if strict_eq source target then ret this
      else
        let* stream :=
          (if strict_eq source (VStr "identity") then
             Util.compress target (inr this)
           else if strict_eq target (VStr "identity") then
             Util.decompress source (inr this)
           else
             let* d := Util.decompress source (inr this) in
             Util.compress target (inr d)) in
        fromStream stream
          (Some (assign (toJSON s)
                   (Some {[ "contentEncoding" := contentEncoding;
                            "limit" := VNum Infinity;
                            "timeout" := VNum (Finite 0);
                            "interval" := VNum (Finite 0) ]})))
  | _ => throw (TypeError (cannot_read_property "contentEncoding"))
  end.

End Methods.

Section Files.
Variable StringToNumber : string -> number.
Variable extname : string -> string.
Variable mime_getType : string -> value.

(** [SmartStream.fromFile(path, props)]; [createReadStream(path)] makes a
    readable stream, and is evaluated before the properties are. *)
Definition fromFile (path : string) (props : option (gmap string value))
    : M nat :=
  let* stream := alloc ObjReadable in
  fromStream StringToNumber stream
    (Some (assign
             {[ "contentType" := Util.getContentType extname mime_getType path;
                "contentEncoding" :=
                  VStr (Util.getContentEncoding extname path) ]}
             props)).

(** [SmartStream.fromFileWithLength(path, props)], given what [stat] calls
    back with: an error, or the size of the file.  An exception thrown in
    the callback of [stat] is not caught by the promise: it escapes into the
    runtime and the promise stays pending; here the computation throws. *)
Definition fromFileWithLength (path : string) (props : option (gmap string value))
    (stats : result Z) : M (Util.promise nat) :=
  match stats with
  | Throw err => ret (Util.Rejected err)
  | Ok size =>
      let* stream :=
        fromFile path
          (Some (assign (assign ∅ props)
                   (Some {[ "contentLength" := VNum (Finite size);
                            "limit" := VNum (Finite size) ]}))) in
      ret (Util.Resolved stream)
  end.

End Files.
End Pipeline.

(** ** The conversions between streams, buffers and objects *)

Module Conversion.
Import Stream.

Section Conversions.
Variable StringToNumber : string -> number.
Variable JSON_stringify : data -> result (option string).
Variable JSON_parse : string -> result data.
Variable msgpack_encode : data -> result chunk.
Variable msgpack_decode : chunk -> result data.
Variable qs_stringify : data -> string.
Variable qs_parse : string -> data.
(** What the transform made by [Util.decompress(encoding, stream)] emits,
    given what the stream piped into it emits: that is zlib's. *)
Variable decompressed : value -> list event -> list event.

(** [this.toBuffer(autoDecompress)], for a stream taken with all it emits;
    'data' and 'end' wait in the stream for the listeners. *)
Definition toBuffer (autoDecompress : bool) (this : SmartStream)
    : Util.promise chunk :=
  if autoDecompress && isCompressed this
  then Util.streamToBuffer
         (decompressed (_contentEncoding this) (emitted (super this)))
  else Util.streamToBuffer (emitted (super this)).

(** [this.toObject()]; an exception in the callback of [then] rejects the
    promise. *)
Definition toObject (this : SmartStream) : Util.promise data :=
  match toBuffer true this with
  | Util.Resolved buf =>
      match
        Util.deserialize JSON_parse msgpack_decode qs_parse
          (VStr (_contentType this)) buf
      with
      | Ok d => Util.Resolved d
      | Throw e => Util.Rejected e
      end
  | Util.Pending => Util.Pending
  | Util.Rejected e => Util.Rejected e
  | Util.RejectedUnexpected cause => Util.RejectedUnexpected cause
  end.

(** [SmartStream.fromObject(obj, props)] *)
Definition fromObject (now : Z) (obj : data) (props : option (gmap string value))
    : result SmartStream :=
  let props :=
    assign {[ "contentType" := VStr "application/json";
              "contentEncoding" := VStr "identity" ]} props in
  if negb (test DESERIALIZABLE_TYPES (get props "contentType")) then
    Throw (TypeError (unknown_MIME_type (get props "contentType")))
  else
    match
      Util.serialize JSON_stringify msgpack_encode qs_stringify
        (get props "contentType") obj
    with
    | Ok buf => fromBuffer StringToNumber now buf (Some props)
    | Throw e => Throw e
    end.

End Conversions.
End Conversion.

(** ** Reference codecs

    The serializer and the coercions take the runtime's functions as
    parameters.  To run them, this module gives those functions on the
    values the tests of the repository use: integers, strings, booleans,
    [null], arrays and objects.  Nothing is proved about the module; it
    instantiates the parameters in the examples. *)

Module Codecs.

Definition decimal (z : Z) : string := NilZero.string_of_int (Z.to_int z).

Definition is_digit (c : ascii) : bool := (("0" <=? c) && (c <=? "9"))%char.

Definition all_digits (s : string) : bool :=
  bool_decide (s ≠ EmptyString) && forallb is_digit (list_ascii_of_string s).

Definition white_space (c : ascii) : bool :=
  ((c =? " ") || (c =? "009") || (c =? "010") || (c =? "011") || (c =? "012")
   || (c =? "013"))%char.

Fixpoint trim_left (s : string) : string :=
  match s with
  | String c s' => if white_space c then trim_left s' else s
  | EmptyString => s
  end.

Definition trim (s : string) : string :=
  String.rev (trim_left (String.rev (trim_left s))).

Definition unsigned (s : string) : number :=
  if bool_decide (s = "Infinity") then Infinity
  else if all_digits s then
    match NilZero.int_of_string s with
    | Some i => Finite (Z.of_int i)
    | None => NaN
    end
  else NaN.

Definition negate (n : number) : number :=
  match n with
  | Finite z => Finite (- z)
  | Infinity => NegInfinity
  | NegInfinity => Infinity
  | NaN => NaN
  end.

(** StringToNumber on decimal integer literals; any other text is [NaN]. *)
Definition StringToNumber (s : string) : number :=
  match trim s with
  | EmptyString => Finite 0
  | String "+" s' => unsigned s'
  | String "-" s' => negate (unsigned s')
  | s' => unsigned s'
  end.

(** *** JSON *)

Definition quotation_mark : ascii := "034".
Definition reverse_solidus : ascii := "092".

Definition hex (n : N) : ascii :=
  if (n <? 10)%N then ascii_of_N (48 + n) else ascii_of_N (87 + n).

Definition escape (c : ascii) : string :=
  if (c =? quotation_mark)%char then String reverse_solidus (String quotation_mark EmptyString)
  else if (c =? reverse_solidus)%char then String reverse_solidus (String reverse_solidus EmptyString)
  else if (c =? "008")%char then "\b"
  else if (c =? "009")%char then "\t"
  else if (c =? "010")%char then "\n"
  else if (c =? "012")%char then "\f"
  else if (c =? "013")%char then "\r"
  else if (c <? " ")%char then
    "\u00" +:+ String (hex (N_of_ascii c / 16)) (String (hex (N_of_ascii c mod 16)) EmptyString)
  else String c EmptyString.

Fixpoint escape_all (s : string) : string :=
  match s with
  | String c s' => escape c +:+ escape_all s'
  | EmptyString => EmptyString
  end.

Definition quote (s : string) : string :=
  String quotation_mark (escape_all s +:+ String quotation_mark EmptyString).

Fixpoint join (sep : string) (l : list string) : string :=
  match l with
  | [] => EmptyString
  | [x] => x
  | x :: l' => x +:+ sep +:+ join sep l'
  end.

(** [JSON.stringify(d)]; [None] is [undefined]. *)
Fixpoint stringify (d : data) : option string :=
  match d with
  | Prim VUndefined => None
  | Prim VNull => Some "null"
  | Prim (VBool b) => Some (if b then "true" else "false")
  | Prim (VNum (Finite z)) => Some (decimal z)
  | Prim (VNum _) => Some "null"
  | Prim (VStr s) => Some (quote s)
  | Arr elements =>
      Some ("[" +:+ join "," (map (fun e => default "null" (stringify e)) elements)
            +:+ "]")
  | Obj properties =>
      Some ("{" +:+
            join ","
              (omap (fun p => match stringify (snd p) with
                              | Some text => Some (quote (fst p) +:+ ":" +:+ text)
                              | None => None
                              end) properties)
            +:+ "}")
  end.

Definition JSON_stringify (d : data) : result (option string) := Ok (stringify d).

Definition hex_value (c : ascii) : option N :=
  if is_digit c then Some (N_of_ascii c - 48)%N
  else if (("a" <=? c) && (c <=? "f"))%char then Some (N_of_ascii c - 87)%N
  else if (("A" <=? c) && (c <=? "F"))%char then Some (N_of_ascii c - 55)%N
  else None.

(** The UTF-8 bytes of a code point of the basic plane. *)
Definition utf8 (cp : N) : string :=
  if (cp <? 128)%N then String (ascii_of_N cp) EmptyString
  else if (cp <? 2048)%N then
    String (ascii_of_N (192 + cp / 64)) (String (ascii_of_N (128 + cp mod 64)) EmptyString)
  else
    String (ascii_of_N (224 + cp / 4096))
      (String (ascii_of_N (128 + (cp / 64) mod 64))
         (String (ascii_of_N (128 + cp mod 64)) EmptyString)).

Definition unescape (c : ascii) : option ascii :=
  if (c =? quotation_mark)%char then Some quotation_mark
  else if (c =? reverse_solidus)%char then Some reverse_solidus
  else if (c =? "/")%char then Some "/"%char
  else if (c =? "b")%char then Some "008"%char
  else if (c =? "f")%char then Some "012"%char
  else if (c =? "n")%char then Some "010"%char
  else if (c =? "r")%char then Some "013"%char
  else if (c =? "t")%char then Some "009"%char
  else None.

(** The characters of a string literal after its opening quotation mark, and
    what follows the closing one. *)
Fixpoint parse_chars (s : string) : option (string * string) :=
  match s with
  | EmptyString => None
  | String c rest =>
      if (c =? quotation_mark)%char then Some (EmptyString, rest)
      else if (c =? reverse_solidus)%char then
        match rest with
        | String "u" (String h1 (String h2 (String h3 (String h4 rest')))) =>
            match hex_value h1, hex_value h2, hex_value h3, hex_value h4,
                  parse_chars rest' with
            | Some a, Some b, Some c, Some d, Some (t, r) =>
                Some (utf8 (((a * 16 + b) * 16 + c) * 16 + d) +:+ t, r)
            | _, _, _, _, _ => None
            end
        | String e rest' =>
            match unescape e, parse_chars rest' with
            | Some ch, Some (t, r) => Some (String ch t, r)
            | _, _ => None
            end
        | EmptyString => None
        end
      else if (c <? " ")%char then None
      else
        match parse_chars rest with
        | Some (t, r) => Some (String c t, r)
        | None => None
        end
  end.

Definition json_ws (c : ascii) : bool :=
  ((c =? " ") || (c =? "009") || (c =? "010") || (c =? "013"))%char.

Fixpoint skip_ws (s : string) : string :=
  match s with
  | String c s' => if json_ws c then skip_ws s' else s
  | EmptyString => s
  end.

(** An integer literal: an optional minus sign, then 0 or digits that do not
    start with 0. *)
Definition parse_number (s : string) : option (data * string) :=
  let '(sign, s') :=
    match s with
    | String "-" s' => ((-1)%Z, s')
    | _ => (1%Z, s)
    end in
  let '(digits, rest) := Stream.span is_digit s' in
  match digits, NilZero.int_of_string digits with
  | String "0" (String _ _), _ => None
  | String _ _, Some i => Some (Prim (VNum (Finite (sign * Z.of_int i))), rest)
  | _, _ => None
  end.

Fixpoint parse_elements (value : string -> option (data * string))
    (fuel : nat) (s : string) (acc : list data) : option (list data * string) :=
  match fuel with
  | O => None
  | S fuel =>
      match value s with
      | Some (v, rest) =>
          match skip_ws rest with
          | String "," rest' => parse_elements value fuel rest' (acc ++ [v])
          | String "]" rest' => Some (acc ++ [v], rest')
          | _ => None
          end
      | None => None
      end
  end.

Fixpoint parse_members (value : string -> option (data * string))
    (fuel : nat) (s : string) (acc : list (string * data))
    : option (list (string * data) * string) :=
  match fuel with
  | O => None
  | S fuel =>
      match skip_ws s with
      | String c rest =>
          if (c =? quotation_mark)%char then
            match parse_chars rest with
            | Some (key, rest) =>
                match skip_ws rest with
                | String ":" rest =>
                    match value rest with
                    | Some (v, rest) =>
                        match skip_ws rest with
                        | String "," rest' =>
                            parse_members value fuel rest' (acc ++ [(key, v)])
                        | String "}" rest' => Some (acc ++ [(key, v)], rest')
                        | _ => None
                        end
                    | None => None
                    end
                | _ => None
                end
            | None => None
            end
          else None
      | EmptyString => None
      end
  end.

Fixpoint parse_value (fuel : nat) (s : string) : option (data * string) :=
  match fuel with
  | O => None
  | S fuel =>
      match skip_ws s with
      | String c rest as s' =>
          if (c =? quotation_mark)%char then
            match parse_chars rest with
            | Some (t, r) => Some (Prim (VStr t), r)
            | None => None
            end
          else if (c =? "[")%char then
            match skip_ws rest with
            | String "]" r => Some (Arr [], r)
            | _ =>
                match parse_elements (parse_value fuel) fuel rest [] with
                | Some (l, r) => Some (Arr l, r)
                | None => None
                end
            end
          else if (c =? "{")%char then
            match skip_ws rest with
            | String "}" r => Some (Obj [], r)
            | _ =>
                match parse_members (parse_value fuel) fuel rest [] with
                | Some (o, r) => Some (Obj o, r)
                | None => None
                end
            end
          else
            match Stream.strip_prefix "null" s', Stream.strip_prefix "true" s',
                  Stream.strip_prefix "false" s' with
            | Some r, _, _ => Some (Prim VNull, r)
            | _, Some r, _ => Some (Prim (VBool true), r)
            | _, _, Some r => Some (Prim (VBool false), r)
            | _, _, _ => parse_number s'
            end
      | EmptyString => None
      end
  end.

(** [JSON.parse(text)] *)
Definition JSON_parse (text : string) : result data :=
  match parse_value (S (String.length text)) text with
  | Some (v, rest) =>
      match skip_ws rest with
      | EmptyString => Ok v
      | _ => Throw SyntaxError
      end
  | None => Throw SyntaxError
  end.

(** *** MessagePack: nil, booleans, the single-byte integers, and strings,
    arrays and maps whose length fits the first byte *)

Definition byte_of (n : Z) : byte := default x00 (Byte.of_N (Z.to_N n)).

Fixpoint pack (d : data) : option (list byte) :=
  match d with
  | Prim VNull => Some [byte_of 192]
  | Prim (VBool false) => Some [byte_of 194]
  | Prim (VBool true) => Some [byte_of 195]
  | Prim (VNum (Finite z)) =>
      if bool_decide (0 <= z <= 127) then Some [byte_of z]
      else if bool_decide (-32 <= z < 0) then Some [byte_of (256 + z)]
      else None
  | Prim (VStr s) =>
      let bytes := list_byte_of_string s in
      if bool_decide (Stream.byteLength bytes <= 31)
      then Some (byte_of (160 + Stream.byteLength bytes) :: bytes)
      else None
  | Arr elements =>
      let n := Z.of_nat (List.length elements) in
      match
        (fix all (l : list data) : option (list byte) :=
           match l with
           | [] => Some []
           | e :: l' =>
               match pack e, all l' with
               | Some a, Some b => Some (a ++ b)
               | _, _ => None
               end
           end) elements
      with
      | Some body => if bool_decide (n <= 15) then Some (byte_of (144 + n) :: body) else None
      | None => None
      end
  | Obj properties =>
      let n := Z.of_nat (List.length properties) in
      match
        (fix all (l : list (string * data)) : option (list byte) :=
           match l with
           | [] => Some []
           | (k, v) :: l' =>
               let key := list_byte_of_string k in
               match pack v, all l' with
               | Some a, Some b =>
                   if bool_decide (Stream.byteLength key <= 31)
                   then Some (byte_of (160 + Stream.byteLength key) :: key ++ a ++ b)
                   else None
               | _, _ => None
               end
           end) properties
      with
      | Some body => if bool_decide (n <= 15) then Some (byte_of (128 + n) :: body) else None
      | None => None
      end
  | _ => None
  end.

Definition msgpack_encode (d : data) : result Stream.chunk :=
  match pack d with
  | Some bytes => Ok bytes
  | None => Throw (Error invalid_argument)
  end.

Fixpoint unpack_many {A} (one : list byte -> option (A * list byte))
    (count : nat) (bytes : list byte) : option (list A * list byte) :=
  match count with
  | O => Some ([], bytes)
  | S count =>
      match one bytes with
      | Some (v, rest) =>
          match unpack_many one count rest with
          | Some (vs, rest) => Some (v :: vs, rest)
          | None => None
          end
      | None => None
      end
  end.

Definition unpack_str (bytes : list byte) : option (string * list byte) :=
  match bytes with
  | b :: rest =>
      let n := Z.of_N (Byte.to_N b) in
      if bool_decide (160 <= n <= 191 ∧ n - 160 <= Stream.byteLength rest) then
        Some (string_of_list_byte (take (Z.to_nat (n - 160)) rest),
              drop (Z.to_nat (n - 160)) rest)
      else None
  | [] => None
  end.

Fixpoint unpack (fuel : nat) (bytes : list byte) : option (data * list byte) :=
  match fuel with
  | O => None
  | S fuel =>
      match bytes with
      | [] => None
      | b :: rest =>
          let n := Z.of_N (Byte.to_N b) in
          if bool_decide (n = 192) then Some (Prim VNull, rest)
          else if bool_decide (n = 194) then Some (Prim (VBool false), rest)
          else if bool_decide (n = 195) then Some (Prim (VBool true), rest)
          else if bool_decide (n <= 127) then Some (Prim (VNum (Finite n)), rest)
          else if bool_decide (224 <= n) then Some (Prim (VNum (Finite (n - 256))), rest)
          else if bool_decide (160 <= n <= 191) then
            match unpack_str bytes with
            | Some (s, rest) => Some (Prim (VStr s), rest)
            | None => None
            end
          else if bool_decide (144 <= n <= 159) then
            match unpack_many (unpack fuel) (Z.to_nat (n - 144)) rest with
            | Some (l, rest) => Some (Arr l, rest)
            | None => None
            end
          else if bool_decide (128 <= n <= 143) then
            match
              unpack_many
                (fun bytes =>
                   match unpack_str bytes with
                   | Some (k, rest) =>
                       match unpack fuel rest with
                       | Some (v, rest) => Some ((k, v), rest)
                       | None => None
                       end
                   | None => None
                   end) (Z.to_nat (n - 128)) rest
            with
            | Some (o, rest) => Some (Obj o, rest)
            | None => None
            end
          else None
      end
  end.

Definition msgpack_decode (buf : Stream.chunk) : result data :=
  match unpack (S (List.length buf)) buf with
  | Some (v, []) => Ok v
  | _ => Throw (Error invalid_argument)
  end.

(** *** querystring: objects whose values are strings, integers, booleans or
    arrays of those *)

Definition unreserved (c : ascii) : bool :=
  Stream.word_char c
  || bool_decide (c ∈ list_ascii_of_string "-.!~*'()").

Definition HEX (n : N) : ascii :=
  if (n <? 10)%N then ascii_of_N (48 + n) else ascii_of_N (55 + n).

Fixpoint qs_escape (s : string) : string :=
  match s with
  | String c s' =>
      (if unreserved c then String c EmptyString
       else String "%" (String (HEX (N_of_ascii c / 16))
                          (String (HEX (N_of_ascii c mod 16)) EmptyString)))
      +:+ qs_escape s'
  | EmptyString => EmptyString
  end.

Definition stringifyPrimitive (d : data) : string :=
  match d with
  | Prim (VStr s) => s
  | Prim (VNum (Finite z)) => decimal z
  | Prim (VBool b) => if b then "true" else "false"
  | _ => EmptyString
  end.

Definition qs_stringify (d : data) : string :=
  match d with
  | Obj properties =>
      join "&"
        (flat_map
           (fun p =>
              match snd p with
              | Arr elements =>
                  map (fun e => qs_escape (fst p) +:+ "=" +:+
                                qs_escape (stringifyPrimitive e)) elements
              | v => [qs_escape (fst p) +:+ "=" +:+ qs_escape (stringifyPrimitive v)]
              end) properties)
  | _ => EmptyString
  end.

Fixpoint qs_unescape (s : string) : string :=
  match s with
  | String c s' =>
      match s' with
      | String h1 (String h2 _) =>
          match (if (c =? "%")%char then hex_value h1 else None), hex_value h2 with
          | Some a, Some b =>
              String (ascii_of_N (a * 16 + b))
                (match qs_unescape s' with
                 | String _ (String _ r) => r
                 | r => r
                 end)
          | _, _ => String (if (c =? "+")%char then " "%char else c) (qs_unescape s')
          end
      | _ => String (if (c =? "+")%char then " "%char else c) (qs_unescape s')
      end
  | EmptyString => EmptyString
  end.

(** The text before the first occurrence of [sep], and the text after it. *)
Fixpoint cut (sep : ascii) (s : string) : string * option string :=
  match s with
  | String c s' =>
      if (c =? sep)%char then (EmptyString, Some s')
      else let '(a, b) := cut sep s' in (String c a, b)
  | EmptyString => (EmptyString, None)
  end.

Fixpoint split (fuel : nat) (sep : ascii) (s : string) : list string :=
  match fuel with
  | O => [s]
  | S fuel =>
      match cut sep s with
      | (a, Some b) => a :: split fuel sep b
      | (a, None) => [a]
      end
  end.

(** A repeated key collects its values in an array. *)
Fixpoint add_property (k : string) (v : data) (o : list (string * data))
    : list (string * data) :=
  match o with
  | [] => [(k, v)]
  | (k', v') :: o' =>
      if bool_decide (k = k') then
        (k', match v' with
             | Arr l => Arr (l ++ [v])
             | _ => Arr [v'; v]
             end) :: o'
      else (k', v') :: add_property k v o'
  end.

Definition qs_parse (text : string) : data :=
  Obj (fold_left
         (fun o part =>
            if bool_decide (part = EmptyString) then o
            else
              let '(k, v) := cut "=" part in
              add_property (qs_unescape k)
                (Prim (VStr (qs_unescape (default EmptyString v)))) o)
         (split (String.length text) "&" text) []).

(** [path.extname] and [mime.getType] on plain file names: the extension is
    the name from its last dot on, unless that dot is the first character;
    the types are those of the files the tests use. *)
Fixpoint from_last_dot (s : string) : option string :=
  match s with
  | EmptyString => None
  | String c s' =>
      match from_last_dot s' with
      | Some e => Some e
      | None => if (c =? ".")%char then Some s else None
      end
  end.

Definition extname (path : string) : string :=
  match path with
  | String _ rest => default EmptyString (from_last_dot rest)
  | EmptyString => EmptyString
  end.

Definition mime_getType (path : string) : value :=
  let extension := extname path in
  if bool_decide (extension = ".jpg") then VStr "image/jpeg"
  else if bool_decide (extension = ".json") then VStr "application/json"
  else if bool_decide (extension = ".js") then VStr "application/javascript"
  else if bool_decide (extension = ".txt") then VStr "text/plain"
  else VNull.

End Codecs.

(** ** The notions of the design

    Predicates that follow the words of the design rather than the code; the
    theorems relate them to the code. *)

Module Design.
Import Stream.

(** The pattern of a content type, part by part: one of the six families, a
    slash, a subtype of one or more characters among letters, digits, [_] and
    [-], then an optional semicolon and any characters up to the end of the
    text, none of them a line terminator.  [group] is what the first pair of
    parentheses holds. *)
Inductive content_type_match (text group : string) : Prop :=
| content_type_matched (type subtype semicolon rest : string) :
    type ∈ TYPES ->
    subtype <> EmptyString ->
    forallb subtype_char (list_ascii_of_string subtype) = true ->
    semicolon = EmptyString \/ semicolon = ";"%string ->
    dot_star rest = true ->
    text = type +:+ "/" +:+ subtype +:+ semicolon +:+ rest ->
    group = type +:+ "/" +:+ subtype ->
    content_type_match text group.

(** A configuration the design calls malformed: a content type that is not
    [type/subtype] over the six families, an encoding other than the three,
    a declared length or a limit that is not positive (or, for the limit, not
    a number), an interval above the timeout. *)
Inductive malformed (props : gmap string value) : Prop :=
| invalid_content_type :
    (forall text group, get props "contentType" = VStr text ->
                        ~ content_type_match text group) ->
    malformed props
| invalid_encoding :
    get props "contentEncoding" ∉ [VStr "identity"; VStr "gzip"; VStr "deflate"] ->
    malformed props
| non_positive_length (n : number) :
    get props "contentLength" = VNum n -> le n (Finite 0) = true ->
    malformed props
| non_positive_or_NaN_limit (n : number) :
    get props "limit" = VNum n -> n = NaN \/ le n (Finite 0) = true ->
    malformed props
| interval_above_timeout (t i : number) :
    get props "timeout" = VNum t -> get props "interval" = VNum i ->
    gt i t = true ->
    malformed props.

(** The default limit: 64 KiB for a deserializable content type, 10 MiB
    otherwise. *)
Definition default_limit (type : string) : number :=
  if DESERIALIZABLE_TYPES type then Finite 65536 else Finite 10485760.

(** The declared content length exceeds the limit: the supplied one, or the
    default of the content type when none is supplied. *)
Inductive declared_above_limit (props : gmap string value) : Prop :=
| above_supplied (n l : number) :
    get props "contentLength" = VNum n -> get props "limit" = VNum l ->
    gt n l = true ->
    declared_above_limit props
| above_default (n : number) (raw type : string) :
    get props "contentLength" = VNum n ->
    is_nullish (get props "limit") = true ->
    get props "contentType" = VStr raw ->
    CONTENT_TYPES_exec raw = Some type ->
    gt n (default_limit type) = true ->
    declared_above_limit props.

(** [props.k] for a [props] that may be absent. *)
Definition supplied (props : option (gmap string value)) (k : string) : value :=
  match props with
  | Some o => get o k
  | None => VUndefined
  end.

(** The sum of the byte lengths of a sequence of chunks. *)
Definition total (chunks : list chunk) : Z :=
  foldr (fun c n => byteLength c + n) 0 chunks.

(** The fields no operation assigns after construction. *)
Definition same_config (s s' : SmartStream) : Prop :=
  _contentTypeRaw s' = _contentTypeRaw s /\
  _contentType s' = _contentType s /\
  _contentEncoding s' = _contentEncoding s /\
  _limit s' = _limit s /\
  _timeout s' = _timeout s /\
  _interval s' = _interval s.

(** What every instance satisfies: its content type is the one matched in
    what it was given, and its encoding passed the guard of the
    constructor. *)
Definition well_formed (s : SmartStream) : Prop :=
  exec1 (_contentTypeRaw s) = Ok (_contentType s) /\
  test CONTENT_ENCODINGS (_contentEncoding s) = true.

(** The timer can be touched. *)
Definition alive (t : option timer) : Prop :=
  match t with
  | Some NOOP => True
  | Some (Smart t) => Timer._destroyed t = false
  | None => False
  end.

(** Open, with a timer and nothing in the way: a chunk written now reaches
    the transform callback. *)
Definition ready (s : SmartStream) : Prop :=
  destroyed (super s) = false /\ errored (super s) = None /\
  ended (super s) = false /\ writing (super s) = false /\
  alive (_timer s).

Definition is_data (e : event) : bool :=
  match e with EvData _ => true | _ => false end.

Definition is_error (e : event) : bool :=
  match e with EvError _ => true | _ => false end.

Definition is_timeout (e : event) : bool :=
  match e with EvError e => isTimedOut e | _ => false end.

(** An instance made with a declared length above its limit, before or after
    the fault it is bound for: it has no timer, the immediate of the
    constructor is pending, and it has signalled that one fault or none. *)
Definition doomed (fault : exn) (s : SmartStream) : Prop :=
  _timer s = None /\ immediate s = true /\ ended (super s) = false /\
  (exists n, _contentLength s = Some n) /\
  SmartStreamError.TooLarge (toJSON s) = fault /\
  if destroyed (super s) then
    errored (super s) = Some fault /\
    List.filter is_error (emitted (super s)) = [EvError fault]
  else
    errored (super s) = None /\
    List.filter is_error (emitted (super s)) = [].

(** No [SmartTimer] runs for the instance. *)
Definition untimed (s : SmartStream) : Prop :=
  match _timer s with
  | Some (Smart _) => False
  | _ => True
  end.

(** The metadata object of a fault, and a fault carrying a value in it. *)
Definition metadata_of (e : exn) : gmap string value :=
  match e with
  | SmartError _ _ (Object md) _ => md
  | _ => ∅
  end.

Definition carries (e : exn) (v : value) : Prop :=
  exists k, metadata_of e !! k = Some v.

(** A caller that destroys the stream with a timeout fault of its own. *)
Definition injects_timeout (a : action) : bool :=
  match a with ActDestroy (Some e) => isTimedOut e | _ => false end.

(** The transforms between a stream and its transcoded form: decompress the
    current encoding if it is not identity, compress to the target if that is
    not identity. *)
Definition decompressor (encoding : value) : list Heap.zlib :=
  if strict_eq encoding (VStr "gzip") then [Heap.Gunzip]
  else if strict_eq encoding (VStr "deflate") then [Heap.Inflate]
  else [].

Definition compressor (encoding : value) : list Heap.zlib :=
  if strict_eq encoding (VStr "gzip") then [Heap.Gzip]
  else if strict_eq encoding (VStr "deflate") then [Heap.Deflate]
  else [].

Definition transcoder (source target : value) : list Heap.zlib :=
  decompressor source ++ compressor target.

(** The store after [zlib.create...()] and [from.pipe(it)]. *)
Definition piped_into (h : Heap.heap) (from : nat) (z : Heap.zlib) : Heap.heap :=
  {| Heap.objects := Heap.objects h ++ [Heap.ObjCodec z None];
     Heap.pipes := Heap.pipes h ++ [(from, List.length (Heap.objects h))];
     Heap.once_error := Heap.once_error h;
     Heap.clock := Heap.clock h |}.

(** The properties [toContentEncoding] lays over the header. *)
Definition unbounded (contentEncoding : value) : gmap string value :=
  {[ "contentEncoding" := contentEncoding;
     "limit" := VNum Infinity;
     "timeout" := VNum (Finite 0);
     "interval" := VNum (Finite 0) ]}.

(** The pipes of a chain: [from] into the first stage, each stage into the
    next, the last into [to]. *)
Fixpoint chain (from : nat) (stages : list nat) (to : nat) : list (nat * nat) :=
  match stages with
  | [] => [(from, to)]
  | x :: stages' => (from, x) :: chain x stages' to
  end.

(** The chunks of the 'data' events of a log, in order, and the chunks a
    sequence of actions writes. *)
Definition data_of (log : list event) : list chunk :=
  omap (fun e => match e with EvData c => Some c | _ => None end) log.

Definition written (acts : list action) : list chunk :=
  omap (fun a => match a with ActWrite c => Some c | _ => None end) acts.

(** What an instance has emitted once a sequence of actions has happened
    to it, and the instance then. *)
Definition after (now : Z) (s : SmartStream) (acts : list action) : SmartStream :=
  stream (run {| clock := now; stream := s |} acts).

Definition log (now : Z) (s : SmartStream) (acts : list action) : list event :=
  emitted (super (after now s acts)).

(** The writable side takes no more chunks. *)
Definition closed (s : SmartStream) : bool :=
  destroyed (super s) || ended (super s) || writing (super s).


(** What one event can do to what an observer sees of an instance: nothing;
    pass a chunk on; let an exception of the transform callback escape; end;
    destroy the instance, with or without a fault. *)
Definition unseen (s s' : SmartStream) : Prop :=
  emitted (super s') = emitted (super s) /\
  destroyed (super s') = destroyed (super s) /\
  errored (super s') = errored (super s) /\
  writing (super s') = writing (super s) /\
  _size s' = _size s /\
  (ended (super s') = ended (super s) \/
   ended (super s') = true /\ writing (super s) = true).

Definition passes (c : chunk) (s s' : SmartStream) : Prop :=
  closed s = false /\ closed s' = false /\
  emitted (super s') = emitted (super s) ++ [EvData c] /\
  errored (super s') = errored (super s) /\
  _size s' = _size s + byteLength c /\
  gt (Finite (_size s')) (_limit s) = false.

Definition throws (c : chunk) (s s' : SmartStream) : Prop :=
  closed s = false /\
  (exists e, emitted (super s') = emitted (super s) ++ [EvThrown e]) /\
  destroyed (super s') = false /\ ended (super s') = false /\
  writing (super s') = true /\
  errored (super s') = errored (super s) /\
  _size s' = _size s + byteLength c.

Definition ends (s s' : SmartStream) : Prop :=
  closed s = false /\
  emitted (super s') = emitted (super s) ++ [EvEnd] /\
  destroyed (super s') = false /\ ended (super s') = true /\
  writing (super s') = false /\
  errored (super s') = errored (super s) /\
  _size s' = _size s.

Definition destroys (s s' : SmartStream) : Prop :=
  destroyed (super s) = false /\ destroyed (super s') = true /\
  ended (super s') = ended (super s) /\
  writing (super s') = writing (super s) /\
  _size s <= _size s' /\
  (errored (super s') = errored (super s) /\
   emitted (super s') = emitted (super s) ++ [EvClose] \/
   exists e, isSmartStreamError e = true /\
     errored (super s') = Some e /\
     emitted (super s') = emitted (super s) ++ [EvError e; EvClose]).

(** No handle of the runtime is pending for the instance: it has no
    [SmartTimer], or one that is destroyed with both handles cleared. *)
Definition stopped (s : SmartStream) : Prop :=
  match _timer s with
  | Some (Smart t) =>
      Timer._destroyed t = true /\ Timer._timeoutTimer t = None /\
      Timer._intervalTimer t = None
  | _ => True
  end.

(** The instance is destroyed, or has flushed the end of its input. *)
Definition settled (s : SmartStream) : Prop :=
  destroyed (super s) = true \/
  ended (super s) = true /\ writing (super s) = false.

(** The timer of the instance, if it has one, runs with the timeout and the
    interval of the instance. *)
Definition timer_agrees (s : SmartStream) : Prop :=
  match _timer s with
  | Some (Smart t) =>
      Timer.timeout t = _timeout s /\ Timer.interval t = _interval s
  | _ => True
  end.

(** A timer that runs at clock value [c] with a timeout of [t] ms: it is not
    destroyed, the activity it recorded is not in the future, its interval
    handle is due within the interval and its timeout handle no later than
    the timeout after that activity. *)
Definition running (c t : Z) (tm : Timer.SmartTimer) : Prop :=
  Timer._destroyed tm = false /\
  Timer.timeout tm = Finite t /\
  Timer._lastActivity tm <= c /\
  exists g h,
    Timer._intervalTimer tm = Some g /\
    Timer._timeoutTimer tm = Some h /\
    c < g <= c + Timers.delay (Timer.interval tm) /\
    c < h <= Timer._lastActivity tm + t.

(** An instance whose timer is a [SmartTimer] that runs unless the instance
    is settled. *)
Definition timed (c t : Z) (s : SmartStream) : Prop :=
  exists tm,
    _timer s = Some (Smart tm) /\
    Timer.interval tm = _interval s /\
    (settled s \/ running c t tm).

(** The fault of a timeout detected after [duration] ms. *)
Definition timed_out (duration : Z) : exn :=
  SmartStreamError.TimedOut {[ "duration" := VNum (Finite duration) ]}.

(** The timeout or the interval in force: the one supplied when it is a
    number not below 0, the default otherwise. *)
Definition in_force (supplied default : number) : number :=
  if ge supplied (Finite 0) then supplied else default.

(** The six getters of the family of the content type, in the order of
    [TYPES]. *)
Definition families (s : SmartStream) : list bool :=
  [isAppSpecific s; isAudio s; isImage s; isMultipart s; isText s; isVideo s].

(** The content types the serializer supports. *)
Definition SUPPORTED_TYPES : list string :=
  ["application/json"; "application/msgpack";
   "application/x-www-form-urlencoded"].

Section RoundTrip.
Variable JSON_stringify : data -> result (option string).
Variable JSON_parse : string -> result data.
Variable msgpack_encode : data -> result chunk.
Variable msgpack_decode : chunk -> result data.
Variable qs_stringify : data -> string.
Variable qs_parse : string -> data.

(** [deserialize(T, serialize(T, V))] *)
Definition round_trip (type : value) (d : data) : result data :=
  match
    Util.serialize JSON_stringify msgpack_encode qs_stringify type d
  with
  | Ok buf => Util.deserialize JSON_parse msgpack_decode qs_parse type buf
  | Throw e => Throw e
  end.

(** The codec of a content type gives a value back: encoding it succeeds and
    decoding the result yields the value. *)
Definition codec_round_trips (type : string) (d : data) : Prop :=
  (type = "application/json" ->
   exists text, JSON_stringify d = Ok (Some text) /\ JSON_parse text = Ok d) /\
  (type = "application/msgpack" ->
   exists buf, msgpack_encode d = Ok buf /\ msgpack_decode buf = Ok d) /\
  (type = "application/x-www-form-urlencoded" ->
   qs_parse (qs_stringify d) = d).

End RoundTrip.

End Design.

(** ** Concrete inputs

    The configurations, chunks and stores at which the theorems are run. *)

Module Examples.
Import Stream.

(** The [props] of the tests. *)
Definition json : gmap string value :=
  {[ "contentType" := VStr "application/json";
     "contentEncoding" := VStr "identity" ]}.

(** [limit = 10, timeout = 0] *)
Definition ten : gmap string value :=
  <["limit" := VNum (Finite 10)]> (<["timeout" := VNum (Finite 0)]> json).

(** A declared length of 100 bytes under a limit of 10. *)
Definition oversized : gmap string value :=
  <["contentLength" := VNum (Finite 100)]> (<["limit" := VNum (Finite 10)]> json).

(** [timeout = 500, interval = 100] *)
Definition half_second : gmap string value :=
  <["timeout" := VNum (Finite 500)]> (<["interval" := VNum (Finite 100)]> json).

(** A chunk of four bytes. *)
Definition four : chunk := [x61; x62; x63; x64].

(** [{ foo: 'bar', bar: 'baz' }] *)
Definition obj : data :=
  Obj [("foo", Prim (VStr "bar")); ("bar", Prim (VStr "baz"))].

(** A store holding the instance a construction made, if it made one, and a
    plain readable stream after it. *)
Definition store (r : result SmartStream) : Heap.heap :=
  {| Heap.objects :=
       match r with
       | Ok s => [Heap.ObjSmartStream s; Heap.ObjReadable]
       | Throw _ => [Heap.ObjReadable]
       end;
     Heap.pipes := [];
     Heap.once_error := [];
     Heap.clock := 0 |}.

(** A store with nothing in it. *)
Definition nothing : Heap.heap :=
  {| Heap.objects := []; Heap.pipes := []; Heap.once_error := [];
     Heap.clock := 0 |}.

(** A content type as a Content-Type header has it. *)
Definition html : gmap string value :=
  {[ "contentType" := VStr "text/html; charset=utf-8";
     "contentEncoding" := VStr "identity" ]}.

Definition json_utf8 : gmap string value :=
  {[ "contentType" := VStr "application/json; charset=utf-8";
     "contentEncoding" := VStr "identity" ]}.

(** [timeout = 500] and no interval *)
Definition hasty : gmap string value := <["timeout" := VNum (Finite 500)]> json.

(** The object at a reference, when it is an instance. *)
Definition instance_at (h : Heap.heap) (r : nat) : option SmartStream :=
  match Heap.objects h !! r with
  | Some (Heap.ObjSmartStream s) => Some s
  | _ => None
  end.

End Examples.
(** * Properties *)

(** ** The pattern of content types *)

Lemma strip_prefix_app (p r : string) : Stream.strip_prefix p (p +:+ r) = Some r.
Proof.
  induction p as [|a p IH]; [reflexivity|].
  simpl. rewrite Ascii.eqb_refl. exact IH.
Qed.

Lemma strip_prefix_Some (p s r : string) :
  Stream.strip_prefix p s = Some r -> s = p +:+ r.
Proof.
  revert s. induction p as [|a p IH]; intros s; simpl.
  - intros [= ->]. reflexivity.
  - destruct s as [|b s]; [discriminate|].
    destruct (Ascii.eqb a b) eqn:Hab; [|discriminate].
    apply Ascii.eqb_eq in Hab as ->. intros H.
    change (String b p +:+ r) with (String b (p +:+ r)). f_equal. by apply IH.
Qed.

Lemma length_append (a b : string) :
  String.length (a +:+ b) = (String.length a + String.length b)%nat.
Proof. induction a as [|c a IH]; simpl; [reflexivity|]. by rewrite IH. Qed.

(** [span] splits the text: all of the first part satisfies the test, and the
    second part does not start with a character that does. *)
Lemma span_spec (f : ascii -> bool) (s t r : string) :
  Stream.span f s = (t, r) ->
  s = t +:+ r /\
  forallb f (list_ascii_of_string t) = true /\
  match r with String c _ => f c = false | EmptyString => True end.
Proof.
  revert t r. induction s as [|c s IH]; intros t r; simpl.
  - intros [= <- <-]. auto.
  - destruct (f c) eqn:Hc.
    + destruct (Stream.span f s) as [t' r'] eqn:Hs. intros [= <- <-].
      destruct (IH t' r' eq_refl) as (-> & Ht & Hr).
      simpl. rewrite Hc. auto.
    + intros [= <- <-]. simpl. auto.
Qed.

(** A run of characters that satisfy the test joins the first part. *)
Lemma span_app (f : ascii -> bool) (t s : string) :
  forallb f (list_ascii_of_string t) = true ->
  Stream.span f (t +:+ s) = (t +:+ fst (Stream.span f s), snd (Stream.span f s)).
Proof.
  induction t as [|c t IH].
  - intros _. change (EmptyString +:+ s) with s.
    destruct (Stream.span f s) as [t r]. reflexivity.
  - simpl. intros [Hc Ht]%andb_true_iff. rewrite Hc, (IH Ht). reflexivity.
Qed.

(** A character that starts no line terminator is skipped by [.*]. *)
Lemma dot_star_cons (c : ascii) (s : string) :
  (c =? "010")%char = false -> (c =? "013")%char = false ->
  (c =? "226")%char = false ->
  Stream.dot_star (String c s) = Stream.dot_star s.
Proof.
  intros H1 H2 H3. simpl. rewrite H1, H2, H3. simpl.
  destruct s as [|d [|e s]]; reflexivity.
Qed.

Lemma subtype_char_plain (c : ascii) :
  Stream.subtype_char c = true ->
  (c =? "010")%char = false /\ (c =? "013")%char = false /\
  (c =? "226")%char = false.
Proof.
  destruct c as [[] [] [] [] [] [] [] []]; vm_compute; intros H;
    try discriminate H; auto.
Qed.

Lemma dot_star_subtype (t s : string) :
  forallb Stream.subtype_char (list_ascii_of_string t) = true ->
  Stream.dot_star (t +:+ s) = Stream.dot_star s.
Proof.
  induction t as [|c t IH]; [reflexivity|].
  intros [Hc Ht]%andb_true_iff.
  destruct (subtype_char_plain c Hc) as (H1 & H2 & H3).
  change (String c t +:+ s) with (String c (t +:+ s)).
  rewrite dot_star_cons by assumption. by apply IH.
Qed.

Lemma dot_star_semicolon (s : string) :
  Stream.dot_star (String ";" s) = Stream.dot_star s.
Proof. apply dot_star_cons; reflexivity. Qed.

(** After a family and the slash, the match is decided by the longest
    subtype. *)
Lemma exec_from_family (type x : string) :
  type ∈ Stream.TYPES ->
  Stream.CONTENT_TYPES_exec (type +:+ "/" +:+ x) =
  let '(subtype, rest) := Stream.span Stream.subtype_char x in
  if bool_decide (subtype = EmptyString) then None
  else if Stream.dot_star rest then Some (type +:+ "/" +:+ subtype)
  else None.
Proof.
  unfold Stream.TYPES. intros H.
  repeat (apply elem_of_cons in H as [->|H]); [..|by apply elem_of_nil in H];
    reflexivity.
Qed.

Lemma exec_from_Some (s g : string) :
  Stream.CONTENT_TYPES_exec s = Some g ->
  exists type x, type ∈ Stream.TYPES /\ s = type +:+ "/" +:+ x.
Proof.
  unfold Stream.CONTENT_TYPES_exec, Stream.TYPES.
  cbn [Stream.exec_from].
  repeat match goal with
    | |- context [Stream.strip_prefix (?ty +:+ "/") s] =>
        let H := fresh "H" in
        destruct (Stream.strip_prefix (ty +:+ "/") s) as [x|] eqn:H;
        [apply strip_prefix_Some in H; intros _;
         exists ty, x; split; [set_solver|exact H]|]
    end.
  discriminate.
Qed.

(** The evaluation of the pattern yields a match of the pattern, and the one
    with the longest subtype, as the greedy [+] does. *)
Lemma exec_match (s g : string) :
  Stream.CONTENT_TYPES_exec s = Some g ->
  Design.content_type_match s g /\
  forall g', Design.content_type_match s g' ->
             (String.length g' <= String.length g)%nat.
Proof.
  intros H. destruct (exec_from_Some s g H) as (type & x & Hty & ->).
  rewrite (exec_from_family type x Hty) in H.
  destruct (Stream.span Stream.subtype_char x) as [subtype rest] eqn:Hspan.
  destruct (span_spec _ _ _ _ Hspan) as (-> & Hall & Hstop).
  case_bool_decide as Hne; [discriminate|].
  destruct (Stream.dot_star rest) eqn:Hdot; [|discriminate].
  injection H as <-. split.
  - apply (Design.content_type_matched _ _ type subtype EmptyString rest);
      auto.
  - intros g' [type' subtype' semi rest' Hty' Hne' Hall' Hsemi Hdot' Heq ->].
    assert (type' = type /\ subtype' +:+ semi +:+ rest' = subtype +:+ rest)
      as [-> Hx].
    { clear -Hty Hty' Heq. unfold Stream.TYPES in *.
      repeat (apply elem_of_cons in Hty as [->|Hty]);
        [..|by apply elem_of_nil in Hty];
        (repeat (apply elem_of_cons in Hty' as [->|Hty']);
          [..|by apply elem_of_nil in Hty']);
        simpl in Heq; simplify_eq; auto. }
    assert (Stream.span Stream.subtype_char (subtype +:+ rest) = (subtype, rest))
      as Hs by (rewrite <- Hspan; reflexivity).
    rewrite <- Hx, (span_app _ subtype' _ Hall') in Hs.
    injection Hs as Hs _. rewrite <- Hs.
    rewrite !length_append. simpl. lia.
Qed.

(** Every match of the pattern is found by its evaluation. *)
Lemma match_exec (s g : string) :
  Design.content_type_match s g -> Stream.CONTENT_TYPES s = true.
Proof.
  intros [type subtype semi rest Hty Hne Hall Hsemi Hdot -> ->].
  unfold Stream.CONTENT_TYPES. apply bool_decide_eq_true.
  rewrite (exec_from_family type _ Hty), (span_app _ subtype _ Hall).
  destruct (Stream.span Stream.subtype_char (semi +:+ rest)) as [t r] eqn:Hspan.
  destruct (span_spec _ _ _ _ Hspan) as (Heq & Hall2 & _).
  simpl. rewrite bool_decide_eq_false_2.
  - assert (Stream.dot_star r = true) as ->; [|eauto].
    rewrite <- (dot_star_subtype t r Hall2), <- Heq.
    destruct Hsemi as [-> | ->]; [exact Hdot|].
    change (";" +:+ rest) with (String ";" rest).
    rewrite dot_star_semicolon. exact Hdot.
  - destruct subtype; [congruence|discriminate].
Qed.

(** The pattern and its evaluation agree. *)
Lemma CONTENT_TYPES_spec (s : string) :
  Stream.CONTENT_TYPES s = true <-> exists g, Design.content_type_match s g.
Proof.
  split.
  - unfold Stream.CONTENT_TYPES. intros [g Hg]%bool_decide_eq_true.
    exists g. by apply exec_match.
  - intros [g Hg]. by eapply match_exec.
Qed.

(** ** Numbers *)

Lemma le_not_gt (a b : number) : le a b = true -> gt a b = false.
Proof.
  unfold gt. destruct a, b; simpl; try congruence.
  rewrite bool_decide_eq_true, bool_decide_eq_false. lia.
Qed.

Lemma gt_not_le (a b : number) : gt a b = true -> le a b = false.
Proof.
  unfold gt. destruct a, b; simpl; try congruence.
  rewrite bool_decide_eq_true, bool_decide_eq_false. lia.
Qed.

(** [x <= limit] is kept by any smaller [x]. *)
Lemma le_Finite_mono (x y : Z) (limit : number) :
  x <= y -> le (Finite y) limit = true -> le (Finite x) limit = true.
Proof.
  destruct limit; simpl; try congruence.
  rewrite !bool_decide_eq_true. lia.
Qed.

(** ** Configuration objects *)

Lemma get_assign (target o : gmap string value) (k : string) :
  get (assign target (Some o)) k =
  match o !! k with Some v => v | None => get target k end.
Proof.
  unfold get, assign. rewrite lookup_union.
  destruct (o !! k), (target !! k); reflexivity.
Qed.

Lemma get_insert (o : gmap string value) (k k' : string) (v : value) :
  get (<[k := v]> o) k' = if decide (k = k') then v else get o k'.
Proof.
  unfold get. rewrite lookup_insert. destruct (decide (k = k')); reflexivity.
Qed.

(** ** The constructor *)

Section ConstructorProperties.
Variable StringToNumber : string -> number.

Lemma construct_validate (now : Z) (props : gmap string value) (e : exn) :
  Stream.validate StringToNumber (Some props) = Some e ->
  Stream.construct StringToNumber now (Some props) = Throw e.
Proof. unfold Stream.construct. intros ->. reflexivity. Qed.

Lemma validate_TypeError (props : option (gmap string value)) (e : exn) :
  Stream.validate StringToNumber props = Some e -> exists m, e = TypeError m.
Proof.
  unfold Stream.validate. destruct props as [props|]; [|intros [= <-]; eauto].
  repeat case_match; intros [= <-]; eauto.
Qed.

Lemma malformed_validate (props : gmap string value) :
  Design.malformed props ->
  exists m, Stream.validate StringToNumber (Some props) = Some (TypeError m).
Proof.
  intros H.
  assert (is_Some (Stream.validate StringToNumber (Some props))) as [e He].
  { unfold Stream.validate.
    destruct (test Stream.CONTENT_TYPES (get props "contentType")) eqn:Ht;
      simpl; [|eauto].
    destruct (test Stream.CONTENT_ENCODINGS (get props "contentEncoding")) eqn:He;
      simpl; [|eauto].
    destruct (le (Stream.num StringToNumber (get props "contentLength")) (Finite 0))
      eqn:Hl; [eauto|].
    destruct (negb (is_nullish (get props "limit")) &&
              (isNaN (Stream.num StringToNumber (get props "limit"))
               || le (Stream.num StringToNumber (get props "limit")) (Finite 0)))
      eqn:Hm; [eauto|].
    destruct (lt (Stream.num StringToNumber (get props "timeout"))
                (Stream.num StringToNumber (get props "interval"))) eqn:Hi; [eauto|].
    exfalso. destruct H as [H|H|n H1 H2|n H1 H2|t i H1 H2 H3].
    - destruct (get props "contentType") as [| | | |text]; try discriminate.
      simpl in Ht. apply CONTENT_TYPES_spec in Ht as [group Hmatch].
      by apply (H text group).
    - apply H. destruct (get props "contentEncoding") as [| | | |s]; try discriminate.
      simpl in He. apply bool_decide_eq_true in He.
      apply (list_elem_of_fmap_2 VStr) in He. exact He.
    - rewrite H1 in Hl. simpl in Hl. congruence.
    - rewrite H1 in Hm. simpl in Hm. destruct H2 as [->|H2]; [discriminate|].
      rewrite H2, orb_true_r in Hm. discriminate.
    - rewrite H1, H2 in Hi. simpl in Hi. unfold gt in H3. congruence. }
  destruct (validate_TypeError _ _ He) as [m ->]. eauto.
Qed.

(** C7. The constructor throws, and so before any instance exists or any
    data flows, for every malformed configuration: a content type that does
    not match the pattern, an encoding outside identity, gzip and deflate, a
    declared content length that is not positive, a limit that is not
    positive or is NaN, an interval greater than the timeout.  What it throws
    is a [TypeError]. *)
Theorem construct_rejects_malformed (now : Z) (props : gmap string value) :
  Design.malformed props ->
  exists m, Stream.construct StringToNumber now (Some props) = Throw (TypeError m).
Proof.
  intros H. destruct (malformed_validate props H) as [m Hm].
  exists m. by apply construct_validate.
Qed.

(** What a successful construction yields, field by field. *)
Lemma initialize_Ok (now : Z) (props : gmap string value) (s : Stream.SmartStream) :
  Stream.initialize StringToNumber now props = Ok s ->
  Stream.super s = Stream.fresh /\
  Stream._contentTypeRaw s = get props "contentType" /\
  Stream.exec1 (get props "contentType") = Ok (Stream._contentType s) /\
  Stream._contentEncoding s = get props "contentEncoding" /\
  Stream._contentLength s =
    (if truthy (Stream.num StringToNumber (get props "contentLength"))
     then Some (Stream.num StringToNumber (get props "contentLength")) else None) /\
  Stream._size s = 0 /\
  Stream._limit s =
    or_else (Stream.num StringToNumber (get props "limit"))
      (Design.default_limit (Stream._contentType s)) /\
  Stream._timeout s =
    (if ge (Stream.num StringToNumber (get props "timeout")) (Finite 0)
     then Stream.num StringToNumber (get props "timeout") else Finite 30000) /\
  Stream._interval s =
    (if ge (Stream.num StringToNumber (get props "interval")) (Finite 0)
     then Stream.num StringToNumber (get props "interval") else Finite 1000) /\
  Stream.immediate s = gt (Stream.plus_contentLength s) (Stream._limit s) /\
  (if Stream.immediate s then Stream._timer s = None
   else if strict_eq (VNum (Stream._timeout s)) (VNum (Finite 0))
        then Stream._timer s = Some Stream.NOOP
        else exists t,
          Timer.new now (Stream._timeout s) (Stream._interval s) = Ok t /\
          Stream._timer s = Some (Stream.Smart t)).
Proof.
  unfold Stream.initialize.
  destruct (Stream.exec1 (get props "contentType")) as [type|e] eqn:Hty;
    [|discriminate].
  cbv zeta.
  match goal with |- context [Stream.with_immediate ?r true] => set (this := r) end.
  destruct (gt (Stream.plus_contentLength this) (Stream._limit this)) eqn:Hgt.
  { intros [= <-]. split_and!; try reflexivity.
    - symmetry. exact Hgt. }
  destruct (strict_eq (VNum (Stream._timeout this)) (VNum (Finite 0))) eqn:Hz.
  { intros [= <-]. split_and!; try reflexivity.
    - symmetry. exact Hgt.
    - change (if strict_eq (VNum (Stream._timeout this)) (VNum (Finite 0))
              then Some Stream.NOOP = Some Stream.NOOP
              else exists t,
                Timer.new now (Stream._timeout this) (Stream._interval this) = Ok t /\
                Some Stream.NOOP = Some (Stream.Smart t)).
      rewrite Hz. reflexivity. }
  destruct (Timer.new now (Stream._timeout this) (Stream._interval this))
    as [t|e] eqn:Ht; [|discriminate].
  intros [= <-]. split_and!; try reflexivity.
  - symmetry. exact Hgt.
  - change (if strict_eq (VNum (Stream._timeout this)) (VNum (Finite 0))
            then Some (Stream.Smart t) = Some Stream.NOOP
            else exists t',
              Timer.new now (Stream._timeout this) (Stream._interval this) = Ok t' /\
              Some (Stream.Smart t) = Some (Stream.Smart t')).
    rewrite Hz. exists t. split; [exact Ht|reflexivity].
Qed.

Lemma construct_Ok (now : Z) (props : option (gmap string value))
    (s : Stream.SmartStream) :
  Stream.construct StringToNumber now props = Ok s ->
  exists p, props = Some p /\
    Stream.validate StringToNumber (Some p) = None /\
    Stream.initialize StringToNumber now p = Ok s.
Proof.
  unfold Stream.construct.
  destruct (Stream.validate StringToNumber props) eqn:Hv; [discriminate|].
  destruct props as [p|]; [|discriminate]. eauto.
Qed.

(** The guards, one by one. *)
Lemma validate_None (props : gmap string value) :
  Stream.validate StringToNumber (Some props) = None ->
  test Stream.CONTENT_TYPES (get props "contentType") = true /\
  test Stream.CONTENT_ENCODINGS (get props "contentEncoding") = true /\
  le (Stream.num StringToNumber (get props "contentLength")) (Finite 0) = false /\
  negb (is_nullish (get props "limit")) &&
    (isNaN (Stream.num StringToNumber (get props "limit"))
     || le (Stream.num StringToNumber (get props "limit")) (Finite 0)) = false /\
  lt (Stream.num StringToNumber (get props "timeout"))
     (Stream.num StringToNumber (get props "interval")) = false.
Proof.
  unfold Stream.validate.
  destruct (test Stream.CONTENT_TYPES _); [|discriminate].
  destruct (test Stream.CONTENT_ENCODINGS _); [|discriminate].
  destruct (le _ _); [discriminate|].
  destruct (negb _ && _); [discriminate|].
  destruct (lt _ _); [discriminate|].
  auto.
Qed.

Lemma test_exec1 (v : value) :
  test Stream.CONTENT_TYPES v = true -> exists type, Stream.exec1 v = Ok type.
Proof.
  destruct v as [| | | |s]; try discriminate. simpl.
  unfold Stream.CONTENT_TYPES. intros H%bool_decide_eq_true.
  destruct H as [type ->]. eauto.
Qed.

Lemma exec1_test (v : value) (type : string) :
  Stream.exec1 v = Ok type -> test Stream.CONTENT_TYPES v = true.
Proof.
  destruct v as [| | | |s]; try discriminate. simpl.
  unfold Stream.CONTENT_TYPES.
  destruct (Stream.CONTENT_TYPES_exec s); [|discriminate].
  intros _. apply bool_decide_eq_true. eauto.
Qed.

(** Every constructed instance is well formed. *)
Lemma construct_well_formed (now : Z) (props : option (gmap string value))
    (s : Stream.SmartStream) :
  Stream.construct StringToNumber now props = Ok s -> Design.well_formed s.
Proof.
  intros (p & -> & Hv & Hi)%construct_Ok.
  apply validate_None in Hv as (Ht & He & _).
  apply initialize_Ok in Hi as (_ & Hraw & Hex & Henc & _).
  unfold Design.well_formed. rewrite Hraw, Henc. split; assumption.
Qed.

End ConstructorProperties.

(** ** One stream: what a write, an end and a destroy do *)

Lemma total_nonneg (chunks : list Stream.chunk) : 0 <= Design.total chunks.
Proof.
  induction chunks as [|c chunks IH]; simpl; [lia|].
  unfold Stream.byteLength. lia.
Qed.

Lemma total_app (l1 l2 : list Stream.chunk) :
  Design.total (l1 ++ l2) = Design.total l1 + Design.total l2.
Proof. induction l1 as [|c l1 IH]; simpl; lia. Qed.

Lemma same_config_refl (s : Stream.SmartStream) : Design.same_config s s.
Proof. repeat split. Qed.

Lemma same_config_trans (s1 s2 s3 : Stream.SmartStream) :
  Design.same_config s1 s2 -> Design.same_config s2 s3 -> Design.same_config s1 s3.
Proof.
  unfold Design.same_config. intros (?&?&?&?&?&?) (?&?&?&?&?&?).
  repeat split; congruence.
Qed.

Lemma destroy_destroyed (s : Stream.SmartStream) (err : option exn) :
  Stream.destroyed (Stream.super s) = true -> Stream.destroy s err = s.
Proof. unfold Stream.destroy. intros ->. reflexivity. Qed.

Lemma write_destroyed (s : Stream.SmartStream) (c : Stream.chunk) :
  Stream.destroyed (Stream.super s) = true -> Stream.write s c = s.
Proof. unfold Stream.write. intros ->. reflexivity. Qed.

Lemma consume_destroyed (s : Stream.SmartStream) (chunks : list Stream.chunk) :
  Stream.destroyed (Stream.super s) = true -> Stream.consume s chunks = s.
Proof.
  intros H. induction chunks as [|c chunks IH]; [reflexivity|].
  simpl. rewrite write_destroyed by exact H. exact IH.
Qed.

Lemma consume_app (s : Stream.SmartStream) (l1 l2 : list Stream.chunk) :
  Stream.consume s (l1 ++ l2) = Stream.consume (Stream.consume s l1) l2.
Proof. unfold Stream.consume. apply fold_left_app. Qed.

(** A live timer stays live when touched. *)
Lemma touch_alive (t : option Stream.timer) :
  Design.alive t ->
  exists t', Stream.timer_touch t = Ok t' /\ Design.alive t'.
Proof.
  destruct t as [[|t]|]; simpl; [eauto| |tauto].
  intros H. unfold Timer.touch. rewrite H. simpl.
  eexists. split; [reflexivity|]. reflexivity.
Qed.

(** A chunk that keeps the size within the limit passes through. *)
Lemma write_within (s : Stream.SmartStream) (c : Stream.chunk) :
  Design.ready s ->
  gt (Finite (Stream._size s + Stream.byteLength c)) (Stream._limit s) = false ->
  Design.ready (Stream.write s c) /\
  Stream._size (Stream.write s c) = Stream._size s + Stream.byteLength c /\
  Stream.emitted (Stream.super (Stream.write s c)) =
    Stream.emitted (Stream.super s) ++ [Stream.EvData c] /\
  Stream._contentLength (Stream.write s c) = Stream._contentLength s /\
  Stream.immediate (Stream.write s c) = Stream.immediate s /\
  Design.same_config s (Stream.write s c).
Proof.
  intros (Hd & He & Hn & Hw & Ha) Hgt.
  unfold Stream.write, Stream.transform. rewrite Hd, Hn, Hw.
  cbn [Stream.with_size Stream._size Stream._limit Stream._timer].
  rewrite Hgt.
  destruct (touch_alive _ Ha) as (t' & -> & Ha').
  unfold Design.ready. cbn. rewrite Hd, He, Hn, Hw.
  repeat split; assumption.
Qed.

(** The chunk that takes the size over the limit destroys the stream with a
    [TooLarge] fault whose metadata is the header at that moment. *)
Lemma write_above (s : Stream.SmartStream) (c : Stream.chunk) :
  Design.ready s ->
  gt (Finite (Stream._size s + Stream.byteLength c)) (Stream._limit s) = true ->
  let fault :=
    SmartStreamError.TooLarge
      (Stream.toJSON (Stream.with_size s (Stream._size s + Stream.byteLength c))) in
  Stream.destroyed (Stream.super (Stream.write s c)) = true /\
  Stream.errored (Stream.super (Stream.write s c)) = Some fault /\
  Stream._size (Stream.write s c) = Stream._size s + Stream.byteLength c /\
  Stream.emitted (Stream.super (Stream.write s c)) =
    Stream.emitted (Stream.super s) ++ [Stream.EvError fault; Stream.EvClose] /\
  Design.same_config s (Stream.write s c).
Proof.
  intros (Hd & He & Hn & Hw & Ha) Hgt fault.
  unfold Stream.write, Stream.transform. rewrite Hd, Hn, Hw.
  cbn [Stream.with_size Stream._size Stream._limit].
  rewrite Hgt.
  unfold Stream.destroy. cbn [Stream.with_size Stream.super]. rewrite Hd.
  unfold Stream._destroy.
  change (isSmartStreamError (SmartStreamError.TooLarge _)) with true.
  cbv iota. unfold Stream.populate.
  destruct (Stream._contentLength _) eqn:Hcl; cbn; rewrite <- app_assoc;
    repeat split.
Qed.

Lemma consume_within (chunks : list Stream.chunk) (s : Stream.SmartStream) :
  Design.ready s ->
  le (Finite (Stream._size s + Design.total chunks)) (Stream._limit s) = true ->
  Design.ready (Stream.consume s chunks) /\
  Stream._size (Stream.consume s chunks) = Stream._size s + Design.total chunks /\
  Stream.emitted (Stream.super (Stream.consume s chunks)) =
    Stream.emitted (Stream.super s) ++ (Stream.EvData <$> chunks) /\
  Stream._contentLength (Stream.consume s chunks) = Stream._contentLength s /\
  Stream.immediate (Stream.consume s chunks) = Stream.immediate s /\
  Design.same_config s (Stream.consume s chunks).
Proof.
  revert s. induction chunks as [|c chunks IH]; intros s Hr Hle.
  { simpl. rewrite Z.add_0_r, app_nil_r.
    repeat split; try assumption; apply Hr. }
  change (Design.total (c :: chunks))
    with (Stream.byteLength c + Design.total chunks) in *.
  pose proof (total_nonneg chunks) as Hpos.
  assert (gt (Finite (Stream._size s + Stream.byteLength c)) (Stream._limit s) = false)
    as Hgt.
  { apply le_not_gt. eapply le_Finite_mono; [|exact Hle]. lia. }
  destruct (write_within s c Hr Hgt) as (Hr' & Hsz & Hem & Hcl & Him & Hcfg).
  destruct (IH (Stream.write s c) Hr') as (Hr2 & Hsz2 & Hem2 & Hcl2 & Him2 & Hcfg2).
  { destruct Hcfg as (_ & _ & _ & -> & _). rewrite Hsz.
    rewrite <- Hle. f_equal. f_equal. lia. }
  change (Stream.consume s (c :: chunks))
    with (Stream.consume (Stream.write s c) chunks).
  split_and!.
  - exact Hr2.
  - rewrite Hsz2, Hsz. lia.
  - rewrite Hem2, Hem, <- app_assoc. reflexivity.
  - congruence.
  - congruence.
  - eapply same_config_trans; eassumption.
Qed.

(** The end of the input on a ready stream: the length is populated if it was
    not known, and the stream is flushed. *)
Lemma end_ready (s : Stream.SmartStream) :
  Design.ready s ->
  Stream.state_of (Stream.end_ s) = Stream.Flushed /\
  Stream._size (Stream.end_ s) = Stream._size s /\
  Stream._contentLength (Stream.end_ s) =
    Some (default (Finite (Stream._size s)) (Stream._contentLength s)) /\
  Stream.emitted (Stream.super (Stream.end_ s)) =
    Stream.emitted (Stream.super s) ++ [Stream.EvEnd] /\
  Design.same_config s (Stream.end_ s).
Proof.
  intros (Hd & He & Hn & Hw & Ha).
  unfold Stream.end_, Stream.state_of. rewrite Hd, Hn, Hw. simpl.
  unfold Stream.flush, Stream.populate. simpl.
  destruct (Stream._contentLength s) eqn:Hcl; simpl; rewrite He, Hd, Hw;
    repeat split; assumption.
Qed.

Lemma new_alive (now : Z) (timeout interval : number) (t : Timer.SmartTimer) :
  Timer.new now timeout interval = Ok t -> Timer._destroyed t = false.
Proof.
  unfold Timer.new. repeat case_match; try discriminate.
  intros [= <-]. reflexivity.
Qed.

(** The header depends on the content type as given, the encoding and the
    content length alone. *)
Lemma toJSON_same (s s' : Stream.SmartStream) :
  Design.same_config s s' ->
  Stream._contentLength s' = Stream._contentLength s ->
  Stream.toJSON s' = Stream.toJSON s.
Proof.
  intros (Hraw & _ & Henc & _) Hcl.
  unfold Stream.toJSON, Stream.plus_contentLength, Stream.contentLength.
  rewrite Hraw, Henc, Hcl. reflexivity.
Qed.

(** The header holds the content type as given, the encoding, the content
    length when it is positive, and nothing else. *)
Lemma toJSON_lookup (s : Stream.SmartStream) (k : string) :
  Stream.toJSON s !! k =
  if decide (k = "contentType") then Some (Stream._contentTypeRaw s)
  else if decide (k = "contentEncoding") then Some (Stream._contentEncoding s)
  else if decide (k = "contentLength") then
    if gt (Stream.plus_contentLength s) (Finite 0)
    then Some (Stream.contentLength s) else None
  else None.
Proof.
  unfold Stream.toJSON.
  destruct (gt (Stream.plus_contentLength s) (Finite 0)).
  - rewrite lookup_insert.
    destruct (decide ("contentLength" = k)) as [<-|Hk]; [reflexivity|].
    rewrite lookup_insert.
    destruct (decide ("contentType" = k)) as [<-|Hk']; [reflexivity|].
    rewrite lookup_singleton.
    destruct (decide ("contentEncoding" = k)) as [<-|Hk'']; [reflexivity|].
    repeat case_decide; congruence.
  - rewrite lookup_insert.
    destruct (decide ("contentType" = k)) as [<-|Hk']; [reflexivity|].
    rewrite lookup_singleton.
    destruct (decide ("contentEncoding" = k)) as [<-|Hk'']; [reflexivity|].
    repeat case_decide; congruence.
Qed.

Lemma filter_is_error_data (chunks : list Stream.chunk) :
  List.filter Design.is_error (Stream.EvData <$> chunks) = [].
Proof. induction chunks as [|c chunks IH]; [reflexivity|exact IH]. Qed.

Lemma filter_is_data_data (chunks : list Stream.chunk) :
  List.filter Design.is_data (Stream.EvData <$> chunks) = Stream.EvData <$> chunks.
Proof.
  induction chunks as [|c chunks IH]; [reflexivity|].
  simpl. f_equal. exact IH.
Qed.

(** A number that is neither NaN, nor zero, nor at most zero is positive. *)
Lemma truthy_positive (n : number) :
  truthy n = true -> le n (Finite 0) = false -> gt n (Finite 0) = true.
Proof.
  unfold gt. destruct n as [| |z|]; simpl; try congruence.
  rewrite bool_decide_eq_false, bool_decide_eq_true. lia.
Qed.

Section StreamProperties.
Variable StringToNumber : string -> number.

(** A constructed stream whose declared length, if any, is within its limit
    is ready, and has seen nothing yet. *)
Lemma construct_ready (now : Z) (props : option (gmap string value))
    (s : Stream.SmartStream) :
  Stream.construct StringToNumber now props = Ok s ->
  Stream.immediate s = false ->
  Design.ready s /\ Stream._size s = 0 /\ Stream.emitted (Stream.super s) = [].
Proof.
  intros (p & -> & Hv & Hi)%construct_Ok Him.
  apply initialize_Ok in Hi
    as (Hsup & _ & _ & _ & _ & Hsz & _ & _ & _ & _ & Htm).
  rewrite Him in Htm. unfold Design.ready. rewrite Hsup. simpl.
  split_and!; try reflexivity; try assumption.
  destruct (strict_eq _ _).
  - rewrite Htm. exact I.
  - destruct Htm as (t & Ht & ->). simpl. eapply new_alive, Ht.
Qed.

(** C2. A constructed stream whose declared length does not exceed its limit,
    fed chunks whose total length is at most the limit and then the end of
    the input, is flushed; its size is the exact sum of the lengths of the
    chunks; its content length is the one supplied at construction or, if
    none was, the size; every chunk was passed on, in order, before the
    end. *)
Theorem flushed_within_limit (now : Z) (props : option (gmap string value))
    (s : Stream.SmartStream) (chunks : list Stream.chunk) :
  Stream.construct StringToNumber now props = Ok s ->
  Stream.immediate s = false ->
  le (Finite (Design.total chunks)) (Stream._limit s) = true ->
  let s' := Stream.end_ (Stream.consume s chunks) in
  Stream.state_of s' = Stream.Flushed /\
  Stream._size s' = Design.total chunks /\
  Stream._contentLength s' =
    Some (default (Finite (Design.total chunks)) (Stream._contentLength s)) /\
  Stream.emitted (Stream.super s') = (Stream.EvData <$> chunks) ++ [Stream.EvEnd].
Proof.
  intros Hc Him Hle s'.
  destruct (construct_ready now props s Hc Him) as (Hr & Hsz & Hem).
  destruct (consume_within chunks s Hr) as (Hr1 & Hsz1 & Hem1 & Hcl1 & _ & _).
  { rewrite Hsz. exact Hle. }
  destruct (end_ready _ Hr1) as (Hst & Hsz2 & Hcl2 & Hem2 & _).
  subst s'. rewrite Hst, Hsz2, Hcl2, Hem2, Hsz1, Hcl1, Hem1, Hsz, Hem.
  repeat split.
Qed.

(** A declared length is a positive number. *)
Lemma declared_positive (now : Z) (props : option (gmap string value))
    (s : Stream.SmartStream) (n : number) :
  Stream.construct StringToNumber now props = Ok s ->
  Stream._contentLength s = Some n -> gt n (Finite 0) = true.
Proof.
  intros (p & -> & Hv & Hi)%construct_Ok Hn.
  apply validate_None in Hv as (_ & _ & Hle & _).
  apply initialize_Ok in Hi as (_ & _ & _ & _ & Hcl & _).
  rewrite Hcl in Hn.
  destruct (truthy _) eqn:Ht; [|discriminate].
  injection Hn as <-. by apply truthy_positive.
Qed.

(** C1, as the code has it.  When the running total of the chunk lengths
    first exceeds the limit at a chunk, consuming the whole sequence raises
    one [TooLarge] fault, at that chunk: the stream is then errored and
    destroyed, the chunks before it were passed on, the chunks after it
    change nothing, and the size stays at the total up to and including that
    chunk.  The fault carries the header of the stream (the content type as
    given, the encoding, and the declared length if there is one) and nothing
    else; the observed size is not part of it. *)
Theorem too_large_at_first_excess (now : Z) (props : option (gmap string value))
    (s : Stream.SmartStream) (pre post : list Stream.chunk) (c : Stream.chunk) :
  Stream.construct StringToNumber now props = Ok s ->
  Stream.immediate s = false ->
  le (Finite (Design.total pre)) (Stream._limit s) = true ->
  gt (Finite (Design.total (pre ++ [c]))) (Stream._limit s) = true ->
  let s' := Stream.consume s (pre ++ c :: post) in
  let fault := SmartStreamError.TooLarge (Stream.toJSON s) in
  s' = Stream.consume s (pre ++ [c]) /\
  Stream.state_of s' = Stream.Errored /\
  Stream.destroyed (Stream.super s') = true /\
  Stream.errored (Stream.super s') = Some fault /\
  Stream._size s' = Design.total (pre ++ [c]) /\
  Stream.emitted (Stream.super s') =
    (Stream.EvData <$> pre) ++ [Stream.EvError fault; Stream.EvClose] /\
  List.filter Design.is_error (Stream.emitted (Stream.super s')) =
    [Stream.EvError fault] /\
  Stream.toJSON s !! "contentType" = Some (Stream._contentTypeRaw s) /\
  Stream.toJSON s !! "contentEncoding" = Some (Stream._contentEncoding s) /\
  Stream.toJSON s !! "contentLength" = VNum <$> Stream._contentLength s /\
  (forall k, k ∉ ["contentType"; "contentEncoding"; "contentLength"] ->
             Stream.toJSON s !! k = None).
Proof.
  intros Hc Him Hle Hgt s' fault.
  destruct (construct_ready now props s Hc Him) as (Hr & Hsz & Hem).
  destruct (consume_within pre s Hr) as (Hr1 & Hsz1 & Hem1 & Hcl1 & _ & Hcfg1).
  { rewrite Hsz. exact Hle. }
  rewrite total_app in Hgt. simpl in Hgt. rewrite Z.add_0_r in Hgt.
  destruct (write_above (Stream.consume s pre) c Hr1)
    as (Hd2 & He2 & Hsz2 & Hem2 & Hcfg2).
  { rewrite Hsz1, Hsz. destruct Hcfg1 as (_ & _ & _ & -> & _). exact Hgt. }
  assert (Stream.toJSON
            (Stream.with_size (Stream.consume s pre)
               (Stream._size (Stream.consume s pre) + Stream.byteLength c)) =
          Stream.toJSON s) as Hj.
  { apply toJSON_same; [|exact Hcl1].
    destruct Hcfg1 as (?&?&?&?&?&?). repeat split; assumption. }
  rewrite Hj in He2, Hem2.
  assert (Stream.consume s (pre ++ [c]) =
          Stream.write (Stream.consume s pre) c) as Hk.
  { rewrite consume_app. reflexivity. }
  assert (s' = Stream.consume s (pre ++ [c])) as Hs'.
  { subst s'. change (pre ++ c :: post) with (pre ++ [c] ++ post).
    rewrite app_assoc, consume_app. apply consume_destroyed.
    rewrite Hk. exact Hd2. }
  rewrite Hs', Hk. fold fault in He2, Hem2.
  split_and!.
  - reflexivity.
  - unfold Stream.state_of. rewrite He2. reflexivity.
  - exact Hd2.
  - exact He2.
  - rewrite Hsz2, Hsz1, Hsz, total_app. simpl. lia.
  - rewrite Hem2, Hem1, Hem. reflexivity.
  - rewrite Hem2, Hem1, Hem. simpl. rewrite List.filter_app, filter_is_error_data.
    reflexivity.
  - rewrite toJSON_lookup. reflexivity.
  - rewrite toJSON_lookup. reflexivity.
  - rewrite toJSON_lookup.
    do 2 (case_decide; [discriminate|]). case_decide; [|congruence].
    unfold Stream.plus_contentLength, Stream.contentLength.
    destruct (Stream._contentLength s) as [n|] eqn:Hn; [|reflexivity].
    rewrite (declared_positive now props s n Hc Hn). reflexivity.
  - intros k Hk'. rewrite toJSON_lookup.
    repeat case_decide; try reflexivity; subst; exfalso; apply Hk'; set_solver.
Qed.

End StreamProperties.

(** ** One stream over time *)

(** Without a timer nothing is ever passed on: the transform callback fails
    the stream or throws at [touch]. *)
Lemma step_without_timer (w : Stream.world) (a : Stream.action) :
  Stream._timer (Stream.stream w) = None ->
  Stream._timer (Stream.stream (Stream.step w a)) = None /\
  List.filter Design.is_data
    (Stream.emitted (Stream.super (Stream.stream (Stream.step w a)))) =
  List.filter Design.is_data (Stream.emitted (Stream.super (Stream.stream w))).
Proof.
  destruct w as [clk [[d e en wr em] raw ty enc cl sz lim to iv tm im]].
  simpl. intros ->.
  destruct a as [c| |err| |]; destruct d, en, wr, im, cl;
    cbn -[gt]; auto; unfold Stream.transform; cbn -[gt];
    repeat match goal with
      | |- context [gt ?a ?b] => destruct (gt a b); cbn -[gt]
      | |- context [match ?x with Some _ => _ | None => _ end] =>
          destruct x; cbn -[gt]
      | |- context [isSmartStreamError ?x] =>
          destruct (isSmartStreamError x); cbn -[gt]
      end;
    rewrite ?List.filter_app; cbn -[gt]; rewrite ?app_nil_r; auto.
Qed.

Lemma run_without_timer (acts : list Stream.action) (w : Stream.world) :
  Stream._timer (Stream.stream w) = None ->
  List.filter Design.is_data
    (Stream.emitted (Stream.super (Stream.stream (Stream.run w acts)))) =
  List.filter Design.is_data (Stream.emitted (Stream.super (Stream.stream w))).
Proof.
  revert w. induction acts as [|a acts IH]; intros w Hw; [reflexivity|].
  destruct (step_without_timer w a Hw) as (Ht & Hf).
  change (Stream.run w (a :: acts)) with (Stream.run (Stream.step w a) acts).
  rewrite (IH _ Ht). exact Hf.
Qed.

Lemma isSmartStreamError_TooLarge (md : gmap string value) :
  isSmartStreamError (SmartStreamError.TooLarge md) = true.
Proof. reflexivity. Qed.

(** A doomed stream stays doomed whatever is written to it. *)
Lemma write_doomed (fault : exn) (s : Stream.SmartStream) (c : Stream.chunk) :
  Design.doomed fault s -> Design.doomed fault (Stream.write s c).
Proof.
  destruct s as [[d e en wr em] raw ty enc cl sz lim to iv tm im].
  unfold Design.doomed. cbn -[gt].
  intros (-> & -> & -> & (n & ->) & Hf & H).
  destruct d; [cbn; eauto 10|]. destruct H as (-> & Hem).
  unfold Stream.write; cbn -[gt].
  destruct wr; [cbn; eauto 10|].
  unfold Stream.transform; cbn -[gt].
  destruct (gt (Finite (sz + Stream.byteLength c)) lim); cbn -[gt].
  - rewrite isSmartStreamError_TooLarge. cbn -[gt].
    rewrite !List.filter_app, Hem.
    change (Stream.toJSON _) with
      (Stream.toJSON
         {| Stream.super :=
              {| Stream.destroyed := false; Stream.errored := None;
                 Stream.ended := false; Stream.writing := false;
                 Stream.emitted := em |};
            Stream._contentTypeRaw := raw; Stream._contentType := ty;
            Stream._contentEncoding := enc; Stream._contentLength := Some n;
            Stream._size := sz; Stream._limit := lim; Stream._timeout := to;
            Stream._interval := iv; Stream._timer := None;
            Stream.immediate := true |}) in *.
    rewrite Hf. cbn. eauto 10.
  - rewrite !List.filter_app, Hem. cbn. eauto 10.
Qed.

Lemma consume_doomed (fault : exn) (chunks : list Stream.chunk)
    (s : Stream.SmartStream) :
  Design.doomed fault s -> Design.doomed fault (Stream.consume s chunks).
Proof.
  revert s. induction chunks as [|c chunks IH]; intros s H; [exact H|].
  apply (IH (Stream.write s c)), write_doomed, H.
Qed.

(** When the immediate runs, a doomed stream is errored with its fault, and
    has signalled it once. *)
Lemma run_immediate_doomed (fault : exn) (s : Stream.SmartStream) :
  Design.doomed fault s ->
  let s' := Stream.run_immediate s in
  Stream.state_of s' = Stream.Errored /\
  Stream.destroyed (Stream.super s') = true /\
  Stream.errored (Stream.super s') = Some fault /\
  List.filter Design.is_error (Stream.emitted (Stream.super s')) =
    [Stream.EvError fault].
Proof.
  destruct s as [[d e en wr em] raw ty enc cl sz lim to iv tm im].
  unfold Design.doomed. cbn -[gt].
  intros (-> & -> & -> & (n & ->) & Hf & H).
  unfold Stream.run_immediate, Stream.state_of. cbn -[gt].
  destruct d; cbn -[gt].
  - destruct H as (-> & Hem). cbn. auto.
  - destruct H as (-> & Hem). rewrite isSmartStreamError_TooLarge. cbn -[gt].
    rewrite !List.filter_app, Hem.
    change (Stream.toJSON _) with
      (Stream.toJSON
         {| Stream.super :=
              {| Stream.destroyed := false; Stream.errored := None;
                 Stream.ended := false; Stream.writing := wr;
                 Stream.emitted := em |};
            Stream._contentTypeRaw := raw; Stream._contentType := ty;
            Stream._contentEncoding := enc; Stream._contentLength := Some n;
            Stream._size := sz; Stream._limit := lim; Stream._timeout := to;
            Stream._interval := iv; Stream._timer := None;
            Stream.immediate := true |}) in *.
    rewrite Hf. cbn. auto.
Qed.

Lemma positive_truthy (n : number) :
  isNaN n = false -> le n (Finite 0) = false -> truthy n = true.
Proof.
  destruct n as [| |z|]; simpl; try congruence.
  intros _ H%bool_decide_eq_false. destruct z; [lia|reflexivity..].
Qed.

Lemma gt_not_NaN (a b : number) : gt a b = true -> isNaN a = false.
Proof. unfold gt. destruct a, b; simpl; congruence. Qed.

Section Doomed.
Variable StringToNumber : string -> number.

(** The branch of the constructor that sets the immediate. *)
Lemma initialize_above (now : Z) (props : gmap string value) (type : string) :
  Stream.exec1 (get props "contentType") = Ok type ->
  truthy (Stream.num StringToNumber (get props "contentLength")) = true ->
  gt (Stream.num StringToNumber (get props "contentLength"))
     (or_else (Stream.num StringToNumber (get props "limit"))
        (Design.default_limit type)) = true ->
  exists s, Stream.initialize StringToNumber now props = Ok s /\
            Stream.immediate s = true.
Proof.
  intros Hty Htr Hgt. unfold Stream.initialize. rewrite Hty. cbv zeta.
  match goal with |- context [Stream.with_immediate ?r true] => set (this := r) end.
  assert (gt (Stream.plus_contentLength this) (Stream._limit this) = true) as ->.
  { subst this. unfold Stream.plus_contentLength.
    cbn [Stream._contentLength Stream._limit]. rewrite Htr. exact Hgt. }
  eexists. split; reflexivity.
Qed.

(** The limit of the design is the limit of the code. *)
Lemma declared_above_limit_code (props : gmap string value) :
  Stream.validate StringToNumber (Some props) = None ->
  Design.declared_above_limit props ->
  exists type,
    Stream.exec1 (get props "contentType") = Ok type /\
    truthy (Stream.num StringToNumber (get props "contentLength")) = true /\
    gt (Stream.num StringToNumber (get props "contentLength"))
       (or_else (Stream.num StringToNumber (get props "limit"))
          (Design.default_limit type)) = true.
Proof.
  intros (Ht & _ & Hcl & Hlim & _)%validate_None Habove.
  destruct (test_exec1 _ Ht) as [type Hty]. exists type.
  split; [exact Hty|].
  destruct Habove as [n l Hn Hl Hgt|n raw type' Hn Hl Hraw Hex Hgt].
  - rewrite Hn, Hl in *. simpl in *.
    apply orb_false_iff in Hlim as [Hnan Hle].
    rewrite (positive_truthy n (gt_not_NaN _ _ Hgt) Hcl).
    unfold or_else. rewrite (positive_truthy l Hnan Hle). auto.
  - rewrite Hn in *. simpl in *.
    rewrite (positive_truthy n (gt_not_NaN _ _ Hgt) Hcl).
    rewrite Hraw in Hty. simpl in Hty. rewrite Hex in Hty.
    injection Hty as <-.
    destruct (get props "limit"); try discriminate; simpl; auto.
Qed.

(** C5. When the declared content length exceeds the limit, the constructor
    returns an instance: it does not throw, and nothing has happened to the
    instance when it returns.  The fault comes with the next turn of the
    event loop: once the immediate has run, and whatever was written before
    it, the stream is errored and destroyed with one [TooLarge] fault, which
    carries the header.  No data event is ever emitted, whatever happens to
    the stream and in whatever order. *)
Theorem declared_length_above_limit (now : Z) (props : gmap string value) :
  Stream.validate StringToNumber (Some props) = None ->
  Design.declared_above_limit props ->
  exists s,
    Stream.construct StringToNumber now (Some props) = Ok s /\
    Stream.state_of s = Stream.Open /\
    Stream.emitted (Stream.super s) = [] /\
    Stream.immediate s = true /\
    (forall chunks,
       let s' := Stream.run_immediate (Stream.consume s chunks) in
       let fault := SmartStreamError.TooLarge (Stream.toJSON s) in
       Stream.state_of s' = Stream.Errored /\
       Stream.destroyed (Stream.super s') = true /\
       Stream.errored (Stream.super s') = Some fault /\
       List.filter Design.is_error (Stream.emitted (Stream.super s')) =
         [Stream.EvError fault]) /\
    Stream.emitted (Stream.super (Stream.run_immediate s)) =
      [Stream.EvError (SmartStreamError.TooLarge (Stream.toJSON s));
       Stream.EvClose] /\
    (forall acts,
       List.filter Design.is_data
         (Stream.emitted
            (Stream.super
               (Stream.stream
                  (Stream.run {| Stream.clock := now; Stream.stream := s |} acts)))) =
       []).
Proof.
  intros Hv Habove.
  destruct (declared_above_limit_code props Hv Habove) as (type & Hty & Htr & Hgt).
  destruct (initialize_above now props type Hty Htr Hgt) as (s & Hs & Him).
  exists s.
  pose proof (initialize_Ok StringToNumber now props s Hs)
    as (Hsup & _ & _ & _ & Hcl & _ & _ & _ & _ & _ & Htm).
  rewrite Him in Htm. rewrite Htr in Hcl.
  assert (Design.doomed (SmartStreamError.TooLarge (Stream.toJSON s)) s) as Hdoomed.
  { unfold Design.doomed. rewrite Hsup. simpl. eauto 10. }
  split_and!.
  - unfold Stream.construct. rewrite Hv. exact Hs.
  - unfold Stream.state_of. rewrite Hsup. reflexivity.
  - rewrite Hsup. reflexivity.
  - exact Him.
  - intros chunks. apply run_immediate_doomed, consume_doomed, Hdoomed.
  - unfold Stream.run_immediate. rewrite Him.
    unfold Stream.destroy. cbn [Stream.with_immediate Stream.super].
    rewrite Hsup. cbn [Stream.destroyed Stream.fresh].
    unfold Stream._destroy. rewrite isSmartStreamError_TooLarge.
    unfold Stream.populate. cbn -[gt]. rewrite Hcl. cbn -[gt].
    rewrite Hsup. reflexivity.
  - intros acts. rewrite run_without_timer by exact Htm.
    simpl. rewrite Hsup. reflexivity.
Qed.

End Doomed.

(** ** A stream without a [SmartTimer] *)

Lemma isTimedOut_TooLarge (md : gmap string value) :
  isTimedOut (SmartStreamError.TooLarge md) = false.
Proof. reflexivity. Qed.

Lemma isTimedOut_Unexpected_caused_by (e : exn) :
  isTimedOut (SmartStreamError.Unexpected_caused_by e) = false.
Proof. reflexivity. Qed.

(** No step raises a timeout for it, unless the caller brings one. *)
Lemma step_untimed (w : Stream.world) (a : Stream.action) :
  Design.untimed (Stream.stream w) ->
  Design.injects_timeout a = false ->
  Design.untimed (Stream.stream (Stream.step w a)) /\
  List.filter Design.is_timeout
    (Stream.emitted (Stream.super (Stream.stream (Stream.step w a)))) =
  List.filter Design.is_timeout (Stream.emitted (Stream.super (Stream.stream w))).
Proof.
  destruct w as [clk [[d e en wr em] raw ty enc cl sz lim to iv tm im]].
  unfold Design.untimed. simpl.
  destruct tm as [[|t]|]; [|tauto|]; intros _ Ha;
    destruct a as [c| |[err|]| |]; destruct d, en, wr, im, cl;
    cbn -[gt] in *; auto; unfold Stream.transform; cbn -[gt];
    repeat match goal with
      | |- context [gt ?a ?b] => destruct (gt a b); cbn -[gt]
      | |- context [isSmartStreamError ?x] =>
          destruct (isSmartStreamError x); cbn -[gt]
      end;
    rewrite ?List.filter_app; cbn -[gt];
    rewrite ?isTimedOut_TooLarge, ?isTimedOut_Unexpected_caused_by, ?Ha;
    rewrite ?app_nil_r; auto.
Qed.

Lemma run_untimed (acts : list Stream.action) (w : Stream.world) :
  Design.untimed (Stream.stream w) ->
  Forall (fun a => Design.injects_timeout a = false) acts ->
  List.filter Design.is_timeout
    (Stream.emitted (Stream.super (Stream.stream (Stream.run w acts)))) =
  List.filter Design.is_timeout (Stream.emitted (Stream.super (Stream.stream w))).
Proof.
  revert w. induction acts as [|a acts IH]; intros w Hw Hacts; [reflexivity|].
  apply Forall_cons in Hacts as [Ha Hacts].
  destruct (step_untimed w a Hw Ha) as (Hu & Hf).
  change (Stream.run w (a :: acts)) with (Stream.run (Stream.step w a) acts).
  rewrite (IH _ Hu Hacts). exact Hf.
Qed.

(** Time alone does nothing to it. *)
Lemma idle_untimed (n : nat) (now : Z) (s : Stream.SmartStream) :
  Design.untimed s ->
  Stream.run {| Stream.clock := now; Stream.stream := s |}
    (replicate n Stream.ActElapse) =
  {| Stream.clock := now + Z.of_nat n; Stream.stream := s |}.
Proof.
  intros Hu. revert now. induction n as [|n IH]; intros now.
  { simpl. rewrite Z.add_0_r. reflexivity. }
  change (replicate (S n) Stream.ActElapse)
    with (Stream.ActElapse :: replicate n Stream.ActElapse).
  change (Stream.run ?w (?a :: ?l)) with (Stream.run (Stream.step w a) l).
  unfold Stream.step at 1. cbn [Stream.clock Stream.stream].
  assert (Stream.run_timers (now + 1) s = s) as ->.
  { unfold Stream.run_timers. unfold Design.untimed in Hu.
    destruct (Stream._timer s) as [[|t]|]; [reflexivity|tauto|reflexivity]. }
  rewrite IH. f_equal. lia.
Qed.

Section Untimed.
Variable StringToNumber : string -> number.

(** C8. A stream constructed with a timeout of 0 has no [SmartTimer]: its
    timer is the pair of no-ops (or absent, when the declared length exceeds
    the limit), touching and destroying it do nothing, time passing without
    data leaves the stream as it is, and no [TimedOut] fault is ever
    signalled, whatever happens to the stream (a caller bringing a timeout
    fault of its own apart). *)
Theorem no_timeout_when_disabled (now : Z) (props : option (gmap string value))
    (s : Stream.SmartStream) :
  Stream.construct StringToNumber now props = Ok s ->
  Stream._timeout s = Finite 0 ->
  Design.untimed s /\
  (Stream.immediate s = false -> Stream._timer s = Some Stream.NOOP) /\
  Stream.timer_touch (Some Stream.NOOP) = Ok (Some Stream.NOOP) /\
  Stream.timer_destroy (Some Stream.NOOP) = Some Stream.NOOP /\
  (forall n : nat,
     Stream.run {| Stream.clock := now; Stream.stream := s |}
       (replicate n Stream.ActElapse) =
     {| Stream.clock := now + Z.of_nat n; Stream.stream := s |}) /\
  (forall acts,
     Forall (fun a => Design.injects_timeout a = false) acts ->
     List.filter Design.is_timeout
       (Stream.emitted
          (Stream.super
             (Stream.stream
                (Stream.run {| Stream.clock := now; Stream.stream := s |} acts)))) =
     []).
Proof.
  intros (p & -> & Hv & Hi)%construct_Ok Hto.
  apply initialize_Ok in Hi
    as (Hsup & _ & _ & _ & _ & _ & _ & _ & _ & _ & Htm).
  rewrite Hto in Htm.
  change (strict_eq (VNum (Finite 0)) (VNum (Finite 0))) with true in Htm.
  assert (Design.untimed s) as Hu.
  { unfold Design.untimed. destruct (Stream.immediate s); rewrite Htm; exact I. }
  split_and!.
  - exact Hu.
  - intros Him. rewrite Him in Htm. exact Htm.
  - reflexivity.
  - reflexivity.
  - intros n. by apply idle_untimed.
  - intros acts Hacts. rewrite run_untimed by assumption.
    simpl. rewrite Hsup. reflexivity.
Qed.

End Untimed.

(** ** The factories *)

(** No step touches the configuration, and a content length that is set
    stays as it is. *)
Lemma step_config (w : Stream.world) (a : Stream.action) :
  Design.same_config (Stream.stream w) (Stream.stream (Stream.step w a)) /\
  (forall n, Stream._contentLength (Stream.stream w) = Some n ->
             Stream._contentLength (Stream.stream (Stream.step w a)) = Some n).
Proof.
  destruct w as [clk [[d e en wr em] raw ty enc cl sz lim to iv tm im]].
  unfold Design.same_config.
  destruct a as [c| |[err|]| |]; destruct d, en, wr, im, cl, tm as [[|t]|];
    cbn -[gt Timer.run_due Timer.touch]; auto 10;
    unfold Stream.transform; cbn -[gt Timer.run_due Timer.touch];
    repeat match goal with
      | |- context [gt ?a ?b] => destruct (gt a b); cbn -[gt Timer.run_due Timer.touch]
      | |- context [isSmartStreamError ?x] =>
          destruct (isSmartStreamError x); cbn -[gt Timer.run_due Timer.touch]
      | |- context [Timer.touch ?x] =>
          destruct (Timer.touch x); cbn -[gt Timer.run_due Timer.touch]
      | |- context [Timer.run_due ?x ?y] =>
          destruct (Timer.run_due x y) as [? [?|]];
          cbn -[gt Timer.run_due Timer.touch]
      end;
    repeat split; congruence.
Qed.

Lemma write_config (s : Stream.SmartStream) (c : Stream.chunk) :
  Design.same_config s (Stream.write s c) /\
  (forall n, Stream._contentLength s = Some n ->
             Stream._contentLength (Stream.write s c) = Some n).
Proof.
  exact (step_config {| Stream.clock := 0; Stream.stream := s |} (Stream.ActWrite c)).
Qed.

Lemma end_config (s : Stream.SmartStream) :
  Design.same_config s (Stream.end_ s) /\
  (forall n, Stream._contentLength s = Some n ->
             Stream._contentLength (Stream.end_ s) = Some n).
Proof.
  exact (step_config {| Stream.clock := 0; Stream.stream := s |} Stream.ActEnd).
Qed.

(** Every step keeps an instance well formed. *)
Lemma step_well_formed (w : Stream.world) (a : Stream.action) :
  Design.well_formed (Stream.stream w) ->
  Design.well_formed (Stream.stream (Stream.step w a)).
Proof.
  destruct (step_config w a) as ((Hraw & Hty & Henc & _) & _).
  unfold Design.well_formed. rewrite Hraw, Hty, Henc. auto.
Qed.

(** The properties [fromBuffer] passes on: those given, over the defaults,
    under the length of the buffer. *)
Lemma fromBuffer_props (props : option (gmap string value)) (L : gmap string value) :
  assign Stream.defaults (Some (assign (assign Stream.defaults props) (Some L))) =
  L ∪ assign Stream.defaults props.
Proof.
  unfold assign. destruct props as [o|].
  - rewrite <- !(assoc_L (∪)). rewrite (idemp_L (∪)). reflexivity.
  - rewrite <- !(assoc_L (∪)). rewrite (idemp_L (∪)). reflexivity.
Qed.

Lemma get_length_props (n : Z) (o : gmap string value) (k : string) :
  get ({[ "contentLength" := VNum (Finite n); "limit" := VNum (Finite n) ]} ∪ o) k =
  if decide (k = "contentLength") then VNum (Finite n)
  else if decide (k = "limit") then VNum (Finite n)
  else get o k.
Proof.
  unfold get. rewrite lookup_union, lookup_insert, lookup_singleton.
  repeat case_decide; subst; try congruence; simpl;
    match goal with |- context [o !! ?k'] => destruct (o !! k') end; reflexivity.
Qed.

Section Factories.
Variable StringToNumber : string -> number.

Lemma fromBuffer_unfold (now : Z) (buf : Stream.chunk)
    (props : option (gmap string value)) :
  Stream.fromBuffer StringToNumber now buf props =
  match
    Stream.construct StringToNumber now
      (Some ({[ "contentLength" := VNum (Finite (Stream.byteLength buf));
                "limit" := VNum (Finite (Stream.byteLength buf)) ]}
             ∪ assign Stream.defaults props))
  with
  | Ok stream => Ok (Stream.end_ (Stream.write stream buf))
  | Throw e => Throw e
  end.
Proof.
  unfold Stream.fromBuffer, Stream.create. rewrite fromBuffer_props. reflexivity.
Qed.

(** C9. [fromBuffer] gives the new stream the byte length of the buffer both
    as its content length and as its limit.  For the empty buffer that
    length is 0, which the constructor refuses: [fromBuffer] throws for every
    [props], so no stream is made from an empty buffer, and when the content
    type and the encoding are acceptable what it throws is the [TypeError]
    of an invalid content length. *)
Theorem fromBuffer_length_is_limit (now : Z) (buf : Stream.chunk)
    (props : option (gmap string value)) :
  (forall s,
     Stream.fromBuffer StringToNumber now buf props = Ok s ->
     Stream._contentLength s = Some (Finite (Stream.byteLength buf)) /\
     Stream._limit s = Finite (Stream.byteLength buf)) /\
  (buf = [] ->
   exists m, Stream.fromBuffer StringToNumber now buf props = Throw (TypeError m)) /\
  (buf = [] ->
   test Stream.CONTENT_TYPES
     (get (assign Stream.defaults props) "contentType") = true ->
   test Stream.CONTENT_ENCODINGS
     (get (assign Stream.defaults props) "contentEncoding") = true ->
   Stream.fromBuffer StringToNumber now buf props =
   Throw (TypeError (invalid_content_length (VNum (Finite 0))))).
Proof.
  rewrite fromBuffer_unfold.
  set (P := _ ∪ assign Stream.defaults props).
  assert (get P "contentLength" = VNum (Finite (Stream.byteLength buf))) as Hcl.
  { subst P. rewrite get_length_props. reflexivity. }
  assert (get P "limit" = VNum (Finite (Stream.byteLength buf))) as Hlim.
  { subst P. rewrite get_length_props. reflexivity. }
  split_and!.
  - intros s.
    destruct (Stream.construct StringToNumber now (Some P)) as [s0|e] eqn:Hc;
      [|discriminate].
    intros [= <-].
    apply construct_Ok in Hc as (p & [= <-] & Hv & Hi).
    apply validate_None in Hv as (_ & _ & Hle & Hl & _).
    apply initialize_Ok in Hi as (_ & _ & _ & _ & Hcl0 & _ & Hlim0 & _).
    rewrite Hcl in Hcl0, Hle. rewrite Hlim in Hlim0.
    unfold Stream.num, ToNumber in Hcl0, Hle, Hlim0.
    assert (truthy (Finite (Stream.byteLength buf)) = true) as Htr.
    { by apply positive_truthy. }
    rewrite Htr in Hcl0. unfold or_else in Hlim0. rewrite Htr in Hlim0.
    destruct (write_config s0 buf) as ((_ & _ & _ & Hl1 & _) & Hc1).
    destruct (end_config (Stream.write s0 buf)) as ((_ & _ & _ & Hl2 & _) & Hc2).
    split.
    + apply Hc2, Hc1, Hcl0.
    + congruence.
  - intros ->.
    destruct (malformed_validate StringToNumber P) as [m Hm].
    { eapply Design.non_positive_length; [exact Hcl|reflexivity]. }
    rewrite (construct_validate StringToNumber now P _ Hm). eauto.
  - intros -> Hty Henc.
    erewrite construct_validate; [reflexivity|].
    unfold Stream.validate. rewrite Hcl.
    assert (get P "contentType" = get (assign Stream.defaults props) "contentType")
      as -> by (subst P; rewrite get_length_props; reflexivity).
    assert (get P "contentEncoding" =
            get (assign Stream.defaults props) "contentEncoding")
      as -> by (subst P; rewrite get_length_props; reflexivity).
    rewrite Hty, Henc. reflexivity.
Qed.

End Factories.

(** ** Streams made from other streams *)

Lemma gt_Infinity (n : number) : gt n Infinity = false.
Proof. destruct n; reflexivity. Qed.

Lemma get_union (o target : gmap string value) (k : string) :
  get (o ∪ target) k = match o !! k with Some v => v | None => get target k end.
Proof. apply (get_assign target o k). Qed.

Lemma assign_defaults_twice (props : option (gmap string value)) :
  assign Stream.defaults (Some (assign Stream.defaults props)) =
  assign Stream.defaults props.
Proof.
  unfold assign. destruct props as [o|].
  - rewrite <- (assoc_L (∪)), (idemp_L (∪)). reflexivity.
  - apply (idemp_L (∪)).
Qed.

Lemma get_defaults (props : option (gmap string value)) (k : string) :
  k ≠ "contentType" -> k ≠ "contentEncoding" ->
  get (assign Stream.defaults props) k = Design.supplied props k.
Proof.
  intros H1 H2. destruct props as [o|].
  - rewrite get_assign. unfold Design.supplied, get.
    destruct (o !! k); [reflexivity|].
    unfold Stream.defaults. rewrite lookup_insert_ne, lookup_singleton_ne by congruence.
    reflexivity.
  - unfold Design.supplied, assign, get, Stream.defaults.
    rewrite lookup_insert_ne, lookup_singleton_ne by congruence. reflexivity.
Qed.

Lemma strict_eq_VStr (v : value) (a : string) :
  strict_eq v (VStr a) = true <-> v = VStr a.
Proof.
  destruct v as [| |b|[| |z|]|s]; simpl; try (split; congruence).
  rewrite bool_decide_eq_true. split; congruence.
Qed.

Lemma strict_eq_VStr_false (a b : string) :
  a <> b -> strict_eq (VStr a) (VStr b) = false.
Proof. intros H. simpl. by apply bool_decide_eq_false. Qed.

(** [compress] and [decompress] of a stream of the store, for an encoding
    that has a transform: the transform is new, and the stream is piped into
    it. *)
Lemma compress_stream (type : value) (z : Heap.zlib) (from : nat) (h : Heap.heap) :
  Design.compressor type = [z] ->
  (from < List.length (Heap.objects h))%nat ->
  Util.compress type (inr from) h =
  (Ok (List.length (Heap.objects h)), Design.piped_into h from z).
Proof.
  unfold Design.compressor, Util.compress, Util.feed, Heap.bind, Heap.alloc,
    Heap.pipe, Heap.ret, Design.piped_into.
  intros Hz Hlt.
  destruct (strict_eq type (VStr "deflate")) eqn:Hd.
  - apply strict_eq_VStr in Hd as ->. simpl in Hz. injection Hz as <-.
    cbn [Heap.objects Heap.pipes Heap.once_error Heap.clock].
    rewrite bool_decide_eq_true_2 by lia. reflexivity.
  - destruct (strict_eq type (VStr "gzip")) eqn:Hg; [|discriminate].
    injection Hz as <-.
    cbn [Heap.objects Heap.pipes Heap.once_error Heap.clock].
    rewrite bool_decide_eq_true_2 by lia. reflexivity.
Qed.

Lemma decompress_stream (type : value) (z : Heap.zlib) (from : nat) (h : Heap.heap) :
  Design.decompressor type = [z] ->
  (from < List.length (Heap.objects h))%nat ->
  Util.decompress type (inr from) h =
  (Ok (List.length (Heap.objects h)), Design.piped_into h from z).
Proof.
  unfold Design.decompressor, Util.decompress, Util.feed, Heap.bind, Heap.alloc,
    Heap.pipe, Heap.ret, Design.piped_into.
  intros Hz Hlt.
  destruct (strict_eq type (VStr "deflate")) eqn:Hd.
  - apply strict_eq_VStr in Hd as ->. simpl in Hz. injection Hz as <-.
    cbn [Heap.objects Heap.pipes Heap.once_error Heap.clock].
    rewrite bool_decide_eq_true_2 by lia. reflexivity.
  - destruct (strict_eq type (VStr "gzip")) eqn:Hg; [|discriminate].
    injection Hz as <-.
    cbn [Heap.objects Heap.pipes Heap.once_error Heap.clock].
    rewrite bool_decide_eq_true_2 by lia. reflexivity.
Qed.

(** The properties of the transcoded stream, read one by one. *)
Lemma get_unbounded (contentEncoding : value) (o : gmap string value) (k : string) :
  get (Design.unbounded contentEncoding ∪ o) k =
  if decide (k = "contentEncoding") then contentEncoding
  else if decide (k = "limit") then VNum Infinity
  else if decide (k = "timeout") then VNum (Finite 0)
  else if decide (k = "interval") then VNum (Finite 0)
  else get o k.
Proof.
  rewrite get_union. unfold Design.unbounded.
  rewrite !lookup_insert, lookup_singleton.
  repeat case_decide; subst; try congruence; try discriminate; reflexivity.
Qed.

Lemma get_toJSON (s : Stream.SmartStream) (o : gmap string value) (k : string) :
  get (Stream.toJSON s ∪ o) k =
  if decide (k = "contentType") then Stream._contentTypeRaw s
  else if decide (k = "contentEncoding") then Stream._contentEncoding s
  else if decide (k = "contentLength") then
    if gt (Stream.plus_contentLength s) (Finite 0)
    then Stream.contentLength s else get o k
  else get o k.
Proof.
  rewrite get_union, toJSON_lookup.
  repeat case_decide; try reflexivity.
  destruct (gt _ _); reflexivity.
Qed.

Section Derived.
Variable StringToNumber : string -> number.

(** The branch of the constructor that makes the pair of no-ops. *)
Lemma initialize_unbounded (now : Z) (props : gmap string value) (type : string) :
  Stream.exec1 (get props "contentType") = Ok type ->
  Stream.num StringToNumber (get props "limit") = Infinity ->
  Stream.num StringToNumber (get props "timeout") = Finite 0 ->
  exists s, Stream.initialize StringToNumber now props = Ok s.
Proof.
  intros Hty Hlim Hto. unfold Stream.initialize. rewrite Hty. cbv zeta.
  match goal with |- context [Stream.with_immediate ?r true] => set (this := r) end.
  assert (gt (Stream.plus_contentLength this) (Stream._limit this) = false) as ->.
  { subst this. cbn [Stream._limit]. rewrite Hlim. apply gt_Infinity. }
  assert (strict_eq (VNum (Stream._timeout this)) (VNum (Finite 0)) = true) as ->.
  { subst this. cbn [Stream._timeout]. rewrite Hto. reflexivity. }
  eauto.
Qed.

(** What [fromStream] does to the store. *)
Lemma fromStream_unfold (stream : nat) (props : option (gmap string value))
    (h : Heap.heap) :
  Pipeline.fromStream StringToNumber stream props h =
  let props := assign Stream.defaults props in
  let props :=
    match Heap.objects h !! stream with
    | Some (Heap.ObjSmartStream _) =>
        <["interval" := VNum (Finite 0)]>
          (<["timeout" := VNum (Finite 0)]> (<["limit" := VNum Infinity]> props))
    | _ => props
    end in
  match Stream.create StringToNumber (Heap.clock h) (Some props) with
  | Ok s =>
      let r := List.length (Heap.objects h) in
      (Ok r,
       {| Heap.objects := Heap.objects h ++ [Heap.ObjSmartStream s];
          Heap.pipes := Heap.pipes h ++ [(stream, r)];
          Heap.once_error := (Heap.once_error h ++ [(stream, r)]) ++ [(r, stream)];
          Heap.clock := Heap.clock h |})
  | Throw e => (Throw e, h)
  end.
Proof.
  unfold Pipeline.fromStream, Pipeline.create, Heap.instanceof_SmartStream,
    Heap.bind, Heap.lookup, Heap.ret, Heap.now, Heap.lift, Heap.alloc,
    Heap.once, Heap.pipe.
  cbv zeta.
  destruct (Heap.objects h !! stream) as [[src| |]|];
    cbn [Heap.clock Heap.objects Heap.pipes Heap.once_error];
    match goal with |- context [Stream.create ?a ?b ?c] =>
      destruct (Stream.create a b c) end; reflexivity.
Qed.

(** C3. [fromStream] returns a new instance.  When the source is itself a
    [SmartStream], the new instance has the limit [Infinity], the timeout 0
    and the interval 0, whatever [props] holds for them, and its timer is
    the pair of no-ops.  When the source is any other stream, the new
    instance is the one [create] makes from [props]: a limit, a timeout or
    an interval supplied as a number is kept, and one that is not supplied
    gets its default (the default limit of the content type, 30000 ms,
    1000 ms). *)
Theorem fromStream_bounds (stream : nat) (props : option (gmap string value))
    (h h' : Heap.heap) (r : nat) :
  Pipeline.fromStream StringToNumber stream props h = (Ok r, h') ->
  exists s,
    r = List.length (Heap.objects h) /\
    Heap.objects h' = Heap.objects h ++ [Heap.ObjSmartStream s] /\
    ((exists source, Heap.objects h !! stream = Some (Heap.ObjSmartStream source)) ->
     Stream._limit s = Infinity /\
     Stream._timeout s = Finite 0 /\
     Stream._interval s = Finite 0 /\
     Stream._timer s = Some Stream.NOOP) /\
    ((forall source, Heap.objects h !! stream <> Some (Heap.ObjSmartStream source)) ->
     Stream.create StringToNumber (Heap.clock h) props = Ok s /\
     (forall n, Design.supplied props "limit" = VNum n -> Stream._limit s = n) /\
     (is_nullish (Design.supplied props "limit") = true ->
      Stream._limit s = Design.default_limit (Stream._contentType s)) /\
     (forall t, Design.supplied props "timeout" = VNum t -> ge t (Finite 0) = true ->
                Stream._timeout s = t) /\
     (Design.supplied props "timeout" = VUndefined ->
      Stream._timeout s = Finite 30000) /\
     (forall i, Design.supplied props "interval" = VNum i -> ge i (Finite 0) = true ->
                Stream._interval s = i) /\
     (Design.supplied props "interval" = VUndefined ->
      Stream._interval s = Finite 1000)).
Proof.
  rewrite fromStream_unfold. cbv zeta.
  match goal with |- context [Stream.create _ _ (Some ?P0)] => set (P := P0) end.
  destruct (Stream.create StringToNumber (Heap.clock h) (Some P)) as [s|e] eqn:Hc;
    [|discriminate].
  intros [= <- <-]. exists s.
  split; [reflexivity|]. split; [reflexivity|].
  unfold Stream.create in Hc.
  pose proof Hc as (p & [= <-] & Hv & Hi)%construct_Ok.
  apply validate_None in Hv as (_ & _ & _ & Hlim & _).
  apply initialize_Ok in Hi
    as (_ & _ & _ & _ & _ & _ & Hl & Ht & Hi' & Him & Htm).
  split.
  - intros [source Hsrc]. subst P. rewrite Hsrc in Hl, Ht, Hi'.
    rewrite <- !insert_union_l, !get_insert in Hl, Ht, Hi'.
    repeat (case_decide; try discriminate; try congruence).
    unfold Stream.num, ToNumber in Hl, Ht, Hi'.
    change (ge (Finite 0) (Finite 0)) with true in Ht, Hi'.
    change (or_else Infinity ?d) with Infinity in Hl.
    rewrite Hl, gt_Infinity in Him. rewrite Him, Ht in Htm.
    auto.
  - intros Hsrc.
    assert (P = assign Stream.defaults props) as ->.
    { subst P. destruct (Heap.objects h !! stream) as [[src| |]|]; try reflexivity.
      exfalso. eapply Hsrc. reflexivity. }
    change (assign Stream.defaults props ∪ Stream.defaults)
      with (assign Stream.defaults (Some (assign Stream.defaults props))) in *.
    rewrite assign_defaults_twice in *.
    rewrite !get_defaults in * by discriminate.
    split; [exact Hc|].
    split_and!.
    + intros n Hn. rewrite Hn in Hlim, Hl. unfold Stream.num, ToNumber in Hlim, Hl.
      apply orb_false_iff in Hlim as [Hnan Hle].
      unfold or_else in Hl. rewrite (positive_truthy n Hnan Hle) in Hl. exact Hl.
    + intros Hn. rewrite Hl.
      destruct (Design.supplied props "limit"); try discriminate; reflexivity.
    + intros t Hn Hge. rewrite Hn in Ht. unfold Stream.num, ToNumber in Ht.
      rewrite Hge in Ht. exact Ht.
    + intros Hn. rewrite Hn in Ht. exact Ht.
    + intros i Hn Hge. rewrite Hn in Hi'. unfold Stream.num, ToNumber in Hi'.
      rewrite Hge in Hi'. exact Hi'.
    + intros Hn. rewrite Hn in Hi'. exact Hi'.
Qed.

(** The header of an instance, with the bounds taken off, is accepted by the
    constructor: the stream it makes has the target encoding, no limit and
    the pair of no-ops for a timer. *)
Lemma create_transcoded (now : Z) (s : Stream.SmartStream) (x : string) :
  Design.well_formed s ->
  Stream.CONTENT_ENCODINGS x = true ->
  exists s',
    Stream.create StringToNumber now
      (Some (assign (Stream.toJSON s) (Some (Design.unbounded (VStr x))))) = Ok s' /\
    Stream._contentEncoding s' = VStr x /\
    Stream._contentTypeRaw s' = Stream._contentTypeRaw s /\
    Stream._contentType s' = Stream._contentType s /\
    Stream._limit s' = Infinity /\
    Stream._timeout s' = Finite 0 /\
    Stream._interval s' = Finite 0 /\
    Stream._timer s' = Some Stream.NOOP /\
    Stream.super s' = Stream.fresh /\
    Stream._size s' = 0.
Proof.
  intros (Hex & Henc) Hx.
  unfold Stream.create, assign.
  set (P := (Design.unbounded (VStr x) ∪ Stream.toJSON s) ∪ Stream.defaults).
  assert (get P "contentType" = Stream._contentTypeRaw s) as Hct.
  { subst P. rewrite <- (assoc_L (∪)), get_unbounded, get_toJSON. reflexivity. }
  assert (get P "contentEncoding" = VStr x) as Hce.
  { subst P. rewrite <- (assoc_L (∪)), get_unbounded. reflexivity. }
  assert (le (Stream.num StringToNumber (get P "contentLength")) (Finite 0) = false)
    as Hcl.
  { subst P. rewrite <- (assoc_L (∪)), get_unbounded, get_toJSON.
    repeat (case_decide; [discriminate|]). case_decide; [|congruence].
    destruct (gt (Stream.plus_contentLength s) (Finite 0)) eqn:Hgt.
    - unfold Stream.contentLength, Stream.plus_contentLength in *.
      destruct (Stream._contentLength s) as [n|]; [|discriminate].
      apply gt_not_le, Hgt.
    - reflexivity. }
  assert (get P "limit" = VNum Infinity) as Hl.
  { subst P. rewrite <- (assoc_L (∪)), get_unbounded. reflexivity. }
  assert (get P "timeout" = VNum (Finite 0)) as Ht.
  { subst P. rewrite <- (assoc_L (∪)), get_unbounded. reflexivity. }
  assert (get P "interval" = VNum (Finite 0)) as Hi.
  { subst P. rewrite <- (assoc_L (∪)), get_unbounded. reflexivity. }
  assert (Stream.validate StringToNumber (Some P) = None) as Hv.
  { unfold Stream.validate. rewrite Hct, Hce, Hcl, Hl, Ht, Hi.
    rewrite (exec1_test _ _ Hex). simpl. rewrite Hx. reflexivity. }
  destruct (initialize_unbounded now P (Stream._contentType s)) as [s' Hs'].
  { rewrite Hct. exact Hex. }
  { rewrite Hl. reflexivity. }
  { rewrite Ht. reflexivity. }
  exists s'. unfold Stream.construct. rewrite Hv. split; [exact Hs'|].
  apply initialize_Ok in Hs'
    as (Hsup & Hraw & Hty & Hen & _ & Hsz & Hlim & Hto & Hiv & Him & Htm).
  rewrite Hl in Hlim. rewrite Ht in Hto. rewrite Hi in Hiv.
  unfold Stream.num, ToNumber in Hlim, Hto, Hiv.
  change (or_else Infinity ?d) with Infinity in Hlim.
  change (ge (Finite 0) (Finite 0)) with true in Hto, Hiv.
  rewrite Hlim, gt_Infinity in Him. rewrite Him, Hto in Htm.
  rewrite Hct, Hex in Hty. injection Hty as Hty.
  split_and!; congruence.
Qed.

Lemma create_defaults (now : Z) (props : option (gmap string value)) :
  Stream.create StringToNumber now (Some (assign Stream.defaults props)) =
  Stream.create StringToNumber now props.
Proof. unfold Stream.create. rewrite assign_defaults_twice. reflexivity. Qed.

(** [fromStream] on a transform just piped, with the header of [s] and the
    bounds taken off. *)
Lemma fromStream_transcoded (s : Stream.SmartStream) (x : string)
    (h : Heap.heap) (from : nat) (z : Heap.zlib) :
  Design.well_formed s ->
  Stream.CONTENT_ENCODINGS x = true ->
  exists s',
    Pipeline.fromStream StringToNumber (List.length (Heap.objects h))
      (Some (assign (Stream.toJSON s) (Some (Design.unbounded (VStr x)))))
      (Design.piped_into h from z) =
    (Ok (S (List.length (Heap.objects h))),
     {| Heap.objects :=
          (Heap.objects h ++ [Heap.ObjCodec z None]) ++ [Heap.ObjSmartStream s'];
        Heap.pipes :=
          (Heap.pipes h ++ [(from, List.length (Heap.objects h))]) ++
          [(List.length (Heap.objects h), S (List.length (Heap.objects h)))];
        Heap.once_error :=
          (Heap.once_error h ++
           [(List.length (Heap.objects h), S (List.length (Heap.objects h)))]) ++
          [(S (List.length (Heap.objects h)), List.length (Heap.objects h))];
        Heap.clock := Heap.clock h |}) /\
    Stream._contentEncoding s' = VStr x /\
    Stream._contentTypeRaw s' = Stream._contentTypeRaw s /\
    Stream._contentType s' = Stream._contentType s /\
    Stream._limit s' = Infinity /\
    Stream._timeout s' = Finite 0 /\
    Stream._interval s' = Finite 0 /\
    Stream._timer s' = Some Stream.NOOP /\
    Stream.super s' = Stream.fresh /\
    Stream._size s' = 0.
Proof.
  intros Hwf Hx.
  destruct (create_transcoded (Heap.clock h) s x Hwf Hx) as (s' & Hc & Hrest).
  exists s'. split; [|exact Hrest].
  rewrite fromStream_unfold. cbv zeta.
  unfold Design.piped_into.
  cbn [Heap.objects Heap.pipes Heap.once_error Heap.clock].
  rewrite list_lookup_middle by reflexivity.
  rewrite create_defaults, Hc.
  rewrite length_app. simpl. rewrite Nat.add_1_r. reflexivity.
Qed.

(** C4. [toContentEncoding(x)] on a stream whose encoding is [x] returns the
    stream itself and leaves the store as it is: no instance and no timer is
    made.  For any other encoding [x] it returns a new instance, fed by the
    stream through the transforms of the transcoder (the decompressor of the
    current encoding unless that is identity, then the compressor of [x]
    unless that is identity); the new instance has the encoding [x] and the
    content type of the stream, its limit is [Infinity], its timeout and
    interval are 0, and its timer is the pair of no-ops. *)
Theorem toContentEncoding_same_or_new (this : nat) (x : string)
    (s : Stream.SmartStream) (h : Heap.heap) :
  Heap.objects h !! this = Some (Heap.ObjSmartStream s) ->
  Design.well_formed s ->
  Stream.CONTENT_ENCODINGS x = true ->
  (Stream._contentEncoding s = VStr x ->
   Pipeline.toContentEncoding StringToNumber this (VStr x) h = (Ok this, h)) /\
  (Stream._contentEncoding s <> VStr x ->
   let stages := Design.transcoder (Stream._contentEncoding s) (VStr x) in
   let n := List.length (Heap.objects h) in
   let r := (n + List.length stages)%nat in
   exists s' h',
     Pipeline.toContentEncoding StringToNumber this (VStr x) h = (Ok r, h') /\
     r <> this /\
     stages <> [] /\
     Heap.objects h' =
       Heap.objects h ++ ((fun z => Heap.ObjCodec z None) <$> stages) ++
       [Heap.ObjSmartStream s'] /\
     Heap.pipes h' =
       Heap.pipes h ++ Design.chain this (seq n (List.length stages)) r /\
     Heap.clock h' = Heap.clock h /\
     Stream._contentEncoding s' = VStr x /\
     Stream._contentTypeRaw s' = Stream._contentTypeRaw s /\
     Stream._contentType s' = Stream._contentType s /\
     Stream._limit s' = Infinity /\
     Stream._timeout s' = Finite 0 /\
     Stream._interval s' = Finite 0 /\
     Stream._timer s' = Some Stream.NOOP /\
     Stream.state_of s' = Stream.Open /\
     Stream._size s' = 0).
Proof.
  intros Hobj Hwf Hx.
  pose proof (lookup_lt_Some _ _ _ Hobj) as Hlt.
  split.
  - intros He. unfold Pipeline.toContentEncoding, Heap.bind, Heap.lookup.
    rewrite Hobj, He. simpl. rewrite bool_decide_eq_true_2 by reflexivity.
    reflexivity.
  - intros Hne stages n r.
    pose proof Hwf as (_ & Henc).
    destruct (Stream._contentEncoding s) as [| | | |e] eqn:He; try discriminate.
    simpl in Henc. apply bool_decide_eq_true in Henc.
    apply bool_decide_eq_true in Hx.
    assert (e <> x) as Hex by congruence.
    unfold Pipeline.toContentEncoding, Heap.bind at 1, Heap.lookup.
    rewrite Hobj, He. rewrite (strict_eq_VStr_false e x Hex).
    subst stages r n.
    repeat (apply elem_of_cons in Henc as [->|Henc]);
      [| | |by apply elem_of_nil in Henc];
      (repeat (apply elem_of_cons in Hx as [->|Hx]);
        [| | |by apply elem_of_nil in Hx]);
      try congruence;
      unfold Heap.bind;
      change (strict_eq (VStr ?a) (VStr ?b)) with (bool_decide (a = b));
      cbn [bool_decide decide_rel];
      repeat match goal with
        | |- context [bool_decide (?a = ?b)] =>
            first [ rewrite (bool_decide_eq_true_2 (a = b)) by reflexivity
                  | rewrite (bool_decide_eq_false_2 (a = b)) by discriminate ]
        end.
    all: repeat first
      [ erewrite compress_stream by (first [reflexivity | simpl; rewrite ?length_app; simpl; lia])
      | erewrite decompress_stream by (first [reflexivity | simpl; rewrite ?length_app; simpl; lia]) ].
    all: match type of Hex with _ <> ?x0 =>
      match goal with
      | |- context [Pipeline.fromStream _ _ _ (Design.piped_into ?h0 ?f ?z)] =>
          destruct (fromStream_transcoded s x0 h0 f z Hwf eq_refl)
            as (s' & Hrun & Hrest)
      end end.
    all: destruct Hrest as (H1 & H2 & H3 & H4 & H5 & H6 & H7 & H8 & H9).
    all: eexists s', _; split;
      [etransitivity; [exact Hrun|]; apply f_equal2; [f_equal|reflexivity];
       cbn [Design.piped_into Heap.objects]; rewrite ?length_app; simpl; lia|].
    all: cbn [Heap.objects Heap.pipes Heap.clock Design.piped_into].
    all: unfold Design.transcoder, Design.decompressor, Design.compressor;
      simpl; rewrite ?length_app; simpl;
      rewrite <- ?app_assoc; rewrite ?Nat.add_1_r;
      split_and!; try assumption; try reflexivity; try lia; try discriminate;
      try (unfold Stream.state_of; rewrite H8; reflexivity).
    all: repeat (f_equal; try lia).
Qed.

End Derived.

(** ** The serializer *)

Lemma toString_Buffer_from (text : string) :
  Util.toString (Util.Buffer_from text) = text.
Proof. apply string_of_list_byte_of_string. Qed.

Section SerializerProperties.
Variable JSON_stringify : data -> result (option string).
Variable JSON_parse : string -> result data.
Variable msgpack_encode : data -> result Stream.chunk.
Variable msgpack_decode : Stream.chunk -> result data.
Variable qs_stringify : data -> string.
Variable qs_parse : string -> data.

(** C6, as the code has it.  For each of the three supported content types
    and every value that the codec of the type itself gives back,
    deserializing what serializing produced yields the value, except for the
    string "null" under application/json (for which the result is
    [null]). *)
Theorem serialize_round_trip (type : string) (d : data) :
  type ∈ Design.SUPPORTED_TYPES ->
  Design.codec_round_trips JSON_stringify JSON_parse msgpack_encode
    msgpack_decode qs_stringify qs_parse type d ->
  ~ (type = "application/json" /\ d = Prim (VStr "null")) ->
  Design.round_trip JSON_stringify JSON_parse msgpack_encode msgpack_decode
    qs_stringify qs_parse (VStr type) d = Ok d.
Proof.
  intros Hty (Hjson & Hmsgpack & Hqs) Hnot.
  unfold Design.SUPPORTED_TYPES in Hty.
  unfold Design.round_trip, Util.serialize, Util.deserialize.
  repeat (apply elem_of_cons in Hty as [->|Hty]); [| | |by apply elem_of_nil in Hty].
  - destruct (Hjson eq_refl) as (text & -> & Hparse).
    change (strict_eq (VStr "application/json") (VStr "application/json")) with true.
    cbv iota. rewrite toString_Buffer_from, Hparse.
    destruct d as [v| |]; try reflexivity.
    destruct (strict_eq v (VStr "null")) eqn:Hv; [|reflexivity].
    apply strict_eq_VStr in Hv as ->. exfalso. apply Hnot. auto.
  - destruct (Hmsgpack eq_refl) as (buf & -> & Hdecode).
    change (strict_eq (VStr "application/msgpack") (VStr "application/json"))
      with false.
    change (strict_eq (VStr "application/msgpack") (VStr "application/msgpack"))
      with true.
    cbv iota. exact Hdecode.
  - change (strict_eq (VStr "application/x-www-form-urlencoded")
              (VStr "application/json")) with false.
    change (strict_eq (VStr "application/x-www-form-urlencoded")
              (VStr "application/msgpack")) with false.
    change (strict_eq (VStr "application/x-www-form-urlencoded")
              (VStr "application/x-www-form-urlencoded")) with true.
    cbv iota. rewrite toString_Buffer_from, (Hqs eq_refl). reflexivity.
Qed.

(** C10. Under application/json, [deserialize] turns a parsed result that is
    the string "null" into [null].  So when the JSON codec gives the string
    "null" back, as it does, serializing that string and deserializing the
    result yields [null] and not the string. *)
Theorem deserialize_null_string :
  (forall buf,
     JSON_parse (Util.toString buf) = Ok (Prim (VStr "null")) ->
     Util.deserialize JSON_parse msgpack_decode qs_parse
       (VStr "application/json") buf = Ok (Prim VNull)) /\
  (forall text,
     JSON_stringify (Prim (VStr "null")) = Ok (Some text) ->
     JSON_parse text = Ok (Prim (VStr "null")) ->
     Design.round_trip JSON_stringify JSON_parse msgpack_encode msgpack_decode
       qs_stringify qs_parse (VStr "application/json") (Prim (VStr "null")) =
     Ok (Prim VNull) /\
     Ok (Prim VNull) <> Ok (Prim (VStr "null"))).
Proof.
  split.
  - intros buf Hparse. unfold Util.deserialize.
    change (strict_eq (VStr "application/json") (VStr "application/json")) with true.
    cbv iota. rewrite Hparse. reflexivity.
  - intros text Hs Hp. split; [|discriminate].
    unfold Design.round_trip, Util.serialize, Util.deserialize.
    change (strict_eq (VStr "application/json") (VStr "application/json")) with true.
    cbv iota. rewrite Hs, toString_Buffer_from, Hp. reflexivity.
Qed.

End SerializerProperties.

(** ** The theorems at concrete inputs *)

(** The example of the design: with a limit of 10, chunks of 4, 4 and 4
    bytes (and one more) end in one [TooLarge] fault at the third chunk. *)
Lemma too_large_at_first_excess_witness :
  exists s,
    Stream.construct Codecs.StringToNumber 0 (Some Examples.ten) = Ok s /\
    Stream.immediate s = false /\
    le (Finite (Design.total [Examples.four; Examples.four])) (Stream._limit s) = true /\
    gt (Finite (Design.total ([Examples.four; Examples.four] ++ [Examples.four])))
       (Stream._limit s) = true /\
    let s' := Stream.consume s (replicate 4 Examples.four) in
    Stream.state_of s' = Stream.Errored /\
    Stream._size s' = 12 /\
    Stream.emitted (Stream.super s') =
      [Stream.EvData Examples.four; Stream.EvData Examples.four;
       Stream.EvError (SmartStreamError.TooLarge (Stream.toJSON s));
       Stream.EvClose].
Proof.
  eexists. split; [vm_compute; reflexivity|].
  do 3 (split; [reflexivity|]).
  match goal with |- let s' := Stream.consume ?s _ in _ =>
    destruct (too_large_at_first_excess Codecs.StringToNumber 0
                (Some Examples.ten) s
                [Examples.four; Examples.four] [Examples.four] Examples.four)
      as (_ & Hst & _ & _ & Hsz & Hem & _)
  end.
  - vm_compute. reflexivity.
  - reflexivity.
  - reflexivity.
  - reflexivity.
  - cbv zeta. split; [exact Hst|]. split; [exact Hsz|exact Hem].
Defined.

(** Two runs in which the running total first exceeds the limit, 10, at
    the third chunk.  In the first the fault carries the content type and
    the encoding and nothing else, so not the observed size, 12.  In the
    second the stream was made with a declared length of 100: it has no
    timer, its first chunk ends in the [TypeError] of [touch] on
    [undefined], and consuming the chunks raises no fault at all. *)
Lemma too_large_fault_lacks_observed_size :
  (exists s fault,
     Stream.construct Codecs.StringToNumber 0 (Some Examples.ten) = Ok s /\
     let s' := Stream.consume s (replicate 3 Examples.four) in
     Stream.errored (Stream.super s') = Some fault /\
     isTooLarge fault = true /\
     Stream._size s' = 12 /\
     Design.metadata_of fault = Examples.json /\
     ~ Design.carries fault (VNum (Finite 12))) /\
  (exists s,
     Stream.construct Codecs.StringToNumber 0 (Some Examples.oversized) = Ok s /\
     Stream._limit s = Finite 10 /\
     let s' := Stream.consume s (replicate 3 Examples.four) in
     Stream.emitted (Stream.super s') =
       [Stream.EvThrown (TypeError (cannot_read_property "touch"))] /\
     Stream.errored (Stream.super s') = None /\
     Stream._size s' = 4).
Proof.
  split.
  - eexists _, _. split; [vm_compute; reflexivity|].
    cbv zeta. split; [vm_compute; reflexivity|].
    split; [reflexivity|]. split; [reflexivity|].
    split; [vm_compute; reflexivity|].
    intros [k Hk].
    match type of Hk with ?a !! _ = _ =>
      assert (a = Examples.json) as Heq by (vm_compute; reflexivity) end.
    rewrite Heq in Hk. unfold Examples.json in Hk.
    rewrite lookup_insert in Hk. case_decide; [discriminate|].
    rewrite lookup_singleton in Hk. case_decide; discriminate.
  - eexists. split; [vm_compute; reflexivity|].
    split; [reflexivity|]. cbv zeta. split_and!; vm_compute; reflexivity.
Qed.

(** With a limit of 10, chunks of 4 and 4 bytes and the end of the input
    flush the stream at size 8, and 8 becomes its content length. *)
Lemma flushed_within_limit_witness :
  exists s,
    Stream.construct Codecs.StringToNumber 0 (Some Examples.ten) = Ok s /\
    Stream.immediate s = false /\
    le (Finite (Design.total [Examples.four; Examples.four])) (Stream._limit s) = true /\
    let s' := Stream.end_ (Stream.consume s [Examples.four; Examples.four]) in
    Stream.state_of s' = Stream.Flushed /\
    Stream._size s' = 8 /\
    Stream._contentLength s' = Some (Finite 8).
Proof.
  eexists. split; [vm_compute; reflexivity|].
  do 2 (split; [reflexivity|]).
  match goal with |- let s' := Stream.end_ (Stream.consume ?s _) in _ =>
    destruct (flushed_within_limit Codecs.StringToNumber 0
                (Some Examples.ten) s [Examples.four; Examples.four])
      as (Hst & Hsz & Hcl & _)
  end.
  - vm_compute. reflexivity.
  - reflexivity.
  - reflexivity.
  - cbv zeta. split; [exact Hst|]. split; [exact Hsz|exact Hcl].
Defined.

(** From a [SmartStream] (object 0 of the store) the new instance is
    unbounded although [props] asks for a limit of 5 and a timeout of 7000;
    from a plain readable (object 1) the same [props] are kept, and the
    interval gets its default. *)
Lemma fromStream_bounds_witness :
  let h := Examples.store (Stream.create Codecs.StringToNumber 0 None) in
  let props : gmap string value :=
    {[ "limit" := VNum (Finite 5); "timeout" := VNum (Finite 7000) ]} in
  (exists r h' s,
     Pipeline.fromStream Codecs.StringToNumber 0 (Some props) h = (Ok r, h') /\
     Examples.instance_at h' r = Some s /\
     Stream._limit s = Infinity /\ Stream._timeout s = Finite 0 /\
     Stream._interval s = Finite 0 /\ Stream._timer s = Some Stream.NOOP) /\
  (exists r h' s,
     Pipeline.fromStream Codecs.StringToNumber 1 (Some props) h = (Ok r, h') /\
     Examples.instance_at h' r = Some s /\
     Stream._limit s = Finite 5 /\ Stream._timeout s = Finite 7000 /\
     Stream._interval s = Finite 1000).
Proof.
  intros h props. split.
  - destruct (Pipeline.fromStream Codecs.StringToNumber 0 (Some props) h)
      as [[r|e] h'] eqn:Hrun; [|vm_compute in Hrun; discriminate].
    destruct (fromStream_bounds Codecs.StringToNumber 0 (Some props) h h' r Hrun)
      as (s & Hr & Hobj & Hsmart & _).
    exists r, h', s. split; [reflexivity|]. split.
    + unfold Examples.instance_at. rewrite Hobj, Hr.
      rewrite list_lookup_middle by reflexivity. reflexivity.
    + apply Hsmart. eexists. vm_compute. reflexivity.
  - destruct (Pipeline.fromStream Codecs.StringToNumber 1 (Some props) h)
      as [[r|e] h'] eqn:Hrun; [|vm_compute in Hrun; discriminate].
    destruct (fromStream_bounds Codecs.StringToNumber 1 (Some props) h h' r Hrun)
      as (s & Hr & Hobj & _ & Hplain).
    exists r, h', s. split; [reflexivity|]. split.
    + unfold Examples.instance_at. rewrite Hobj, Hr.
      rewrite list_lookup_middle by reflexivity. reflexivity.
    + destruct Hplain as (_ & Hl & _ & Ht & _ & _ & Hi).
      { intros source. vm_compute. discriminate. }
      split; [apply Hl; reflexivity|].
      split; [apply Ht; reflexivity|].
      apply Hi. reflexivity.
Defined.

(** On an identity-encoded stream (object 0 of a store of two objects),
    transcoding to identity changes nothing, and transcoding to gzip makes a
    gzip transform (object 2) and a new unbounded instance (object 3). *)
Lemma toContentEncoding_same_or_new_witness :
  exists s,
    let h := Examples.store (Ok s) in
    Stream.create Codecs.StringToNumber 0 None = Ok s /\
    Design.well_formed s /\
    Pipeline.toContentEncoding Codecs.StringToNumber 0 (VStr "identity") h =
      (Ok 0%nat, h) /\
    exists s' h',
      Pipeline.toContentEncoding Codecs.StringToNumber 0 (VStr "gzip") h =
        (Ok 3%nat, h') /\
      Heap.objects h' =
        Heap.objects h ++ [Heap.ObjCodec Heap.Gzip None; Heap.ObjSmartStream s'] /\
      Heap.pipes h' = [(0, 2); (2, 3)]%nat /\
      Stream._contentEncoding s' = VStr "gzip" /\
      Stream._limit s' = Infinity /\
      Stream._timeout s' = Finite 0.
Proof.
  eexists. cbv zeta. split; [vm_compute; reflexivity|].
  match goal with |- Design.well_formed ?s0 /\ _ =>
    assert (Design.well_formed s0) as Hwf by (split; vm_compute; reflexivity);
    pose proof (toContentEncoding_same_or_new Codecs.StringToNumber 0 "identity"
                  s0 (Examples.store (Ok s0)) eq_refl Hwf eq_refl) as [Hsame _];
    pose proof (toContentEncoding_same_or_new Codecs.StringToNumber 0 "gzip"
                  s0 (Examples.store (Ok s0)) eq_refl Hwf eq_refl) as [_ Hnew]
  end.
  split; [exact Hwf|]. split; [apply Hsame; reflexivity|].
  destruct Hnew as (s' & h' & Hrun & _ & _ & Hobj & Hpipes & _ & Henc & _ & _ & Hlim & Hto & _).
  { discriminate. }
  exists s', h'. split; [exact Hrun|]. split; [exact Hobj|].
  split; [exact Hpipes|]. split; [exact Henc|]. split; [exact Hlim|exact Hto].
Defined.

(** A declared length of 100 under a limit of 10: the constructor returns,
    and the immediate then fails the stream. *)
Lemma declared_length_above_limit_witness :
  Stream.validate Codecs.StringToNumber (Some Examples.oversized) = None /\
  Design.declared_above_limit Examples.oversized /\
  exists s,
    Stream.construct Codecs.StringToNumber 0 (Some Examples.oversized) = Ok s /\
    Stream.state_of s = Stream.Open /\
    Stream.state_of (Stream.run_immediate s) = Stream.Errored /\
    Stream.emitted (Stream.super (Stream.run_immediate s)) =
      [Stream.EvError (SmartStreamError.TooLarge (Stream.toJSON s));
       Stream.EvClose].
Proof.
  assert (Stream.validate Codecs.StringToNumber (Some Examples.oversized) = None)
    as Hv by (vm_compute; reflexivity).
  assert (Design.declared_above_limit Examples.oversized) as Habove.
  { apply (Design.above_supplied _ (Finite 100) (Finite 10)); reflexivity. }
  split; [exact Hv|]. split; [exact Habove|].
  destruct (declared_length_above_limit Codecs.StringToNumber 0
              Examples.oversized Hv Habove)
    as (s & Hc & Hst & _ & _ & Hrun & Hem & _).
  exists s. split; [exact Hc|]. split; [exact Hst|].
  split; [|exact Hem].
  apply (Hrun []).
Defined.

(** The malformed configurations of the tests, and a few more. *)
Lemma construct_rejects_malformed_witness :
  (exists m,
     Stream.construct Codecs.StringToNumber 0
       (Some (<["contentType" := VStr "font/woff"]> Examples.json)) =
     Throw (TypeError m)) /\
  (exists m,
     Stream.construct Codecs.StringToNumber 0
       (Some (<["contentEncoding" := VStr "br"]> Examples.json)) =
     Throw (TypeError m)) /\
  (exists m,
     Stream.construct Codecs.StringToNumber 0
       (Some (<["contentLength" := VNum (Finite (-1))]> Examples.json)) =
     Throw (TypeError m)) /\
  (exists m,
     Stream.construct Codecs.StringToNumber 0
       (Some (<["limit" := VNum NaN]> Examples.json)) =
     Throw (TypeError m)) /\
  (exists m,
     Stream.construct Codecs.StringToNumber 0
       (Some (<["timeout" := VNum (Finite 1000)]>
                (<["interval" := VNum (Finite 1001)]> Examples.json))) =
     Throw (TypeError m)).
Proof.
  split_and!; apply construct_rejects_malformed.
  - apply Design.invalid_content_type. intros text group Hget Hm.
    vm_compute in Hget. injection Hget as <-.
    apply match_exec in Hm. discriminate Hm.
  - apply Design.invalid_encoding. vm_compute.
    intros H. repeat (apply elem_of_cons in H as [H|H]; [discriminate|]).
    by apply elem_of_nil in H.
  - apply (Design.non_positive_length _ (Finite (-1))); reflexivity.
  - apply (Design.non_positive_or_NaN_limit _ NaN); [reflexivity|].
    left. reflexivity.
  - apply (Design.interval_above_timeout _ (Finite 1000) (Finite 1001));
      reflexivity.
Defined.

(** With a timeout of 0 the timer is the pair of no-ops, and a second
    without data leaves the stream where it was. *)
Lemma no_timeout_when_disabled_witness :
  exists s,
    Stream.construct Codecs.StringToNumber 0 (Some Examples.ten) = Ok s /\
    Stream._timeout s = Finite 0 /\
    Stream._timer s = Some Stream.NOOP /\
    Stream.run {| Stream.clock := 0; Stream.stream := s |}
      (replicate 1000 Stream.ActElapse) =
    {| Stream.clock := 1000; Stream.stream := s |}.
Proof.
  eexists. split; [vm_compute; reflexivity|]. split; [reflexivity|].
  match goal with |- Stream._timer ?s = _ /\ _ =>
    destruct (no_timeout_when_disabled Codecs.StringToNumber 0
                (Some Examples.ten) s)
      as (_ & Htm & _ & _ & Hidle & _)
  end.
  - vm_compute. reflexivity.
  - reflexivity.
  - split; [apply Htm; reflexivity|]. apply (Hidle 1000%nat).
Defined.

(** From a buffer of four bytes the stream has the content length 4 and
    the limit 4; from the empty buffer there is no stream but the
    [TypeError] of an invalid content length. *)
Lemma fromBuffer_length_is_limit_witness :
  (exists s,
     Stream.fromBuffer Codecs.StringToNumber 0 Examples.four None = Ok s /\
     Stream._contentLength s = Some (Finite 4) /\
     Stream._limit s = Finite 4) /\
  Stream.fromBuffer Codecs.StringToNumber 0 [] None =
    Throw (TypeError (invalid_content_length (VNum (Finite 0)))).
Proof.
  split.
  - destruct (Stream.fromBuffer Codecs.StringToNumber 0 Examples.four None)
      as [s|e] eqn:Hrun; [|vm_compute in Hrun; discriminate].
    exists s. split; [reflexivity|].
    destruct (fromBuffer_length_is_limit Codecs.StringToNumber 0 Examples.four None)
      as (Hok & _).
    exact (Hok s Hrun).
  - destruct (fromBuffer_length_is_limit Codecs.StringToNumber 0 [] None)
      as (_ & _ & Hempty).
    apply Hempty; reflexivity.
Defined.

(** The object of the tests, under each of the three content types. *)
Lemma serialize_round_trip_witness :
  Forall
    (fun type =>
       Design.round_trip Codecs.JSON_stringify Codecs.JSON_parse
         Codecs.msgpack_encode Codecs.msgpack_decode Codecs.qs_stringify
         Codecs.qs_parse (VStr type) Examples.obj = Ok Examples.obj)
    Design.SUPPORTED_TYPES.
Proof.
  apply Forall_forall. intros type Hty.
  apply serialize_round_trip; [exact Hty| |].
  - unfold Design.SUPPORTED_TYPES in Hty.
    repeat (apply elem_of_cons in Hty as [->|Hty]);
      [| | |by apply elem_of_nil in Hty];
      (split_and!; intros Heq; try discriminate Heq).
    + eexists. split; [vm_compute; reflexivity|]. vm_compute. reflexivity.
    + eexists. split; [vm_compute; reflexivity|]. vm_compute. reflexivity.
    + vm_compute. reflexivity.
  - intros [_ Heq]. discriminate Heq.
Defined.

(** Not every value comes back: under application/json the string "null"
    comes back as [null]. *)
Lemma round_trip_loses_null_string :
  Design.round_trip Codecs.JSON_stringify Codecs.JSON_parse
    Codecs.msgpack_encode Codecs.msgpack_decode Codecs.qs_stringify
    Codecs.qs_parse (VStr "application/json") (Prim (VStr "null")) =
  Ok (Prim VNull) /\
  Design.round_trip Codecs.JSON_stringify Codecs.JSON_parse
    Codecs.msgpack_encode Codecs.msgpack_decode Codecs.qs_stringify
    Codecs.qs_parse (VStr "application/json") (Prim (VStr "null")) <>
  Ok (Prim (VStr "null")).
Proof.
  assert (Design.round_trip Codecs.JSON_stringify Codecs.JSON_parse
            Codecs.msgpack_encode Codecs.msgpack_decode Codecs.qs_stringify
            Codecs.qs_parse (VStr "application/json") (Prim (VStr "null")) =
          Ok (Prim VNull)) as H by (vm_compute; reflexivity).
  split; [exact H|]. rewrite H. discriminate.
Qed.

(** The JSON text of the string "null" is that word in quotation marks,
    which parses back to the string; [deserialize] then answers [null]. *)
Lemma deserialize_null_string_witness :
  let text := String Codecs.quotation_mark ("null" +:+ String Codecs.quotation_mark EmptyString) in
  Codecs.JSON_stringify (Prim (VStr "null")) = Ok (Some text) /\
  Codecs.JSON_parse text = Ok (Prim (VStr "null")) /\
  Design.round_trip Codecs.JSON_stringify Codecs.JSON_parse
    Codecs.msgpack_encode Codecs.msgpack_decode Codecs.qs_stringify
    Codecs.qs_parse (VStr "application/json") (Prim (VStr "null")) =
  Ok (Prim VNull).
Proof.
  intros text.
  assert (Codecs.JSON_stringify (Prim (VStr "null")) = Ok (Some text)) as Hs
    by reflexivity.
  assert (Codecs.JSON_parse text = Ok (Prim (VStr "null"))) as Hp
    by (vm_compute; reflexivity).
  split; [exact Hs|]. split; [exact Hp|].
  destruct (deserialize_null_string Codecs.JSON_stringify Codecs.JSON_parse
              Codecs.msgpack_encode Codecs.msgpack_decode Codecs.qs_stringify
              Codecs.qs_parse) as (_ & H).
  exact (proj1 (H text Hs Hp)).
Defined.

(** ** The behaviour the tests of the repository expect *)

(** 'emits an error after `timeout` ms of no data': with a timeout of 500 ms
    and an interval of 100 ms, nothing is signalled for 499 ms, and the
    500th brings a [TimedOut] fault with a duration of 500. *)
Example times_out_after_half_a_second :
  exists s,
    Stream.construct Codecs.StringToNumber 0 (Some Examples.half_second) = Ok s /\
    Stream.emitted
      (Stream.super
         (Stream.stream
            (Stream.run {| Stream.clock := 0; Stream.stream := s |}
               (replicate 499 Stream.ActElapse)))) = [] /\
    Stream.emitted
      (Stream.super
         (Stream.stream
            (Stream.run {| Stream.clock := 0; Stream.stream := s |}
               (replicate 500 Stream.ActElapse)))) =
    [Stream.EvError
       (SmartStreamError.TimedOut {[ "duration" := VNum (Finite 500) ]});
     Stream.EvClose].
Proof.
  eexists. split; [vm_compute; reflexivity|].
  split; vm_compute; reflexivity.
Qed.

(** 'emits an error when instantiated incorrectly': a limit of 'foo'. *)
Example rejects_a_limit_that_is_not_a_number :
  Stream.construct Codecs.StringToNumber 0
    (Some (<["limit" := VStr "foo"]> Examples.json)) =
  Throw (TypeError (invalid_limit (VStr "foo"))).
Proof. vm_compute. reflexivity. Qed.

(** 'creates a new instance with reasonable defaults' *)
Example reasonable_defaults :
  exists s,
    Stream.create Codecs.StringToNumber 0 (Some Examples.json) = Ok s /\
    Stream._contentType s = "application/json" /\
    Stream._contentLength s = None /\
    Stream._size s = 0 /\
    Stream._limit s = Finite 65536 /\
    Stream._timeout s = Finite 30000 /\
    Stream._interval s = Finite 1000 /\
    Stream.isCompressed s = false /\
    Stream.isDeserializable s = true /\
    Stream.isObjectStream s = false /\
    Stream.toJSON s = Examples.json.
Proof.
  eexists. split; [vm_compute; reflexivity|].
  split_and!; vm_compute; reflexivity.
Qed.

(** A stream fed within its timeout is not timed out: touched at 400 ms, it
    is still open at 800 ms, and times out 500 ms after the interval tick
    that saw the activity. *)
Example activity_postpones_the_timeout :
  exists s,
    Stream.construct Codecs.StringToNumber 0 (Some Examples.half_second) = Ok s /\
    let acts :=
      replicate 400 Stream.ActElapse ++ [Stream.ActWrite Examples.four] ++
      replicate 400 Stream.ActElapse in
    Stream.state_of
      (Stream.stream (Stream.run {| Stream.clock := 0; Stream.stream := s |} acts)) =
    Stream.Open.
Proof.
  eexists. split; [vm_compute; reflexivity|]. vm_compute. reflexivity.
Qed.

(** ** One stream under any sequence of events *)

Lemma unseen_refl (s : Stream.SmartStream) : Design.unseen s s.
Proof. unfold Design.unseen. auto 10. Qed.

(** [destroy] does nothing to a destroyed stream, and destroys any other. *)
Lemma destroy_destroys (s : Stream.SmartStream) (err : option exn) :
  Stream.destroyed (Stream.super s) = false ->
  Design.destroys s (Stream.destroy s err).
Proof.
  intros Hd. unfold Design.destroys, Stream.destroy. rewrite Hd.
  destruct s as [[d e en wr em] raw ty enc cl sz lim to iv tm im].
  simpl in Hd. subst d.
  destruct err as [err|]; destruct cl; cbn -[isSmartStreamError].
  all: try destruct (isSmartStreamError err) eqn:Hs; cbn -[isSmartStreamError].
  all: split_and!; try reflexivity; try lia.
  all: first [ left; split; reflexivity
             | right; eexists; split_and!;
               [|reflexivity|rewrite <- app_assoc; reflexivity];
               first [exact Hs | reflexivity] ].
Qed.

Lemma destroy_effect (s : Stream.SmartStream) (err : option exn) :
  Design.unseen s (Stream.destroy s err) \/ Design.destroys s (Stream.destroy s err).
Proof.
  destruct (Stream.destroyed (Stream.super s)) eqn:Hd.
  - left. rewrite destroy_destroyed by exact Hd. apply unseen_refl.
  - right. by apply destroy_destroys.
Qed.

(** A write is refused, passes the chunk on, lets an exception escape, or
    destroys the stream. *)
Lemma write_effect (s : Stream.SmartStream) (c : Stream.chunk) :
  Design.closed s = true /\ Design.unseen s (Stream.write s c) \/
  Design.passes c s (Stream.write s c) \/
  Design.throws c s (Stream.write s c) \/
  Design.destroys s (Stream.write s c).
Proof.
  unfold Stream.write, Design.closed.
  destruct (Stream.destroyed (Stream.super s)) eqn:Hd.
  { left. split; [reflexivity|apply unseen_refl]. }
  destruct (Stream.ended (Stream.super s)) eqn:He.
  { right. right. right. by apply destroy_destroys. }
  destruct (Stream.writing (Stream.super s)) eqn:Hw.
  { left. split; [reflexivity|apply unseen_refl]. }
  right.
  destruct s as [[d e en wr em] raw ty enc cl sz lim to iv tm im].
  simpl in Hd, He, Hw. subst d en wr.
  unfold Stream.transform. cbn -[gt Stream.destroy Stream.timer_touch].
  destruct (gt (Finite (sz + Stream.byteLength c)) lim) eqn:Hgt.
  - right. right.
    match goal with |- Design.destroys _ (Stream.destroy ?x ?e) =>
      pose proof (destroy_destroys x e eq_refl) as H end.
    unfold Design.destroys in *. cbn -[Stream.destroy] in *.
    destruct H as (H1 & H2 & H3 & H4 & H5 & H6).
    split_and!; try assumption; try reflexivity.
    unfold Stream.byteLength in *. lia.
  - destruct (Stream.timer_touch tm) as [t'|e'].
    + left. unfold Design.passes, Design.closed. cbn.
      split_and!; try reflexivity. exact Hgt.
    + right. left. unfold Design.throws, Design.closed. cbn.
      split_and!; try reflexivity. eauto.
Qed.

Lemma end_effect (s : Stream.SmartStream) :
  Design.unseen s (Stream.end_ s) \/ Design.ends s (Stream.end_ s).
Proof.
  unfold Stream.end_.
  destruct (Stream.destroyed (Stream.super s)) eqn:Hd; simpl.
  { left. apply unseen_refl. }
  destruct (Stream.ended (Stream.super s)) eqn:He.
  { left. apply unseen_refl. }
  destruct (Stream.writing (Stream.super s)) eqn:Hw.
  - left. unfold Design.unseen.
    destruct s as [[d e en wr em] raw ty enc cl sz lim to iv tm im].
    simpl in *. subst. auto 10.
  - right. unfold Design.ends, Design.closed. rewrite Hd, He, Hw.
    destruct s as [[d e en wr em] raw ty enc cl sz lim to iv tm im].
    simpl in *. subst. destruct cl; cbn; auto 10.
Qed.

Lemma run_immediate_effect (s : Stream.SmartStream) :
  Design.unseen s (Stream.run_immediate s) \/
  Design.destroys s (Stream.run_immediate s).
Proof.
  unfold Stream.run_immediate. destruct (Stream.immediate s) eqn:Hi.
  - match goal with |- context [Stream.destroy ?x ?e] =>
      destruct (destroy_effect x e) as [H|H]; [left|right]; revert H end.
    + unfold Design.unseen.
      destruct s as [[d e en wr em] raw ty enc cl sz lim to iv tm im]. exact id.
    + unfold Design.destroys.
      destruct s as [[d e en wr em] raw ty enc cl sz lim to iv tm im]. exact id.
  - left. apply unseen_refl.
Qed.

Lemma run_timers_effect (now : Z) (s : Stream.SmartStream) :
  Design.unseen s (Stream.run_timers now s) \/
  Design.destroys s (Stream.run_timers now s).
Proof.
  unfold Stream.run_timers.
  destruct (Stream._timer s) as [[|t]|]; try (left; apply unseen_refl).
  destruct (Timer.run_due now t) as [t' [duration|]].
  - match goal with |- context [Stream.destroy ?x ?e] =>
      destruct (destroy_effect x e) as [H|H]; [left|right]; revert H end.
    + unfold Design.unseen.
      destruct s as [[d e en wr em] raw ty enc cl sz lim to iv tm im]. exact id.
    + unfold Design.destroys.
      destruct s as [[d e en wr em] raw ty enc cl sz lim to iv tm im]. exact id.
  - left. unfold Design.unseen.
    destruct s as [[d e en wr em] raw ty enc cl sz lim to iv tm im].
    simpl. auto 10.
Qed.

(** Every step is one of the five. *)
Lemma step_effect (w : Stream.world) (a : Stream.action) :
  let s := Stream.stream w in
  let s' := Stream.stream (Stream.step w a) in
  Design.unseen s s' /\ (forall c, a = Stream.ActWrite c -> Design.closed s = true) \/
  (exists c, a = Stream.ActWrite c /\ Design.passes c s s') \/
  (exists c, a = Stream.ActWrite c /\ Design.throws c s s') \/
  Design.ends s s' \/
  Design.destroys s s'.
Proof.
  destruct w as [clk s]. destruct a as [c| |err| |]; cbn [Stream.step Stream.stream].
  - destruct (write_effect s c) as [[H1 H2]|[H|[H|H]]];
      [left; split; [exact H2|intros _ _; exact H1]|eauto 10..].
  - destruct (end_effect s) as [H|H];
      [left; split; [exact H|discriminate]|auto 10].
  - destruct (destroy_effect s err) as [H|H];
      [left; split; [exact H|discriminate]|auto 10].
  - destruct (run_immediate_effect s) as [H|H];
      [left; split; [exact H|discriminate]|auto 10].
  - destruct (run_timers_effect (clk + 1) s) as [H|H];
      [left; split; [exact H|discriminate]|auto 10].
Qed.

Lemma after_nil (now : Z) (s : Stream.SmartStream) : Design.after now s [] = s.
Proof. reflexivity. Qed.

Lemma after_snoc (now : Z) (s : Stream.SmartStream) (acts : list Stream.action)
    (a : Stream.action) :
  Design.after now s (acts ++ [a]) =
  Stream.stream
    (Stream.step (Stream.run {| Stream.clock := now; Stream.stream := s |} acts) a).
Proof. unfold Design.after, Stream.run. rewrite fold_left_app. reflexivity. Qed.

(** No sequence of events touches the configuration. *)
Lemma after_config (now : Z) (s : Stream.SmartStream) (acts : list Stream.action) :
  Design.same_config s (Design.after now s acts).
Proof.
  induction acts as [|a acts IH] using rev_ind; [apply same_config_refl|].
  rewrite after_snoc. eapply same_config_trans; [exact IH|].
  apply (step_config (Stream.run _ acts) a).
Qed.

Lemma data_of_snoc (log : list Stream.event) (e : Stream.event) :
  Design.data_of (log ++ [e]) =
  Design.data_of log ++
  match e with Stream.EvData c => [c] | _ => [] end.
Proof.
  unfold Design.data_of. rewrite omap_app. destruct e; reflexivity.
Qed.

Lemma written_snoc (acts : list Stream.action) (a : Stream.action) :
  Design.written (acts ++ [a]) =
  Design.written acts ++
  match a with Stream.ActWrite c => [c] | _ => [] end.
Proof.
  unfold Design.written. rewrite omap_app. destruct a; reflexivity.
Qed.

(** What a step does to the data passed on and to the size. *)
Lemma step_data (w : Stream.world) (a : Stream.action) :
  let s := Stream.stream w in
  let s' := Stream.stream (Stream.step w a) in
  Design.data_of (Stream.emitted (Stream.super s')) =
    Design.data_of (Stream.emitted (Stream.super s)) /\
  Stream._size s <= Stream._size s' /\
  (Design.closed s = true -> Design.closed s' = true) /\
  (forall c, a = Stream.ActWrite c -> Design.closed s' = true) \/
  exists c, a = Stream.ActWrite c /\
    Design.closed s = false /\ Design.closed s' = false /\
    Design.data_of (Stream.emitted (Stream.super s')) =
      Design.data_of (Stream.emitted (Stream.super s)) ++ [c] /\
    Stream._size s' = Stream._size s + Stream.byteLength c /\
    gt (Finite (Stream._size s')) (Stream._limit s) = false.
Proof.
  cbv zeta.
  destruct (step_effect w a) as [[H Ha]|[(c & -> & H)|[(c & -> & H)|[H|H]]]].
  - left. destruct H as (Hem & Hd & _ & Hw & Hsz & Hen).
    rewrite Hem, Hsz. unfold Design.closed in *. rewrite Hd, Hw.
    split_and!; [reflexivity|lia| |].
    + destruct Hen as [->|[-> ->]]; [auto|]. intros _. by rewrite !orb_true_r.
    + intros c Hc. specialize (Ha c Hc).
      destruct Hen as [->|[-> ->]]; [exact Ha|]. by rewrite !orb_true_r.
  - right. exists c. destruct H as (Hc & Hc' & Hem & _ & Hsz & Hgt).
    rewrite Hem, data_of_snoc. auto 10.
  - left. destruct H as (Hc & [e Hem] & Hd & Hen & Hw & _ & Hsz).
    rewrite Hem, data_of_snoc, app_nil_r, Hsz. unfold Design.closed.
    rewrite Hw, !orb_true_r. unfold Stream.byteLength.
    split_and!; auto; lia.
  - left. destruct H as (Hc & Hem & Hd & Hen & Hw & _ & Hsz).
    rewrite Hem, data_of_snoc, app_nil_r, Hsz. unfold Design.closed.
    rewrite Hen, !orb_true_r. simpl. split_and!; auto; lia.
  - left. destruct H as (Hd & Hd' & Hen & Hw & Hsz & Hem).
    unfold Design.closed. rewrite Hd'. simpl.
    assert (Design.data_of (Stream.emitted (Stream.super (Stream.stream
              (Stream.step w a)))) =
            Design.data_of (Stream.emitted (Stream.super (Stream.stream w))))
      as ->.
    { destruct Hem as [[_ ->]|(e & _ & _ & ->)].
      - by rewrite data_of_snoc, app_nil_r.
      - change [Stream.EvError e; Stream.EvClose]
          with ([Stream.EvError e] ++ [Stream.EvClose]).
        by rewrite app_assoc, !data_of_snoc, !app_nil_r. }
    auto.
Qed.

Section RunProperties.
Variable StringToNumber : string -> number.

(** A constructed instance has a positive limit. *)
Lemma construct_limit (now : Z) (props : option (gmap string value))
    (s : Stream.SmartStream) :
  Stream.construct StringToNumber now props = Ok s ->
  gt (Stream._limit s) (Finite 0) = true.
Proof.
  intros (p & -> & Hv & Hi)%construct_Ok.
  apply validate_None in Hv as (_ & _ & _ & Hl & _).
  apply initialize_Ok in Hi as (_ & _ & _ & _ & _ & _ & -> & _).
  unfold or_else, Design.default_limit.
  destruct (truthy (Stream.num StringToNumber (get p "limit"))) eqn:Ht.
  - destruct (get p "limit") as [| |[]|n|t] eqn:Hg; simpl in *; try discriminate;
      try reflexivity.
    + apply truthy_positive; [exact Ht|].
      destruct (isNaN n); [discriminate|]. simpl in Hl. exact Hl.
    + apply truthy_positive; [exact Ht|].
      destruct (isNaN (StringToNumber t)); [discriminate|]. simpl in Hl. exact Hl.
  - destruct (Stream.DESERIALIZABLE_TYPES _); reflexivity.
Qed.

(** X1. A stream never passes on more bytes than its limit: whatever is
    written to a constructed stream, and whatever else happens to it, the
    chunks of its 'data' events add up to at most the limit, and its size
    counts at least those bytes. *)
Theorem never_passes_more_than_the_limit (now : Z)
    (props : option (gmap string value)) (s : Stream.SmartStream)
    (acts : list Stream.action) :
  Stream.construct StringToNumber now props = Ok s ->
  le (Finite (Design.total (Design.data_of (Design.log now s acts))))
     (Stream._limit s) = true /\
  Design.total (Design.data_of (Design.log now s acts)) <=
    Stream._size (Design.after now s acts).
Proof.
  intros Hc. pose proof (construct_limit now props s Hc) as Hlim.
  assert (Stream._size s = 0 /\ Stream.emitted (Stream.super s) = [])
    as [Hsz Hem].
  { apply construct_Ok in Hc as (p & -> & _ & Hi).
    apply initialize_Ok in Hi as (-> & _ & _ & _ & _ & -> & _). auto. }
  unfold Design.log.
  induction acts as [|a acts IH] using rev_ind.
  - rewrite after_nil, Hem, Hsz. simpl. split; [|lia].
    destruct (Stream._limit s) as [| |z|]; try discriminate; [|reflexivity].
    unfold gt in Hlim. simpl in *. apply bool_decide_eq_true in Hlim.
    apply bool_decide_eq_true. lia.
  - destruct IH as [IH1 IH2]. rewrite after_snoc.
    pose proof (after_config now s acts) as (_ & _ & _ & Hl & _).
    destruct (step_data (Stream.run {| Stream.clock := now; Stream.stream := s |}
                           acts) a) as [(Hd & Hs & _)|(c & _ & _ & _ & Hd & Hs & Hgt)];
      fold (Design.after now s acts) in *; rewrite Hd.
    + split; [exact IH1|lia].
    + rewrite total_app. simpl. rewrite Z.add_0_r. rewrite Hs. split; [|lia].
      rewrite Hl, Hs in Hgt.
      eapply (le_Finite_mono _ (Stream._size (Design.after now s acts) +
                                Stream.byteLength c)); [lia|].
      destruct (Stream._limit s) as [| |z|]; try discriminate; [|reflexivity].
      unfold gt in Hgt. simpl in *. apply bool_decide_eq_false in Hgt.
      apply bool_decide_eq_true. lia.
Qed.

End RunProperties.

(** The chunks passed on are the first so many of those written. *)
Lemma data_is_prefix (now : Z) (s : Stream.SmartStream)
    (acts : list Stream.action) :
  exists k : nat,
    Design.data_of (Design.log now s acts) =
      Design.data_of (Stream.emitted (Stream.super s)) ++
      take k (Design.written acts) /\
    (k <= List.length (Design.written acts))%nat /\
    (Design.closed (Design.after now s acts) = false ->
     k = List.length (Design.written acts)).
Proof.
  unfold Design.log.
  induction acts as [|a acts IH] using rev_ind.
  - exists 0%nat. rewrite after_nil. simpl. rewrite app_nil_r. auto.
  - destruct IH as (k & Hd & Hk & Ho). rewrite after_snoc, written_snoc.
    destruct (step_data (Stream.run {| Stream.clock := now; Stream.stream := s |}
                           acts) a)
      as [(Hd' & _ & Hcl & Ha)|(c & -> & Hc & Hc' & Hd' & _)];
      fold (Design.after now s acts) in *; rewrite Hd', Hd.
    + exists k. rewrite length_app. split; [|split; [lia|]].
      * by rewrite take_app_le.
      * intros Hc'. destruct a as [c| | | |]; simpl;
          try (rewrite Nat.add_0_r; apply Ho;
               destruct (Design.closed (Design.after now s acts)); [|reflexivity];
               rewrite Hcl in Hc'; [discriminate|reflexivity]).
        rewrite (Ha c eq_refl) in Hc'. discriminate.
    + exists (S (List.length (Design.written acts))). rewrite length_app. simpl.
      rewrite (Ho Hc). split; [|split; [lia|intros _; lia]].
      rewrite firstn_all, <- app_assoc. f_equal.
      rewrite take_ge; [reflexivity|]. rewrite length_app. simpl. lia.
Qed.

(** X2. The stream passes chunks on unaltered and in order: the chunks of the
    'data' events are always the first so many of the chunks written, in the
    order they were written; and as long as the writable side is open, every
    chunk written has been passed on. *)
Theorem data_is_a_prefix_of_what_was_written (now : Z) (s : Stream.SmartStream)
    (acts : list Stream.action) :
  exists k : nat,
    Design.data_of (Design.log now s acts) =
      Design.data_of (Stream.emitted (Stream.super s)) ++
      take k (Design.written acts) /\
    (Design.closed (Design.after now s acts) = false ->
     Design.data_of (Design.log now s acts) =
       Design.data_of (Stream.emitted (Stream.super s)) ++ Design.written acts).
Proof.
  destruct (data_is_prefix now s acts) as (k & Hd & Hk & Ho).
  exists k. split; [exact Hd|]. intros Hc. rewrite Hd, (Ho Hc).
  by rewrite firstn_all.
Qed.


Section ErrorProperties.
Variable StringToNumber : string -> number.


End ErrorProperties.

(** ** The timer *)

(** A timer with no handle pending does nothing when time passes. *)
Lemma run_due_cleared (now : Z) (t : Timer.SmartTimer) :
  Timer._timeoutTimer t = None -> Timer._intervalTimer t = None ->
  Timer.run_due now t = (t, None).
Proof.
  destruct t as [to iv h g ha la d]. simpl. intros -> ->. reflexivity.
Qed.

(** Time passing never changes the timeout and the interval of a timer. *)
Lemma run_due_config (now : Z) (t : Timer.SmartTimer) :
  Timer.timeout (Timer.run_due now t).1 = Timer.timeout t /\
  Timer.interval (Timer.run_due now t).1 = Timer.interval t.
Proof.
  destruct t as [to iv h g ha la d]. unfold Timer.run_due, Timer._onTimeout,
    Timer._onInterval, Timer.destroy. cbn -[lt Timers.delay Z.sub].
  destruct (Timers.due h now), ha; cbn -[lt Timers.delay Z.sub];
    repeat match goal with
      | |- context [if lt ?a ?b then _ else _] =>
          destruct (lt a b); cbn -[lt Timers.delay Z.sub]
      | |- context [if Timers.due ?a ?b then _ else _] =>
          destruct (Timers.due a b); cbn -[lt Timers.delay Z.sub]
      end; auto.
Qed.

(** X4. When the timer emits 'timeout', the duration it reports is at least
    the timeout, and it is the time since the activity last recorded.  The
    timer is then destroyed for good: touching it throws, no handle of it is
    pending, and it never fires again. *)
Theorem timeout_event_is_late_and_final (now : Z) (t t' : Timer.SmartTimer)
    (duration : Z) :
  Timer._onTimeout now t = (t', Some duration) ->
  isNaN (Timer.timeout t) = false ->
  ge (Finite duration) (Timer.timeout t) = true /\
  duration = now - Timer._lastActivity t' /\
  Timer._destroyed t' = true /\
  Timer._timeoutTimer t' = None /\
  Timer._intervalTimer t' = None /\
  Timer.touch t' = Throw (Error timer_already_destroyed) /\
  forall later, Timer.run_due later t' = (t', None).
Proof.
  destruct t as [to iv h g ha la d].
  unfold Timer._onTimeout, Timer._onInterval. cbn -[lt Z.sub Timers.delay].
  destruct ha; cbn -[lt Z.sub Timers.delay].
  - destruct (lt (Finite (now - now)) to) eqn:Hlt; [discriminate|].
    intros [= <- <-] Hn. cbn -[lt Z.sub]. split_and!; try reflexivity.
    unfold ge. destruct to; try discriminate; try reflexivity.
    simpl in *. apply bool_decide_eq_false in Hlt. apply bool_decide_eq_true. lia.
  - destruct (lt (Finite (now - la)) to) eqn:Hlt; [discriminate|].
    intros [= <- <-] Hn. cbn -[lt Z.sub]. split_and!; try reflexivity.
    unfold ge. destruct to; try discriminate; try reflexivity.
    simpl in *. apply bool_decide_eq_false in Hlt. apply bool_decide_eq_true. lia.
Qed.

(** ** Streams and their timers *)

Lemma destroy_stopped (s : Stream.SmartStream) (err : option exn) :
  (Design.settled s -> Design.stopped s) ->
  Design.stopped (Stream.destroy s err).
Proof.
  unfold Stream.destroy, Design.settled.
  destruct s as [[d e en wr em] raw ty enc cl sz lim to iv tm im].
  destruct d; cbn -[isSmartStreamError]; [auto|]. intros _.
  destruct err as [err|], cl; cbn -[isSmartStreamError];
    try destruct (isSmartStreamError err); destruct tm as [[|t]|]; cbn; auto.
Qed.

Lemma step_stopped (w : Stream.world) (a : Stream.action) :
  (Design.settled (Stream.stream w) -> Design.stopped (Stream.stream w)) ->
  Design.settled (Stream.stream (Stream.step w a)) ->
  Design.stopped (Stream.stream (Stream.step w a)).
Proof.
  destruct w as [clk s]. intros HK.
  destruct a as [c| |err| |]; cbn [Stream.step Stream.stream Stream.clock] in *.
  - unfold Stream.write.
    destruct (Stream.destroyed (Stream.super s)) eqn:Hd.
    { intros _. apply HK. by left. }
    destruct (Stream.ended (Stream.super s)) eqn:He.
    { intros _. by apply destroy_stopped. }
    destruct (Stream.writing (Stream.super s)) eqn:Hw.
    { unfold Design.settled. rewrite Hd, He. intros [?|[? _]]; discriminate. }
    unfold Stream.transform.
    destruct s as [[d e en wr em] raw ty enc cl sz lim to iv tm im].
    simpl in Hd, He, Hw. subst d en wr.
    cbn -[gt Stream.destroy Stream.timer_touch].
    destruct (gt (Finite (sz + Stream.byteLength c)) lim).
    + intros _. apply destroy_stopped. unfold Design.settled. simpl.
      intros [?|[? _]]; discriminate.
    + destruct (Stream.timer_touch tm) as [t'|e'];
        unfold Design.settled; cbn; intros [?|[? _]]; discriminate.
  - unfold Stream.end_.
    destruct (Stream.destroyed (Stream.super s)) eqn:Hd; simpl.
    { intros _. apply HK. by left. }
    destruct (Stream.ended (Stream.super s)) eqn:He; [exact HK|].
    destruct s as [[d e en wr em] raw ty enc cl sz lim to iv tm im].
    simpl in Hd, He. subst d en.
    destruct wr; unfold Design.settled; cbn.
    + intros [?|[_ ?]]; discriminate.
    + intros _. destruct cl, tm as [[|t]|]; cbn; auto.
  - intros _. by apply destroy_stopped.
  - unfold Stream.run_immediate. destruct (Stream.immediate s); [|exact HK].
    intros _. apply destroy_stopped.
    destruct s as [[d e en wr em] raw ty enc cl sz lim to iv tm im]. exact HK.
  - unfold Stream.run_timers.
    destruct (Stream._timer s) as [[|t]|] eqn:Ht; try exact HK.
    destruct (Stream.destroyed (Stream.super s)) eqn:Hd.
    + assert (Design.settled s) as Hs by (by left).
      pose proof (HK Hs) as Hst. unfold Design.stopped in Hst.
      rewrite Ht in Hst. destruct Hst as (_ & H1 & H2).
      rewrite (run_due_cleared _ _ H1 H2).
      destruct s as [[d e en wr em] raw ty enc cl sz lim to iv tm im].
      simpl in Ht. subst tm. intros _. apply (HK Hs).
    + destruct (Timer.run_due (clk + 1) t) as [t' [duration|]] eqn:Hr.
      * intros _. apply destroy_stopped.
        destruct s as [[d e en wr em] raw ty enc cl sz lim to iv tm im].
        simpl in Hd. subst d. unfold Design.settled. simpl.
        intros [?|Hs]; [discriminate|].
        assert (Design.settled {| Stream.super :=
                  {| Stream.destroyed := false; Stream.errored := e;
                     Stream.ended := en; Stream.writing := wr;
                     Stream.emitted := em |};
                  Stream._contentTypeRaw := raw; Stream._contentType := ty;
                  Stream._contentEncoding := enc; Stream._contentLength := cl;
                  Stream._size := sz; Stream._limit := lim; Stream._timeout := to;
                  Stream._interval := iv; Stream._timer := tm;
                  Stream.immediate := im |}) as Hs' by (right; exact Hs).
        pose proof (HK Hs') as Hst. unfold Design.stopped in Hst. simpl in *.
        subst tm. destruct Hst as (_ & H1 & H2).
        rewrite (run_due_cleared _ _ H1 H2) in Hr. discriminate.
      * destruct s as [[d e en wr em] raw ty enc cl sz lim to iv tm im].
        simpl in Hd, Ht. subst d tm. unfold Design.settled. simpl.
        intros [?|Hs]; [discriminate|].
        assert (Design.stopped {| Stream.super :=
                  {| Stream.destroyed := false; Stream.errored := e;
                     Stream.ended := en; Stream.writing := wr;
                     Stream.emitted := em |};
                  Stream._contentTypeRaw := raw; Stream._contentType := ty;
                  Stream._contentEncoding := enc; Stream._contentLength := cl;
                  Stream._size := sz; Stream._limit := lim; Stream._timeout := to;
                  Stream._interval := iv; Stream._timer := Some (Stream.Smart t);
                  Stream.immediate := im |}) as Hst by (apply HK; right; exact Hs).
        unfold Design.stopped in *. simpl in *. destruct Hst as (H0 & H1 & H2).
        rewrite (run_due_cleared _ _ H1 H2) in Hr. injection Hr as <-. auto.
Qed.

(** Time passing does nothing to a stream with no timer running. *)
Lemma idle_stopped (n : nat) (clk : Z) (s : Stream.SmartStream) :
  Design.stopped s ->
  Stream.run {| Stream.clock := clk; Stream.stream := s |}
    (replicate n Stream.ActElapse) =
  {| Stream.clock := clk + Z.of_nat n; Stream.stream := s |}.
Proof.
  intros Hs. revert clk. induction n as [|n IH]; intros clk.
  - simpl. by rewrite Z.add_0_r.
  - cbn [replicate Stream.run fold_left Stream.step Stream.clock Stream.stream].
    assert (Stream.run_timers (clk + 1) s = s) as ->.
    { unfold Stream.run_timers. unfold Design.stopped in Hs.
      destruct s as [[d e en wr em] raw ty enc cl sz lim to iv tm im].
      simpl in *. destruct tm as [[|t]|]; try reflexivity.
      destruct Hs as (_ & H1 & H2). by rewrite (run_due_cleared _ _ H1 H2). }
    fold (Stream.run {| Stream.clock := clk + 1; Stream.stream := s |}
            (replicate n Stream.ActElapse)).
    rewrite IH. f_equal. lia.
Qed.

Section TimerProperties.
Variable StringToNumber : string -> number.

(** X5. A stream leaves no timer running behind it: once a constructed
    stream is destroyed (by a fault, a timeout or its owner) or has flushed
    the end of its input, no timer handle of it is pending, and no amount of
    time changes it any more. *)
Theorem no_timer_is_left_running (now : Z) (props : option (gmap string value))
    (s : Stream.SmartStream) (acts : list Stream.action) :
  Stream.construct StringToNumber now props = Ok s ->
  let s' := Design.after now s acts in
  Stream.destroyed (Stream.super s') = true \/ Stream.state_of s' = Stream.Flushed ->
  Design.stopped s' /\
  forall (n : nat) (clk : Z),
    Stream.run {| Stream.clock := clk; Stream.stream := s' |}
      (replicate n Stream.ActElapse) =
    {| Stream.clock := clk + Z.of_nat n; Stream.stream := s' |}.
Proof.
  intros Hc s' Hs'.
  assert (Design.settled s' -> Design.stopped s') as HK.
  { subst s'. clear Hs'. induction acts as [|a acts IH] using rev_ind.
    - rewrite after_nil. apply construct_Ok in Hc as (p & -> & _ & Hi).
      apply initialize_Ok in Hi as (Hf & _). unfold Design.settled. rewrite Hf. simpl.
      intros [?|[? _]]; discriminate.
    - rewrite after_snoc. apply step_stopped. exact IH. }
  assert (Design.stopped s') as Hst.
  { apply HK. destruct Hs' as [Hd|Hf]; [by left|].
    unfold Stream.state_of in Hf. unfold Design.settled.
    destruct (Stream.errored (Stream.super s')); [discriminate|].
    destruct (Stream.destroyed (Stream.super s')); [discriminate|].
    destruct (Stream.ended (Stream.super s')); [|discriminate].
    destruct (Stream.writing (Stream.super s')); [discriminate|]. auto. }
  split; [exact Hst|]. intros n clk. by apply idle_stopped.
Qed.

End TimerProperties.

(** The delay the runtime uses is at least 1 ms and, for a delay of at least
    1 ms, no longer than asked. *)
Lemma delay_bounds (z : Z) :
  1 <= z -> 1 <= Timers.delay (Finite z) <= z.
Proof. intros H. simpl. case_bool_decide; lia. Qed.

(** An idle timer waits until its timeout has passed since the activity last
    recorded, and fires then. *)
Lemma run_due_idle (c : Z) (tm : Timer.SmartTimer) (t h : Z) :
  Timer._hadActivity tm = false ->
  Timer.timeout tm = Finite t ->
  Timer._timeoutTimer tm = Some h ->
  c <= h <= Timer._lastActivity tm + t ->
  (c < Timer._lastActivity tm + t ->
   exists tm' h',
     Timer.run_due c tm = (tm', None) /\
     Timer._hadActivity tm' = false /\
     Timer._lastActivity tm' = Timer._lastActivity tm /\
     Timer.timeout tm' = Finite t /\
     Timer._timeoutTimer tm' = Some h' /\
     c + 1 <= h' <= Timer._lastActivity tm + t) /\
  (c = Timer._lastActivity tm + t ->
   exists tm', Timer.run_due c tm = (tm', Some t)).
Proof.
  destruct tm as [to iv ht g ha la d]. simpl. intros -> -> [= ->] Hh.
  unfold Timer.run_due, Timer._onTimeout, Timer._onInterval, Timer.destroy.
  cbn -[Timers.delay Z.sub Z.add]. split.
  - intros Hc. case_bool_decide as Hdue; cbn -[Timers.delay Z.sub Z.add].
    + assert (h = c) as -> by lia.
      rewrite bool_decide_eq_true_2 by lia. cbn -[Timers.delay Z.sub Z.add].
      pose proof (delay_bounds (t - (c - la))) as Hd.
      destruct (Timers.due g c); cbn -[Timers.delay Z.sub Z.add];
        eexists _, _; (split; [reflexivity|]);
        cbn -[Timers.delay Z.sub Z.add]; split_and!; try reflexivity; lia.
    + destruct (Timers.due g c); cbn -[Timers.delay Z.sub Z.add];
        eexists _, _; (split; [reflexivity|]);
        cbn -[Timers.delay Z.sub Z.add]; split_and!; try reflexivity; lia.
  - intros ->. rewrite bool_decide_eq_true_2 by lia.
    cbn -[Timers.delay Z.sub Z.add].
    rewrite bool_decide_eq_false_2 by lia. cbn -[Timers.delay Z.sub Z.add].
    replace (la + t - la) with t by lia. eauto.
Qed.

(** A timer that has seen activity at or after [c0] does not fire before
    [c0] plus its timeout. *)
Lemma run_due_recent (c0 c : Z) (tm : Timer.SmartTimer) (t : Z) :
  Timer._hadActivity tm = true \/ c0 <= Timer._lastActivity tm ->
  Timer.timeout tm = Finite t ->
  c0 <= c -> c - c0 < t ->
  exists tm',
    Timer.run_due c tm = (tm', None) /\
    (Timer._hadActivity tm' = true \/ c0 <= Timer._lastActivity tm') /\
    Timer.timeout tm' = Finite t.
Proof.
  destruct tm as [to iv ht g ha la d]. simpl. intros HJ -> Hc0 Hc.
  unfold Timer.run_due, Timer._onTimeout, Timer._onInterval, Timer.destroy.
  cbn -[Timers.delay Z.sub Z.add].
  destruct (Timers.due ht c), ha; cbn -[Timers.delay Z.sub Z.add].
  - rewrite bool_decide_eq_true_2 by lia. cbn -[Timers.delay Z.sub Z.add].
    destruct (Timers.due g c); cbn -[Timers.delay Z.sub Z.add];
      eexists; (split; [reflexivity|]); simpl; split; auto; right; lia.
  - destruct HJ as [?|HJ]; [discriminate|].
    rewrite bool_decide_eq_true_2 by lia. cbn -[Timers.delay Z.sub Z.add].
    destruct (Timers.due g c); cbn -[Timers.delay Z.sub Z.add];
      eexists; (split; [reflexivity|]); simpl; split; auto.
  - destruct (Timers.due g c); cbn -[Timers.delay Z.sub Z.add];
      eexists; (split; [reflexivity|]); simpl; split; auto; right; lia.
  - destruct HJ as [?|HJ]; [discriminate|].
    destruct (Timers.due g c); cbn -[Timers.delay Z.sub Z.add];
      eexists; (split; [reflexivity|]); simpl; split; auto.
Qed.

(** [stream.run_timers] when the timer does not fire. *)
Lemma run_timers_quiet (c : Z) (s : Stream.SmartStream) (tm tm' : Timer.SmartTimer) :
  Stream._timer s = Some (Stream.Smart tm) ->
  Timer.run_due c tm = (tm', None) ->
  Stream.run_timers c s = Stream.with_timer s (Some (Stream.Smart tm')).
Proof. unfold Stream.run_timers. intros -> ->. reflexivity. Qed.

Lemma with_timer_twice (s : Stream.SmartStream) (t t' : option Stream.timer) :
  Stream.with_timer (Stream.with_timer s t) t' = Stream.with_timer s t'.
Proof. reflexivity. Qed.

(** An idle stream waits as its timer does. *)
Lemma idle_waits (n : nat) (clk : Z) (s : Stream.SmartStream)
    (tm : Timer.SmartTimer) (t h : Z) :
  Stream._timer s = Some (Stream.Smart tm) ->
  Timer._hadActivity tm = false ->
  Timer.timeout tm = Finite t ->
  Timer._timeoutTimer tm = Some h ->
  clk + 1 <= h <= Timer._lastActivity tm + t ->
  clk + Z.of_nat n < Timer._lastActivity tm + t ->
  exists tm' h',
    Stream.run {| Stream.clock := clk; Stream.stream := s |}
      (replicate n Stream.ActElapse) =
    {| Stream.clock := clk + Z.of_nat n;
       Stream.stream := Stream.with_timer s (Some (Stream.Smart tm')) |} /\
    Timer._hadActivity tm' = false /\
    Timer._lastActivity tm' = Timer._lastActivity tm /\
    Timer.timeout tm' = Finite t /\
    Timer._timeoutTimer tm' = Some h' /\
    clk + Z.of_nat n + 1 <= h' <= Timer._lastActivity tm + t.
Proof.
  revert clk s tm h. induction n as [|n IH]; intros clk s tm h Ht Ha Hto Hh Hb Hn.
  - exists tm, h. simpl. rewrite Z.add_0_r. split_and!; auto; try lia.
    f_equal. destruct s. simpl in Ht. subst. reflexivity.
  - cbn [replicate Stream.run fold_left Stream.step Stream.clock Stream.stream].
    destruct (run_due_idle (clk + 1) tm t h Ha Hto Hh) as [Hq _]; [lia|].
    destruct Hq as (tm1 & h1 & Hr & Ha1 & Hl1 & Hto1 & Hh1 & Hb1); [lia|].
    rewrite (run_timers_quiet _ _ _ _ Ht Hr).
    fold (Stream.run {| Stream.clock := clk + 1;
                        Stream.stream :=
                          Stream.with_timer s (Some (Stream.Smart tm1)) |}
            (replicate n Stream.ActElapse)).
    destruct (IH (clk + 1) (Stream.with_timer s (Some (Stream.Smart tm1))) tm1 h1)
      as (tm' & h' & Hrun & Ha' & Hl' & Hto' & Hh' & Hb');
      [reflexivity|assumption|assumption|assumption|lia|lia|].
    exists tm', h'. rewrite Hrun, with_timer_twice.
    split_and!; auto; try lia; try congruence.
    f_equal. lia.
Qed.

(** A stream whose timer has seen activity at or after [c0] stays as it is
    until [c0] plus the timeout. *)
Lemma recent_waits (n : nat) (c0 clk : Z) (s : Stream.SmartStream)
    (tm : Timer.SmartTimer) (t : Z) :
  Stream._timer s = Some (Stream.Smart tm) ->
  Timer._hadActivity tm = true \/ c0 <= Timer._lastActivity tm ->
  Timer.timeout tm = Finite t ->
  c0 <= clk -> clk + Z.of_nat n - c0 < t ->
  exists tm',
    Stream.run {| Stream.clock := clk; Stream.stream := s |}
      (replicate n Stream.ActElapse) =
    {| Stream.clock := clk + Z.of_nat n;
       Stream.stream := Stream.with_timer s (Some (Stream.Smart tm')) |}.
Proof.
  revert clk s tm. induction n as [|n IH]; intros clk s tm Ht HJ Hto Hc Hn.
  - exists tm. simpl. rewrite Z.add_0_r.
    f_equal. destruct s. simpl in Ht. subst. reflexivity.
  - cbn [replicate Stream.run fold_left Stream.step Stream.clock Stream.stream].
    destruct (run_due_recent c0 (clk + 1) tm t HJ Hto) as (tm1 & Hr & HJ1 & Hto1);
      [lia|lia|].
    rewrite (run_timers_quiet _ _ _ _ Ht Hr).
    fold (Stream.run {| Stream.clock := clk + 1;
                        Stream.stream :=
                          Stream.with_timer s (Some (Stream.Smart tm1)) |}
            (replicate n Stream.ActElapse)).
    destruct (IH (clk + 1) (Stream.with_timer s (Some (Stream.Smart tm1))) tm1)
      as (tm' & Hrun); [reflexivity|assumption|assumption|lia|lia|].
    exists tm'. rewrite Hrun, with_timer_twice. f_equal. lia.
Qed.

Lemma destroy_timer_agrees (s : Stream.SmartStream) (err : option exn) :
  Design.timer_agrees s -> Design.timer_agrees (Stream.destroy s err).
Proof.
  unfold Stream.destroy, Design.timer_agrees.
  destruct s as [[d e en wr em] raw ty enc cl sz lim to iv tm im].
  destruct d; cbn -[isSmartStreamError]; [auto|].
  destruct err as [err|], cl; cbn -[isSmartStreamError];
    try destruct (isSmartStreamError err); destruct tm as [[|t]|]; cbn; auto.
Qed.

(** No step changes the timeout and the interval the timer runs with. *)
Lemma step_timer_agrees (w : Stream.world) (a : Stream.action) :
  Design.timer_agrees (Stream.stream w) ->
  Design.timer_agrees (Stream.stream (Stream.step w a)).
Proof.
  destruct w as [clk s]. intros HK.
  destruct a as [c| |err| |]; cbn [Stream.step Stream.stream Stream.clock] in *.
  - unfold Stream.write.
    destruct (Stream.destroyed (Stream.super s)); [exact HK|].
    destruct (Stream.ended (Stream.super s)); [by apply destroy_timer_agrees|].
    destruct (Stream.writing (Stream.super s)); [exact HK|].
    unfold Stream.transform.
    destruct s as [[d e en wr em] raw ty enc cl sz lim to iv tm im].
    cbn -[gt Stream.destroy Stream.timer_touch].
    destruct (gt (Finite (sz + Stream.byteLength c)) lim).
    + apply destroy_timer_agrees. exact HK.
    + destruct tm as [[|t]|]; cbn; auto.
      unfold Timer.touch. destruct (negb (Timer._destroyed t)); cbn; auto.
  - unfold Stream.end_.
    destruct (Stream.destroyed (Stream.super s) || Stream.ended (Stream.super s));
      [exact HK|].
    destruct s as [[d e en wr em] raw ty enc cl sz lim to iv tm im].
    destruct wr; [exact HK|].
    unfold Design.timer_agrees in *. destruct cl, tm as [[|t]|]; cbn in *; auto.
  - by apply destroy_timer_agrees.
  - unfold Stream.run_immediate. destruct (Stream.immediate s); [|exact HK].
    apply destroy_timer_agrees.
    destruct s as [[d e en wr em] raw ty enc cl sz lim to iv tm im]. exact HK.
  - unfold Stream.run_timers.
    destruct (Stream._timer s) as [[|t]|] eqn:Ht; try exact HK.
    pose proof (run_due_config (clk + 1) t) as [H1 H2].
    destruct (Timer.run_due (clk + 1) t) as [t' fired]. simpl in H1, H2.
    assert (Design.timer_agrees (Stream.with_timer s (Some (Stream.Smart t'))))
      as HK'.
    { unfold Design.timer_agrees in *. rewrite Ht in HK.
      destruct s as [[d e en wr em] raw ty enc cl sz lim to iv tm im].
      simpl in *. destruct HK. split; congruence. }
    destruct fired; [by apply destroy_timer_agrees|exact HK'].
Qed.

Section TimeoutProperties.
Variable StringToNumber : string -> number.

Lemma construct_timer_agrees (now : Z) (props : option (gmap string value))
    (s : Stream.SmartStream) :
  Stream.construct StringToNumber now props = Ok s -> Design.timer_agrees s.
Proof.
  intros (p & -> & _ & Hi)%construct_Ok.
  apply initialize_Ok in Hi as (_ & _ & _ & _ & _ & _ & _ & _ & _ & _ & Htm).
  unfold Design.timer_agrees.
  destruct (Stream.immediate s); [by rewrite Htm|].
  destruct (strict_eq _ _); [by rewrite Htm|].
  destruct Htm as (t & Hnew & ->). unfold Timer.new in Hnew.
  repeat match type of Hnew with (if ?b then _ else _) = _ =>
    destruct b; [discriminate|] end.
  injection Hnew as <-. auto.
Qed.

Lemma after_timer_agrees (now : Z) (props : option (gmap string value))
    (s : Stream.SmartStream) (acts : list Stream.action) :
  Stream.construct StringToNumber now props = Ok s ->
  Design.timer_agrees (Design.after now s acts).
Proof.
  intros Hc. induction acts as [|a acts IH] using rev_ind.
  - rewrite after_nil. by eapply construct_timer_agrees.
  - rewrite after_snoc. by apply step_timer_agrees.
Qed.

(** X6. Stall detection: a stream constructed with a timeout of [t] ms that
    receives nothing stays open and silent for less than [t] ms, and when
    [t] ms have passed it is destroyed with a TimedOut fault whose duration
    is [t], followed by 'close'.  (A stream whose declared length exceeds
    its limit has no timer; see C5.) *)
Theorem times_out_when_idle (now : Z) (props : option (gmap string value))
    (s : Stream.SmartStream) (t : Z) :
  Stream.construct StringToNumber now props = Ok s ->
  Stream.immediate s = false ->
  Stream._timeout s = Finite t ->
  0 < t ->
  (forall n : nat,
     Z.of_nat n < t ->
     Design.log now s (replicate n Stream.ActElapse) = [] /\
     Stream.state_of (Design.after now s (replicate n Stream.ActElapse)) =
       Stream.Open) /\
  Design.log now s (replicate (Z.to_nat t) Stream.ActElapse) =
    [Stream.EvError (Design.timed_out t); Stream.EvClose] /\
  Stream.state_of (Design.after now s (replicate (Z.to_nat t) Stream.ActElapse)) =
    Stream.Errored.
Proof.
  intros Hc Him Hto Ht.
  pose proof Hc as (p & -> & _ & Hi)%construct_Ok.
  apply initialize_Ok in Hi
    as (Hf & _ & _ & _ & _ & _ & _ & _ & _ & _ & Htm).
  rewrite Him, Hto in Htm.
  assert (strict_eq (VNum (Finite t)) (VNum (Finite 0)) = false) as Hz.
  { simpl. apply bool_decide_eq_false. lia. }
  rewrite Hz in Htm. destruct Htm as (tm & Hnew & Htimer).
  unfold Timer.new in Hnew.
  repeat match type of Hnew with (if ?b then _ else _) = _ =>
    destruct b; [discriminate|] end.
  injection Hnew as Hnew.
  pose proof (delay_bounds t) as Hd.
  assert (forall n : nat, Z.of_nat n < t ->
    exists tm' h',
      Stream.run {| Stream.clock := now; Stream.stream := s |}
        (replicate n Stream.ActElapse) =
      {| Stream.clock := now + Z.of_nat n;
         Stream.stream := Stream.with_timer s (Some (Stream.Smart tm')) |} /\
      Timer._hadActivity tm' = false /\
      Timer._lastActivity tm' = now /\
      Timer.timeout tm' = Finite t /\
      Timer._timeoutTimer tm' = Some h' /\
      now + Z.of_nat n + 1 <= h' <= now + t) as Hwait.
  { intros n Hn.
    assert (Timer._hadActivity tm = false /\ Timer.timeout tm = Finite t /\
            Timer._timeoutTimer tm = Some (now + Timers.delay (Finite t)) /\
            Timer._lastActivity tm = now) as (Ha0 & Hto0 & Hh0 & Hl0)
      by (subst tm; auto).
    destruct (idle_waits n now s tm t (now + Timers.delay (Finite t)) Htimer
                Ha0 Hto0 Hh0)
      as (tm' & h' & Hrun & Ha & Hl & Hto' & Hh & Hb); [lia|lia|].
    exists tm', h'. rewrite Hl0 in *. split_and!; auto; lia. }
  split.
  - intros n Hn. destruct (Hwait n Hn) as (tm' & h' & Hrun & _).
    unfold Design.log, Design.after. rewrite Hrun. simpl.
    unfold Stream.state_of. simpl. rewrite Hf. auto.
  - assert (replicate (Z.to_nat t) Stream.ActElapse =
            replicate (Z.to_nat (t - 1)) Stream.ActElapse ++ [Stream.ActElapse])
      as ->.
    { replace (Z.to_nat t) with (S (Z.to_nat (t - 1))) by lia.
      rewrite replicate_S_end. reflexivity. }
    unfold Design.log. rewrite !after_snoc.
    destruct (Hwait (Z.to_nat (t - 1))) as (tm' & h' & Hrun & Ha & Hl & Hto' & Hh & Hb);
      [lia|].
    rewrite Hrun.
    cbn [Stream.step Stream.clock Stream.stream].
    destruct (run_due_idle (now + Z.of_nat (Z.to_nat (t - 1)) + 1) tm' t h' Ha Hto' Hh)
      as [_ Hfire]; [lia|].
    destruct Hfire as [tm'' Hfire]; [lia|].
    unfold Stream.run_timers. cbn [Stream._timer Stream.with_timer].
    rewrite Hfire. rewrite with_timer_twice.
    destruct s as [[d e en wr em] raw ty enc cl sz lim to iv tmr im].
    simpl in Hf. injection Hf as -> -> -> -> ->.
    unfold Stream.destroy. cbn -[isSmartStreamError].
    destruct cl; cbn; auto.
Qed.

(** X7. The timeout counts from the last chunk: when a stream constructed
    with a timeout of [t] ms passes a chunk on, at any moment of its life,
    nothing happens to it during the [t] ms that follow unless something is
    done to it; in particular it does not time out. *)
Theorem a_chunk_postpones_the_timeout (now : Z)
    (props : option (gmap string value)) (s0 : Stream.SmartStream) (t : Z)
    (acts : list Stream.action) (c : Stream.chunk) (n : nat) :
  Stream.construct StringToNumber now props = Ok s0 ->
  Stream._timeout s0 = Finite t ->
  let w := Stream.run {| Stream.clock := now; Stream.stream := s0 |} acts in
  let s := Stream.write (Stream.stream w) c in
  Stream.emitted (Stream.super s) =
    Stream.emitted (Stream.super (Stream.stream w)) ++ [Stream.EvData c] ->
  Z.of_nat n < t ->
  let s' :=
    Stream.stream
      (Stream.run {| Stream.clock := Stream.clock w; Stream.stream := s |}
         (replicate n Stream.ActElapse)) in
  Stream.super s' = Stream.super s /\
  Stream.destroyed (Stream.super s') = false /\
  Stream._size s' = Stream._size s.
Proof.
  intros Hc Hto w s Hem Hn.
  pose proof (after_timer_agrees now props s0 acts Hc) as Hag.
  pose proof (after_config now s0 acts) as (_ & _ & _ & _ & Hto' & _).
  fold w in Hag. unfold Design.after in Hag, Hto'. fold w in Hag, Hto'.
  rewrite Hto in Hto'.
  subst s. cbv zeta. revert Hem. generalize (Stream.clock w) as clk.
  generalize dependent (Stream.stream w). clear w. intros s Hag Hto' clk.
  unfold Stream.write.
  destruct (Stream.destroyed (Stream.super s)) eqn:Hd.
  { intros H. apply (f_equal (@List.length _)) in H.
    rewrite length_app in H. simpl in H. lia. }
  destruct (Stream.ended (Stream.super s)) eqn:He.
  { intros H. exfalso.
    destruct (destroy_destroys s (Some (Error write_after_end)) Hd)
      as (_ & _ & _ & _ & _ & [[_ H']|(e & _ & _ & H')]); rewrite H' in H.
    - apply app_inv_head in H. discriminate.
    - apply app_inv_head in H. discriminate. }
  destruct (Stream.writing (Stream.super s)) eqn:Hw.
  { intros H. apply (f_equal (@List.length _)) in H.
    rewrite length_app in H. simpl in H. lia. }
  unfold Stream.transform.
  destruct s as [[d e en wr em] raw ty enc cl sz lim to iv tm im].
  simpl in Hd, He, Hw, Hto'. subst d en wr to.
  cbn -[gt Stream.destroy Stream.timer_touch].
  destruct (gt (Finite (sz + Stream.byteLength c)) lim).
  { intros H. exfalso.
    match type of H with Stream.emitted (Stream.super (Stream.destroy ?x ?e)) = _ =>
      destruct (destroy_destroys x e eq_refl)
        as (_ & _ & _ & _ & _ & [[_ H']|(e' & _ & _ & H')]); rewrite H' in H end;
      simpl in H; apply app_inv_head in H; discriminate. }
  destruct tm as [[|tm]|]; cbn -[Stream.run].
  - intros _. rewrite idle_stopped by exact I. simpl. auto.
  - unfold Design.timer_agrees in Hag. simpl in Hag. destruct Hag as [Hag _].
    unfold Timer.touch. destruct (Timer._destroyed tm) eqn:Hdt; cbn -[Stream.run].
    { intros H. apply app_inv_head in H. discriminate. }
    intros _.
    match goal with |- context [Stream.run {| Stream.clock := _;
                                              Stream.stream := ?x |} _] =>
      match eval cbn in (Stream._timer x) with
      | Some (Stream.Smart ?tm0) =>
          destruct (recent_waits n clk clk x tm0 t)
            as [tm' Hrun]; [reflexivity|by left|exact Hag|lia|lia|]
      end end.
    rewrite Hrun. simpl. auto.
  - intros H. apply app_inv_head in H. discriminate.
Qed.

End TimeoutProperties.

(** ** The constructor, after its guards *)

Lemma in_force_ge (n d : number) :
  ge d (Finite 0) = true -> ge (Design.in_force n d) (Finite 0) = true.
Proof.
  unfold Design.in_force. intros Hd. destruct (ge n (Finite 0)) eqn:H; auto.
Qed.

Section Outcome.
Variable StringToNumber : string -> number.

(** X8. What the constructor does once its guards are passed.  The timeout
    in force is the one supplied if that is a number not below 0, else
    30000; the interval in force likewise, else 1000 (so a negative timeout
    is not refused but replaced).  The constructor returns an instance with
    these two whenever the interval in force does not exceed the timeout in
    force, or the timeout in force is 0.  The one exception it can throw
    after its guards is the [Error] of the timer, interval exceeds timeout;
    and it does throw it when the interval in force exceeds the timeout in
    force, the timeout in force is not 0, and no content length is
    declared: so a timeout below 1000 given without an interval is
    refused. *)
Theorem construct_after_guards (now : Z) (props : gmap string value) :
  Stream.validate StringToNumber (Some props) = None ->
  let timeout :=
    Design.in_force (Stream.num StringToNumber (get props "timeout"))
      (Finite 30000) in
  let interval :=
    Design.in_force (Stream.num StringToNumber (get props "interval"))
      (Finite 1000) in
  (gt interval timeout = false \/ timeout = Finite 0 ->
   exists s, Stream.construct StringToNumber now (Some props) = Ok s) /\
  (forall s, Stream.construct StringToNumber now (Some props) = Ok s ->
             Stream._timeout s = timeout /\ Stream._interval s = interval) /\
  (forall e, Stream.construct StringToNumber now (Some props) = Throw e ->
             e = Error (interval_exceeds_timeout interval timeout) /\
             gt interval timeout = true /\ timeout <> Finite 0) /\
  (gt interval timeout = true -> timeout <> Finite 0 ->
   get props "contentLength" = VUndefined ->
   Stream.construct StringToNumber now (Some props) =
   Throw (Error (interval_exceeds_timeout interval timeout))).
Proof.
  intros Hv timeout interval.
  pose proof (validate_None _ _ Hv) as (Ht & _).
  destruct (test_exec1 _ Ht) as [type Hty].
  assert (ge timeout (Finite 0) = true) as Hto by (by apply in_force_ge).
  assert (ge interval (Finite 0) = true) as Hiv by (by apply in_force_ge).
  assert (strict_eq (VNum timeout) (VNum (Finite 0)) = true <-> timeout = Finite 0)
    as Hz.
  { destruct timeout as [| |z|]; simpl; split; try discriminate.
    - intros H%bool_decide_eq_true. congruence.
    - intros [= ->]. by apply bool_decide_eq_true. }
  assert (if gt interval timeout
          then Timer.new now timeout interval =
               Throw (Error (interval_exceeds_timeout interval timeout))
          else exists tm, Timer.new now timeout interval = Ok tm) as Hnew.
  { unfold Timer.new.
    assert (lt timeout (Finite 0) = false) as ->.
    { unfold ge in Hto. destruct timeout; simpl in *; try congruence.
      apply bool_decide_eq_true in Hto. apply bool_decide_eq_false. lia. }
    assert (lt interval (Finite 0) = false) as ->.
    { unfold ge in Hiv. destruct interval; simpl in *; try congruence.
      apply bool_decide_eq_true in Hiv. apply bool_decide_eq_false. lia. }
    destruct (gt interval timeout); eauto. }
  unfold Stream.construct. rewrite Hv. unfold Stream.initialize. rewrite Hty.
  cbv zeta. fold timeout interval.
  unfold Design.in_force in timeout, interval.
  match goal with |- context [Stream.with_immediate ?r true] => set (this := r) end.
  change (Stream._timeout this) with timeout.
  change (Stream._interval this) with interval.
  split_and!.
  - intros Hok. destruct (gt (Stream.plus_contentLength this) (Stream._limit this));
      [eauto|].
    destruct (strict_eq (VNum timeout) (VNum (Finite 0))) eqn:Hs; [eauto|].
    destruct Hok as [Hgt|H0]; [|destruct Hz as [_ Hz]; specialize (Hz H0); discriminate].
    rewrite Hgt in Hnew. destruct Hnew as [tm ->]. eauto.
  - intros s.
    destruct (gt (Stream.plus_contentLength this) (Stream._limit this));
      [intros [= <-]; auto|].
    destruct (strict_eq (VNum timeout) (VNum (Finite 0))); [intros [= <-]; auto|].
    destruct (Timer.new now timeout interval); [intros [= <-]; auto|discriminate].
  - intros e.
    destruct (gt (Stream.plus_contentLength this) (Stream._limit this));
      [discriminate|].
    destruct (strict_eq (VNum timeout) (VNum (Finite 0))) eqn:Hs; [discriminate|].
    destruct (gt interval timeout) eqn:Hgt.
    + rewrite Hnew. intros [= <-]. split_and!; auto.
      intros H0. destruct Hz as [_ Hz]. specialize (Hz H0). discriminate.
    + destruct Hnew as [tm ->]. discriminate.
  - intros Hgt H0 Hcl.
    assert (gt (Stream.plus_contentLength this) (Stream._limit this) = false)
      as ->.
    { subst this. unfold Stream.plus_contentLength. simpl. rewrite Hcl.
      unfold Stream.num, ToNumber. simpl. unfold gt. by destruct (or_else _ _). }
    destruct (strict_eq (VNum timeout) (VNum (Finite 0))) eqn:Hs;
      [destruct Hz as [Hz _]; specialize (Hz eq_refl); contradiction|].
    rewrite Hgt in Hnew. rewrite Hnew. reflexivity.
Qed.

End Outcome.

(** ** The header and the getters *)

Lemma after_well_formed (now : Z) (s : Stream.SmartStream)
    (acts : list Stream.action) :
  Design.well_formed s -> Design.well_formed (Design.after now s acts).
Proof.
  intros Hs. induction acts as [|a acts IH] using rev_ind.
  - by rewrite after_nil.
  - rewrite after_snoc. by apply step_well_formed.
Qed.

Lemma get_toJSON_alone (s : Stream.SmartStream) (k : string) :
  get (Stream.toJSON s) k =
  if decide (k = "contentType") then Stream._contentTypeRaw s
  else if decide (k = "contentEncoding") then Stream._contentEncoding s
  else if decide (k = "contentLength") then
    if gt (Stream.plus_contentLength s) (Finite 0)
    then Stream.contentLength s else VUndefined
  else VUndefined.
Proof.
  unfold get. rewrite toJSON_lookup.
  repeat case_decide; try reflexivity. destruct (gt _ _); reflexivity.
Qed.

Section Header.
Variable StringToNumber : string -> number.

(** The header of a well-formed instance passes the guards of the
    constructor and makes an instance with the same header. *)
Lemma toJSON_constructs (now : Z) (s : Stream.SmartStream) :
  Design.well_formed s ->
  exists s2,
    Stream.construct StringToNumber now (Some (Stream.toJSON s)) = Ok s2 /\
    Stream.toJSON s2 = Stream.toJSON s /\
    Stream._contentType s2 = Stream._contentType s /\
    Stream._timeout s2 = Finite 30000 /\
    Stream._interval s2 = Finite 1000.
Proof.
  intros [Hex Henc].
  pose proof (exec1_test _ _ Hex) as Hty.
  set (p := Stream.toJSON s).
  assert (get p "contentType" = Stream._contentTypeRaw s) as Hg1
    by (subst p; rewrite get_toJSON_alone; reflexivity).
  assert (get p "contentEncoding" = Stream._contentEncoding s) as Hg2
    by (subst p; rewrite get_toJSON_alone; reflexivity).
  assert (get p "contentLength" =
          if gt (Stream.plus_contentLength s) (Finite 0)
          then Stream.contentLength s else VUndefined) as Hg3
    by (subst p; rewrite get_toJSON_alone; reflexivity).
  assert (get p "limit" = VUndefined) as Hg4
    by (subst p; rewrite get_toJSON_alone; reflexivity).
  assert (get p "timeout" = VUndefined) as Hg5
    by (subst p; rewrite get_toJSON_alone; reflexivity).
  assert (get p "interval" = VUndefined) as Hg6
    by (subst p; rewrite get_toJSON_alone; reflexivity).
  assert (Stream.num StringToNumber (get p "contentLength") =
          if gt (Stream.plus_contentLength s) (Finite 0)
          then Stream.plus_contentLength s else NaN) as Hn.
  { rewrite Hg3. unfold Stream.plus_contentLength, Stream.contentLength.
    destruct (Stream._contentLength s) as [n|]; [|reflexivity].
    destruct (gt n (Finite 0)); reflexivity. }
  assert (Stream.validate StringToNumber (Some p) = None) as Hv.
  { unfold Stream.validate. rewrite Hg1, Hg2, Hty, Henc, Hn, Hg4, Hg5, Hg6.
    destruct (gt (Stream.plus_contentLength s) (Finite 0)) eqn:Hgt;
      [rewrite (gt_not_le _ _ Hgt)|]; reflexivity. }
  unfold Stream.construct. rewrite Hv. unfold Stream.initialize.
  rewrite Hg1, Hex, Hg2, Hn, Hg4, Hg5, Hg6. cbv zeta.
  change (Stream.num StringToNumber VUndefined) with NaN.
  change (ge NaN (Finite 0)) with false. cbv iota.
  match goal with |- context [Stream.with_immediate ?r true] => set (this := r) end.
  assert (Stream.toJSON this = Stream.toJSON s) as Hj.
  { apply map_eq. intros k. rewrite !toJSON_lookup. subst this.
    unfold Stream.plus_contentLength, Stream.contentLength. simpl.
    destruct (Stream._contentLength s) as [[| |z|]|]; simpl; try reflexivity.
    destruct (bool_decide (0 < z)) eqn:Hz; simpl; [|reflexivity].
    destruct z as [|q|q]; simpl; rewrite ?Hz; try reflexivity.
    all: apply bool_decide_eq_true in Hz; lia. }
  destruct (gt (Stream.plus_contentLength this) (Stream._limit this)).
  { eexists. split; [reflexivity|]. auto. }
  change (strict_eq (VNum (Stream._timeout this)) (VNum (Finite 0))) with false.
  cbv iota.
  change (Timer.new now (Stream._timeout this) (Stream._interval this))
    with (Timer.new now (Finite 30000) (Finite 1000)).
  unfold Timer.new. simpl.
  eexists. split; [reflexivity|]. auto.
Qed.

(** X9. The header of a stream is always acceptable to the constructor: at
    any moment of the life of a constructed stream, constructing a stream
    from what [toJSON] returns succeeds, and gives a stream with the same
    header, the same content type and the default timeout and interval.
    (The comment of [toJSON] in the source demands the first; streams made
    by [toContentEncoding] depend on it.) *)
Theorem toJSON_is_acceptable_props (now now' : Z)
    (props : option (gmap string value)) (s0 : Stream.SmartStream)
    (acts : list Stream.action) :
  Stream.construct StringToNumber now props = Ok s0 ->
  let s := Design.after now s0 acts in
  exists s2,
    Stream.construct StringToNumber now' (Some (Stream.toJSON s)) = Ok s2 /\
    Stream.toJSON s2 = Stream.toJSON s /\
    Stream._contentType s2 = Stream._contentType s /\
    Stream._timeout s2 = Finite 30000 /\
    Stream._interval s2 = Finite 1000.
Proof.
  intros Hc s. apply toJSON_constructs. apply after_well_formed.
  by eapply construct_well_formed.
Qed.

End Header.

Lemma append_empty (s : string) : s +:+ EmptyString = s.
Proof.
  induction s as [|a s IH]; [reflexivity|].
  change (String a (s +:+ EmptyString) = String a s). by f_equal.
Qed.

Lemma append_assoc (a b c : string) : (a +:+ b) +:+ c = a +:+ (b +:+ c).
Proof.
  induction a as [|x a IH]; [reflexivity|].
  change (String x ((a +:+ b) +:+ c) = String x (a +:+ (b +:+ c))). by f_equal.
Qed.

(** What matched as the content type is itself a content type, and its own
    match. *)
Lemma exec_canonical (text type : string) :
  Stream.CONTENT_TYPES_exec text = Some type ->
  Stream.CONTENT_TYPES_exec type = Some type /\
  exists family subtype rest,
    family ∈ Stream.TYPES /\ type = family +:+ "/" +:+ subtype /\
    text = type +:+ rest.
Proof.
  intros [Hm _]%exec_match.
  destruct Hm as [family subtype semicolon rest Hf Hne Hch _ _ -> ->].
  split.
  - rewrite exec_from_family by exact Hf.
    pose proof (span_app Stream.subtype_char subtype EmptyString Hch) as Hs.
    rewrite append_empty in Hs. simpl in Hs. rewrite append_empty in Hs.
    rewrite Hs. rewrite bool_decide_eq_false_2 by exact Hne. reflexivity.
  - exists family, subtype, (semicolon +:+ rest). split; [exact Hf|].
    split; [reflexivity|]. by rewrite !append_assoc.
Qed.

Section Getters.
Variable StringToNumber : string -> number.

(** X10. The content type of a stream is the raw content type without its
    parameters: the raw one begins with it; and it is in canonical form,
    that is, the pattern of content types matches it and yields it
    unchanged, so it can itself be given as a content type. *)
Theorem contentType_is_canonical (now : Z) (props : option (gmap string value))
    (s : Stream.SmartStream) :
  Stream.construct StringToNumber now props = Ok s ->
  Stream.exec1 (VStr (Stream._contentType s)) = Ok (Stream._contentType s) /\
  exists rest, Stream._contentTypeRaw s = VStr (Stream._contentType s +:+ rest).
Proof.
  intros [Hex _]%construct_well_formed.
  destruct (Stream._contentTypeRaw s) as [| | | |text]; try discriminate.
  simpl in Hex.
  destruct (Stream.CONTENT_TYPES_exec text) as [type|] eqn:Ht; [|discriminate].
  injection Hex as <-.
  destruct (exec_canonical _ _ Ht) as (Hc & family & subtype & rest & _ & _ & ->).
  simpl. rewrite Hc. eauto.
Qed.

(** X11. Every stream belongs to exactly one of the six families: of the
    getters isAppSpecific, isAudio, isImage, isMultipart, isText and isVideo
    exactly one is true, the one of the family its content type begins
    with. *)
Theorem exactly_one_family (now : Z) (props : option (gmap string value))
    (s : Stream.SmartStream) :
  Stream.construct StringToNumber now props = Ok s ->
  exists family subtype,
    family ∈ Stream.TYPES /\
    Stream._contentType s = family +:+ "/" +:+ subtype /\
    Design.families s = (fun ty => bool_decide (ty = family)) <$> Stream.TYPES.
Proof.
  intros [Hex _]%construct_well_formed.
  destruct (Stream._contentTypeRaw s) as [| | | |text]; try discriminate.
  simpl in Hex.
  destruct (Stream.CONTENT_TYPES_exec text) as [type|] eqn:Ht; [|discriminate].
  injection Hex as Hty.
  destruct (exec_canonical _ _ Ht) as (_ & family & subtype & rest & Hf & -> & _).
  exists family, subtype. split; [exact Hf|]. split; [by symmetry|].
  unfold Design.families, Stream.isAppSpecific, Stream.isAudio, Stream.isImage,
    Stream.isMultipart, Stream.isText, Stream.isVideo, Stream.startsWith.
  rewrite <- Hty. unfold Stream.TYPES in *.
  repeat (apply elem_of_cons in Hf as [->|Hf]);
    [reflexivity..|by apply elem_of_nil in Hf].
Qed.

End Getters.

(** ** Buffers and objects *)

Section BufferProperties.
Variable StringToNumber : string -> number.

(** What [fromBuffer] returns, when it returns: the instance made, after
    the buffer has passed through it and the input has ended. *)
Lemma fromBuffer_Ok (now : Z) (buf : Stream.chunk)
    (props : option (gmap string value)) (s : Stream.SmartStream) :
  Stream.fromBuffer StringToNumber now buf props = Ok s ->
  Stream.emitted (Stream.super s) = [Stream.EvData buf; Stream.EvEnd] /\
  Stream.state_of s = Stream.Flushed /\
  Stream._size s = Stream.byteLength buf /\
  Stream.exec1 (get (assign Stream.defaults props) "contentType") =
    Ok (Stream._contentType s) /\
  Stream._contentEncoding s = get (assign Stream.defaults props) "contentEncoding".
Proof.
  rewrite fromBuffer_unfold.
  set (P := _ ∪ assign Stream.defaults props).
  assert (get P "contentLength" = VNum (Finite (Stream.byteLength buf))) as Hcl
    by (subst P; rewrite get_length_props; reflexivity).
  assert (get P "limit" = VNum (Finite (Stream.byteLength buf))) as Hlim
    by (subst P; rewrite get_length_props; reflexivity).
  assert (get P "contentType" = get (assign Stream.defaults props) "contentType")
    as Hty by (subst P; rewrite get_length_props; reflexivity).
  assert (get P "contentEncoding" =
          get (assign Stream.defaults props) "contentEncoding")
    as Henc by (subst P; rewrite get_length_props; reflexivity).
  destruct (Stream.construct StringToNumber now (Some P)) as [s0|e] eqn:Hc;
    [|discriminate].
  intros [= <-].
  pose proof Hc as (p & [= <-] & Hv & Hi)%construct_Ok.
  apply validate_None in Hv as (_ & _ & Hle & _).
  apply initialize_Ok in Hi
    as (_ & _ & Hex & Hen & Hcl0 & _ & Hlim0 & _ & _ & Him & _).
  rewrite Hcl in Hcl0, Hle. rewrite Hlim in Hlim0.
  unfold Stream.num, ToNumber in Hcl0, Hle, Hlim0.
  assert (truthy (Finite (Stream.byteLength buf)) = true) as Htr
    by (by apply positive_truthy).
  rewrite Htr in Hcl0. unfold or_else in Hlim0. rewrite Htr in Hlim0.
  assert (Stream.immediate s0 = false) as Him0.
  { rewrite Him. unfold Stream.plus_contentLength. rewrite Hcl0, Hlim0.
    unfold gt. simpl. apply bool_decide_eq_false. lia. }
  destruct (construct_ready StringToNumber now _ s0 Hc Him0) as (Hr & Hsz & Hem).
  destruct (write_within s0 buf Hr) as (Hr1 & Hsz1 & Hem1 & _ & _ & Hcfg).
  { rewrite Hsz, Hlim0. unfold gt. simpl. apply bool_decide_eq_false. lia. }
  destruct (end_ready _ Hr1) as (Hst & Hsz2 & _ & Hem2 & Hcfg2).
  destruct Hcfg as (_ & Ht1 & He1 & _). destruct Hcfg2 as (_ & Ht2 & He2 & _).
  rewrite Hem2, Hem1, Hem, Hsz2, Hsz1, Hsz, Ht2, Ht1, He2, He1, Hen, <- Hty, <- Henc.
  split_and!; auto.
Qed.

End BufferProperties.


Section CollectProperties.
Variable StringToNumber : string -> number.
Variable decompressed : value -> list Stream.event -> list Stream.event.


End CollectProperties.

Lemma exec1_supported (T type : string) :
  T ∈ Design.SUPPORTED_TYPES -> Stream.exec1 (VStr T) = Ok type -> type = T.
Proof.
  unfold Design.SUPPORTED_TYPES. intros HT.
  repeat (apply elem_of_cons in HT as [->|HT]);
    [| | |by apply elem_of_nil in HT];
    vm_compute; congruence.
Qed.

Lemma DESERIALIZABLE_supported (v : value) :
  test Stream.DESERIALIZABLE_TYPES v = true ->
  exists T, v = VStr T /\ T ∈ Design.SUPPORTED_TYPES.
Proof.
  destruct v as [| | | |T]; try discriminate. simpl.
  intros H%bool_decide_eq_true. eauto.
Qed.

Section ObjectProperties.
Variable StringToNumber : string -> number.
Variable JSON_stringify : data -> result (option string).
Variable JSON_parse : string -> result data.
Variable msgpack_encode : data -> result Stream.chunk.
Variable msgpack_decode : Stream.chunk -> result data.
Variable qs_stringify : data -> string.
Variable qs_parse : string -> data.
Variable decompressed : value -> list Stream.event -> list Stream.event.

(** Deserializing the buffer that serializing made, for a value the codec
    gives back. *)
Lemma deserialize_serialized (T : string) (d : data) (buf : Stream.chunk) :
  T ∈ Design.SUPPORTED_TYPES ->
  Design.codec_round_trips JSON_stringify JSON_parse msgpack_encode
    msgpack_decode qs_stringify qs_parse T d ->
  Util.serialize JSON_stringify msgpack_encode qs_stringify (VStr T) d = Ok buf ->
  (~ (T = "application/json" /\ d = Prim (VStr "null")) ->
   Util.deserialize JSON_parse msgpack_decode qs_parse (VStr T) buf = Ok d) /\
  (T = "application/json" -> d = Prim (VStr "null") ->
   Util.deserialize JSON_parse msgpack_decode qs_parse (VStr T) buf =
   Ok (Prim VNull)).
Proof.
  intros HT (Hjson & Hmsgpack & Hqs).
  unfold Design.SUPPORTED_TYPES in HT.
  unfold Util.serialize, Util.deserialize.
  repeat (apply elem_of_cons in HT as [->|HT]); [| | |by apply elem_of_nil in HT].
  - destruct (Hjson eq_refl) as (text & -> & Hparse).
    change (strict_eq (VStr "application/json") (VStr "application/json")) with true.
    cbv iota. intros [= <-]. rewrite toString_Buffer_from, Hparse. split.
    + intros Hnot. destruct d as [v| |]; try reflexivity.
      destruct (strict_eq v (VStr "null")) eqn:Hv; [|reflexivity].
      apply strict_eq_VStr in Hv as ->. exfalso. apply Hnot. auto.
    + intros _ ->. reflexivity.
  - destruct (Hmsgpack eq_refl) as (buf' & -> & Hdecode).
    change (strict_eq (VStr "application/msgpack") (VStr "application/json"))
      with false.
    change (strict_eq (VStr "application/msgpack") (VStr "application/msgpack"))
      with true.
    cbv iota. intros [= <-]. split; [intros _; exact Hdecode|discriminate].
  - change (strict_eq (VStr "application/x-www-form-urlencoded")
              (VStr "application/json")) with false.
    change (strict_eq (VStr "application/x-www-form-urlencoded")
              (VStr "application/msgpack")) with false.
    change (strict_eq (VStr "application/x-www-form-urlencoded")
              (VStr "application/x-www-form-urlencoded")) with true.
    cbv iota. intros [= <-]. rewrite toString_Buffer_from, (Hqs eq_refl).
    split; [reflexivity|discriminate].
Qed.

(** X13. An object made into a stream comes back out of it: when
    [fromObject] returns a stream that is not compressed, and the codec of
    its content type gives the object back, [toObject] on that stream
    resolves with the object; except that under application/json the string
    "null" comes back as [null]. *)
Theorem fromObject_then_toObject (now : Z) (obj : data)
    (props : option (gmap string value)) (s : Stream.SmartStream) :
  Conversion.fromObject StringToNumber JSON_stringify msgpack_encode qs_stringify
    now obj props = Ok s ->
  Stream.isCompressed s = false ->
  Design.codec_round_trips JSON_stringify JSON_parse msgpack_encode
    msgpack_decode qs_stringify qs_parse (Stream._contentType s) obj ->
  Stream._contentType s ∈ Design.SUPPORTED_TYPES /\
  (~ (Stream._contentType s = "application/json" /\ obj = Prim (VStr "null")) ->
   Conversion.toObject JSON_parse msgpack_decode qs_parse decompressed s =
   Util.Resolved obj) /\
  (Stream._contentType s = "application/json" -> obj = Prim (VStr "null") ->
   Conversion.toObject JSON_parse msgpack_decode qs_parse decompressed s =
   Util.Resolved (Prim VNull)).
Proof.
  unfold Conversion.fromObject.
  set (P := assign _ props).
  destruct (test Stream.DESERIALIZABLE_TYPES (get P "contentType")) eqn:Ht;
    [|discriminate].
  destruct (DESERIALIZABLE_supported _ Ht) as (T & HT & Hsup).
  rewrite HT. cbn [negb].
  destruct (Util.serialize _ _ _ (VStr T) obj) as [buf|e] eqn:Hser; [|discriminate].
  intros Hfb Hcomp Hcodec.
  apply fromBuffer_Ok in Hfb as (Hem & _ & _ & Hex & _).
  assert (get (assign Stream.defaults (Some P)) "contentType" = VStr T) as HgT.
  { rewrite get_assign. unfold get in HT.
    destruct (P !! "contentType"); [exact HT|discriminate]. }
  rewrite HgT in Hex. apply (exec1_supported _ _ Hsup) in Hex.
  rewrite Hex in *.
  destruct (deserialize_serialized T obj buf Hsup Hcodec Hser) as [H1 H2].
  assert (Conversion.toBuffer decompressed true s = Util.Resolved buf) as Hb.
  { unfold Conversion.toBuffer. rewrite Hcomp, andb_false_r, Hem.
    unfold Util.streamToBuffer. simpl. by rewrite app_nil_r. }
  unfold Conversion.toObject. rewrite Hb, Hex.
  split_and!; [exact Hsup| |].
  - intros Hnot. by rewrite (H1 Hnot).
  - intros HTj Hnull. by rewrite (H2 HTj Hnull).
Qed.

(** X14. [fromObject] refuses, with a [TypeError] and before anything is
    serialized, every content type that is not one of the three
    deserializable ones; those are the types for which [serialize] and
    [deserialize] themselves throw the Unexpected fault of an unknown MIME
    type. *)
Theorem fromObject_refuses_unknown_types (now : Z) (obj : data)
    (props : option (gmap string value)) (buf : Stream.chunk) :
  let type :=
    get (assign {[ "contentType" := VStr "application/json";
                   "contentEncoding" := VStr "identity" ]} props)
        "contentType" in
  test Stream.DESERIALIZABLE_TYPES type = false ->
  Conversion.fromObject StringToNumber JSON_stringify msgpack_encode qs_stringify
    now obj props = Throw (TypeError (unknown_MIME_type type)) /\
  Util.serialize JSON_stringify msgpack_encode qs_stringify type obj =
    Throw (SmartStreamError.Unexpected (unknown_MIME_type type)) /\
  Util.deserialize JSON_parse msgpack_decode qs_parse type buf =
    Throw (SmartStreamError.Unexpected (unknown_MIME_type type)).
Proof.
  intros type Ht. unfold Conversion.fromObject. fold type. rewrite Ht.
  split; [reflexivity|].
  unfold Util.serialize, Util.deserialize.
  assert (forall T, T ∈ Design.SUPPORTED_TYPES -> strict_eq type (VStr T) = false)
    as Hne.
  { intros T HT. destruct (strict_eq type (VStr T)) eqn:He; [|reflexivity].
    apply strict_eq_VStr in He. rewrite He in Ht. simpl in Ht.
    apply bool_decide_eq_false in Ht. contradiction. }
  rewrite !Hne; [auto|unfold Design.SUPPORTED_TYPES; set_solver..].
Qed.

End ObjectProperties.

Lemma append_length_neq (a b : string) : b <> EmptyString -> a +:+ b <> a.
Proof.
  intros Hb H. apply (f_equal String.length) in H.
  rewrite length_append in H. destruct b; [contradiction|]. simpl in H. lia.
Qed.

(** A deserializable type followed by parameters. *)
Lemma exec_with_parameters (T params type : string) :
  T ∈ Design.SUPPORTED_TYPES ->
  Stream.CONTENT_TYPES_exec (T +:+ ";" +:+ params) = Some type -> type = T.
Proof.
  unfold Design.SUPPORTED_TYPES. intros HT.
  repeat (apply elem_of_cons in HT as [->|HT]); [| | |by apply elem_of_nil in HT].
  - change ("application/json" +:+ ";" +:+ params)
      with ("application" +:+ "/" +:+ ("json" +:+ String ";" params)).
    rewrite exec_from_family by (unfold Stream.TYPES; set_solver).
    rewrite span_app by reflexivity. simpl.
    match goal with |- (if ?b then _ else _) = _ -> _ => destruct b end;
      [intros [= <-]; reflexivity|discriminate].
  - change ("application/msgpack" +:+ ";" +:+ params)
      with ("application" +:+ "/" +:+ ("msgpack" +:+ String ";" params)).
    rewrite exec_from_family by (unfold Stream.TYPES; set_solver).
    rewrite span_app by reflexivity. simpl.
    match goal with |- (if ?b then _ else _) = _ -> _ => destruct b end;
      [intros [= <-]; reflexivity|discriminate].
  - change ("application/x-www-form-urlencoded" +:+ ";" +:+ params)
      with ("application" +:+ "/" +:+
            ("x-www-form-urlencoded" +:+ String ";" params)).
    rewrite exec_from_family by (unfold Stream.TYPES; set_solver).
    rewrite span_app by reflexivity. simpl.
    match goal with |- (if ?b then _ else _) = _ -> _ => destruct b end;
      [intros [= <-]; reflexivity|discriminate].
Qed.

Lemma DESERIALIZABLE_with_parameters (T rest : string) :
  T ∈ Design.SUPPORTED_TYPES -> rest <> EmptyString ->
  Stream.DESERIALIZABLE_TYPES (T +:+ rest) = false.
Proof.
  intros HT Hr. apply bool_decide_eq_false. intros H.
  fold Design.SUPPORTED_TYPES in H. unfold Design.SUPPORTED_TYPES in HT, H.
  repeat (apply elem_of_cons in HT as [->|HT]); [| | |by apply elem_of_nil in HT];
    repeat (apply elem_of_cons in H as [H|H]); try (by apply elem_of_nil in H);
    first [ by apply append_length_neq in H | discriminate H ].
Qed.

Section Parameters.
Variable StringToNumber : string -> number.
Variable JSON_stringify : data -> result (option string).
Variable msgpack_encode : data -> result Stream.chunk.
Variable qs_stringify : data -> string.

(** X15. A content type with parameters, as a Content-Type header has them
    (application/json; charset=utf-8), is deserializable for the getter but
    not for [fromObject]: the constructor strips the parameters, so a stream
    constructed with such a type has [isDeserializable] true; [fromObject]
    tests the type as given and throws the [TypeError] of an unknown MIME
    type. *)
Theorem parameters_defeat_fromObject (now now' : Z) (obj : data)
    (props : gmap string value) (T params : string) (s : Stream.SmartStream) :
  T ∈ Design.SUPPORTED_TYPES ->
  get props "contentType" = VStr (T +:+ ";" +:+ params) ->
  Stream.construct StringToNumber now (Some props) = Ok s ->
  Stream._contentType s = T /\
  Stream.isDeserializable s = true /\
  Conversion.fromObject StringToNumber JSON_stringify msgpack_encode qs_stringify
    now' obj (Some props) =
  Throw (TypeError (unknown_MIME_type (VStr (T +:+ ";" +:+ params)))).
Proof.
  intros HT Hg Hc.
  pose proof (construct_well_formed _ _ _ _ Hc) as [Hex _].
  apply construct_Ok in Hc as (p & [= <-] & _ & Hi).
  apply initialize_Ok in Hi as (_ & Hraw & _).
  rewrite Hraw, Hg in Hex. simpl in Hex.
  destruct (Stream.CONTENT_TYPES_exec _) as [type|] eqn:He; [|discriminate].
  injection Hex as Hty. apply (exec_with_parameters _ _ _ HT) in He. subst type.
  split; [by symmetry|]. split.
  - unfold Stream.isDeserializable. rewrite <- Hty.
    apply bool_decide_eq_true. exact HT.
  - unfold Conversion.fromObject.
    assert (get (assign {[ "contentType" := VStr "application/json";
                           "contentEncoding" := VStr "identity" ]} (Some props))
              "contentType" = VStr (T +:+ ";" +:+ params)) as ->.
    { rewrite get_assign. unfold get in Hg.
      destruct (props !! "contentType"); [exact Hg|discriminate]. }
    simpl. rewrite DESERIALIZABLE_with_parameters; [reflexivity|exact HT|discriminate].
Qed.

End Parameters.

(** ** Compression, paths and files *)

(** X16. [compress] and [decompress] know exactly the encodings the
    constructor accepts.  For any other type they throw the Unexpected fault
    of an unknown compression and leave the store as it is; for identity,
    gzip and deflate they do not throw; and for identity they hand back the
    very stream they were given, with nothing made and nothing piped. *)
Theorem compress_knows_the_encodings (type : value) (data : Util.source)
    (h : Heap.heap) :
  (test Stream.CONTENT_ENCODINGS type = false ->
   Util.compress type data h =
     (Throw (SmartStreamError.Unexpected (unknown_compression type)), h) /\
   Util.decompress type data h =
     (Throw (SmartStreamError.Unexpected (unknown_compression type)), h)) /\
  (test Stream.CONTENT_ENCODINGS type = true ->
   (exists r h', Util.compress type data h = (Ok r, h')) /\
   (exists r h', Util.decompress type data h = (Ok r, h'))) /\
  (forall r, data = inr r ->
   Util.compress (VStr "identity") data h = (Ok r, h) /\
   Util.decompress (VStr "identity") data h = (Ok r, h)).
Proof.
  split_and!.
  - intros Ht.
    assert (forall T, T ∈ ["identity"; "gzip"; "deflate"]%string ->
                      strict_eq type (VStr T) = false) as Hne.
    { intros T HT. destruct (strict_eq type (VStr T)) eqn:He; [|reflexivity].
      apply strict_eq_VStr in He. rewrite He in Ht. simpl in Ht.
      apply bool_decide_eq_false in Ht. contradiction. }
    unfold Util.compress, Util.decompress, Heap.bind, Heap.throw.
    rewrite !Hne by set_solver. auto.
  - intros Ht. destruct type as [| | | |T]; try discriminate. simpl in Ht.
    apply bool_decide_eq_true in Ht.
    repeat (apply elem_of_cons in Ht as [->|Ht]); [| | |by apply elem_of_nil in Ht];
      unfold Util.compress, Util.decompress;
      rewrite ?strict_eq_VStr_false by discriminate;
      rewrite ?(proj2 (strict_eq_VStr (VStr _) _) eq_refl);
      unfold Util.feed, Util.end_with, Heap.bind,
        Heap.alloc, Heap.ret, Heap.pipe, Heap.lookup, Heap.store;
      destruct data as [buf|r]; cbn;
      repeat match goal with
        | |- context [bool_decide ?P] => destruct (bool_decide P)
        | |- context [match ?l !! ?i with _ => _ end] => destruct (l !! i) as [[]|]
        end; cbn; split; eauto.
  - intros r ->.
    unfold Util.compress, Util.decompress.
    rewrite ?strict_eq_VStr_false by discriminate.
    rewrite ?(proj2 (strict_eq_VStr (VStr _) _) eq_refl).
    unfold Util.feed, Heap.bind, Heap.ret. cbn.
    rewrite bool_decide_eq_false_2 by (intros H; by apply H). auto.
Qed.

Lemma substring_prefix (a b : string) :
  substring 0 (String.length a) (a +:+ b) = a.
Proof.
  induction a as [|x a IH]; [by destruct b|].
  change (String x (substring 0 (String.length a) (a +:+ b)) = String x a).
  by f_equal.
Qed.

Lemma slice_off_suffix (base ext : string) :
  Util.slice_off (base +:+ ext) (String.length ext) = base.
Proof.
  unfold Util.slice_off. rewrite length_append.
  replace (String.length base + String.length ext - String.length ext)%nat
    with (String.length base) by lia.
  apply substring_prefix.
Qed.

Section PathProperties.
Variable extname : string -> string.
Variable mime_getType : string -> value.

(** X17. The encoding read off a path is always one the constructor
    accepts.  A path that ends in .gz or .deflate is gzip or deflate
    encoded, and its content type is that of the path without that
    extension; any other path is identity encoded and typed as it is. *)
Theorem compressed_extension_is_stripped (path base : string) :
  path = base +:+ extname path ->
  Stream.CONTENT_ENCODINGS (Util.getContentEncoding extname path) = true /\
  (extname path = ".gz" ->
   Util.getContentEncoding extname path = "gzip" /\
   Util.getContentType extname mime_getType path = mime_getType base) /\
  (extname path = ".deflate" ->
   Util.getContentEncoding extname path = "deflate" /\
   Util.getContentType extname mime_getType path = mime_getType base) /\
  (extname path <> ".gz" -> extname path <> ".deflate" ->
   Util.getContentEncoding extname path = "identity" /\
   Util.getContentType extname mime_getType path = mime_getType path).
Proof.
  intros Hp. unfold Util.getContentEncoding, Util.getContentType. cbv zeta.
  split_and!.
  - repeat case_bool_decide; reflexivity.
  - intros He. rewrite He in *. split; [reflexivity|].
    cbn [bool_decide orb]. rewrite Hp.
    by rewrite (slice_off_suffix base ".gz").
  - intros He. rewrite He in *. split; [reflexivity|].
    rewrite Hp. by rewrite (slice_off_suffix base ".deflate").
  - intros H1 H2. rewrite !bool_decide_eq_false_2 by assumption. auto.
Qed.

End PathProperties.

Section FileProperties.
Variable StringToNumber : string -> number.
Variable extname : string -> string.
Variable mime_getType : string -> value.

(** What [fromFile] does to the store: the read stream is made first, then
    the instance, if the constructor accepts the properties. *)
Lemma fromFile_unfold (path : string) (props : option (gmap string value))
    (h : Heap.heap) :
  Pipeline.fromFile StringToNumber extname mime_getType path props h =
  let derived : gmap string value :=
    {[ "contentType" := Util.getContentType extname mime_getType path;
       "contentEncoding" := VStr (Util.getContentEncoding extname path) ]} in
  let file := List.length (Heap.objects h) in
  match
    Stream.create StringToNumber (Heap.clock h) (Some (assign derived props))
  with
  | Ok s =>
      (Ok (S file),
       {| Heap.objects :=
            Heap.objects h ++ [Heap.ObjReadable; Heap.ObjSmartStream s];
          Heap.pipes := Heap.pipes h ++ [(file, S file)];
          Heap.once_error :=
            Heap.once_error h ++ [(file, S file); (S file, file)];
          Heap.clock := Heap.clock h |})
  | Throw e =>
      (Throw e,
       {| Heap.objects := Heap.objects h ++ [Heap.ObjReadable];
          Heap.pipes := Heap.pipes h;
          Heap.once_error := Heap.once_error h;
          Heap.clock := Heap.clock h |})
  end.
Proof.
  unfold Pipeline.fromFile, Heap.bind, Heap.alloc. cbv zeta.
  rewrite fromStream_unfold. cbv zeta.
  cbn [Heap.objects Heap.pipes Heap.once_error Heap.clock].
  rewrite list_lookup_middle by reflexivity.
  rewrite create_defaults.
  destruct (Stream.create StringToNumber (Heap.clock h) _) as [s|e];
    [|reflexivity].
  rewrite length_app. simpl. rewrite Nat.add_1_r, <- !app_assoc. reflexivity.
Qed.

(** X18. [fromFile] opens the file before the constructor checks the
    properties.  When the constructor refuses them, [fromFile] throws what
    the constructor throws and the read stream it opened stays behind:
    nothing is piped from it and no handler is attached to it.  That happens
    in particular for a path whose MIME type is unknown ([null]) when
    [props] names no content type. *)
Theorem fromFile_leaves_the_file_open (path : string)
    (props : option (gmap string value)) (h : Heap.heap) :
  (forall e h',
     Pipeline.fromFile StringToNumber extname mime_getType path props h =
       (Throw e, h') ->
     Heap.objects h' = Heap.objects h ++ [Heap.ObjReadable] /\
     Heap.pipes h' = Heap.pipes h /\
     Heap.once_error h' = Heap.once_error h) /\
  (Util.getContentType extname mime_getType path = VNull ->
   (forall o, props = Some o -> o !! "contentType" = None) ->
   exists h',
     Pipeline.fromFile StringToNumber extname mime_getType path props h =
       (Throw (TypeError (not_a_valid_MIME_type VNull)), h')).
Proof.
  rewrite fromFile_unfold. cbv zeta. split.
  - intros e h'. destruct (Stream.create _ _ _); [discriminate|].
    intros [= _ <-]. auto.
  - intros Hnull Hno. rewrite Hnull.
    set (P := assign _ props).
    assert (get (assign Stream.defaults (Some P)) "contentType" = VNull) as Hg.
    { rewrite get_assign. subst P. unfold assign.
      destruct props as [o|].
      - rewrite lookup_union, (Hno o eq_refl). reflexivity.
      - reflexivity. }
    unfold Stream.create, Stream.construct, Stream.validate. rewrite Hg. simpl.
    eauto.
Qed.

Lemma get_sized (size : Z) (props : option (gmap string value))
    (derived : gmap string value) (k : string) :
  get (assign Stream.defaults
         (Some (assign derived
                  (Some (assign (assign ∅ props)
                           (Some {[ "contentLength" := VNum (Finite size);
                                    "limit" := VNum (Finite size) ]})))))) k =
  if decide (k = "contentLength") then VNum (Finite size)
  else if decide (k = "limit") then VNum (Finite size)
  else get (assign Stream.defaults (Some (assign derived (Some (assign ∅ props))))) k.
Proof.
  unfold assign, get. rewrite !lookup_union, lookup_insert, lookup_singleton.
  repeat case_decide; subst; try congruence; simpl;
    repeat match goal with |- context [?m !! ?i] => destruct (m !! i) end;
    reflexivity.
Qed.

(** X19. [fromFileWithLength] and the size of the file.  When [stat] fails
    the promise is rejected with its error and nothing is made.  When it
    resolves, the stream it resolves with has the size of the file both as
    its content length and as its limit.  For an empty file the constructor
    refuses the properties, the length of 0 if nothing before it: a
    [TypeError] is thrown in the callback of [stat], where the promise
    cannot catch it, so the promise is neither resolved nor rejected; this
    for every [props]. *)
Theorem fromFileWithLength_sizes (path : string)
    (props : option (gmap string value)) (h : Heap.heap) :
  (forall err,
     Pipeline.fromFileWithLength StringToNumber extname mime_getType path props
       (Throw err) h = (Ok (Util.Rejected err), h)) /\
  (forall size p h',
     Pipeline.fromFileWithLength StringToNumber extname mime_getType path props
       (Ok size) h = (Ok p, h') ->
     exists r s,
       p = Util.Resolved r /\
       Heap.objects h' !! r = Some (Heap.ObjSmartStream s) /\
       Stream._contentLength s = Some (Finite size) /\
       Stream._limit s = Finite size) /\
  (exists m h',
     Pipeline.fromFileWithLength StringToNumber extname mime_getType path props
       (Ok 0) h = (Throw (TypeError m), h')).
Proof.
  split_and!.
  - reflexivity.
  - intros size p h'. unfold Pipeline.fromFileWithLength, Heap.bind.
    rewrite fromFile_unfold. cbv zeta. unfold Stream.create.
    match goal with |- context [Stream.construct _ _ (Some ?x)] => set (P := x) end.
    destruct (Stream.construct StringToNumber (Heap.clock h) (Some P))
      as [s|e] eqn:Hc; [|discriminate].
    unfold Heap.ret. intros [= <- <-].
    exists (S (List.length (Heap.objects h))), s. split; [reflexivity|]. split.
    { cbn [Heap.objects].
      change [Heap.ObjReadable; Heap.ObjSmartStream s]
        with ([Heap.ObjReadable] ++ [Heap.ObjSmartStream s]).
      rewrite app_assoc. apply list_lookup_middle.
      rewrite length_app. simpl. lia. }
    assert (get P "contentLength" = VNum (Finite size)) as Hcl
      by (subst P; rewrite get_sized; reflexivity).
    assert (get P "limit" = VNum (Finite size)) as Hlim
      by (subst P; rewrite get_sized; reflexivity).
    apply construct_Ok in Hc as (p & [= <-] & Hv & Hi).
    apply validate_None in Hv as (_ & _ & Hle & _).
    apply initialize_Ok in Hi as (_ & _ & _ & _ & Hcl0 & _ & Hlim0 & _).
    rewrite Hcl in Hcl0, Hle. rewrite Hlim in Hlim0.
    unfold Stream.num, ToNumber in Hcl0, Hle, Hlim0.
    assert (truthy (Finite size) = true) as Htr by (by apply positive_truthy).
    rewrite Htr in Hcl0. unfold or_else in Hlim0. rewrite Htr in Hlim0. auto.
  - unfold Pipeline.fromFileWithLength, Heap.bind.
    rewrite fromFile_unfold. cbv zeta. unfold Stream.create.
    match goal with |- context [Stream.construct _ _ (Some ?x)] => set (P := x) end.
    assert (get P "contentLength" = VNum (Finite 0)) as Hcl
      by (subst P; rewrite get_sized; reflexivity).
    destruct (malformed_validate StringToNumber P) as [m Hm].
    { eapply Design.non_positive_length; [exact Hcl|reflexivity]. }
    rewrite (construct_validate StringToNumber _ P _ Hm). eauto.
Qed.

End FileProperties.

(** ** How late a timeout can be *)

(** One millisecond of a running timer: it fires, or it runs on. *)
Lemma run_due_running (c t : Z) (tm : Timer.SmartTimer) :
  Design.running c t tm -> 0 < t ->
  exists tm' fired,
    Timer.run_due (c + 1) tm = (tm', fired) /\
    Timer.interval tm' = Timer.interval tm /\
    (fired = None -> Design.running (c + 1) t tm').
Proof.
  destruct tm as [to iv ht gt0 ha la d]. unfold Design.running. simpl.
  intros (-> & -> & Hla & g & h & [= ->] & [= ->] & Hg & Hh) Ht.
  pose proof (delay_bounds (t - (c + 1 - la))) as Hd1.
  pose proof (delay_bounds (t - (c + 1 - (c + 1)))) as Hd2.
  assert (1 <= Timers.delay iv) as Hdi.
  { destruct iv as [| |z|]; simpl; try lia. case_bool_decide; lia. }
  unfold Timer.run_due, Timer._onTimeout, Timer._onInterval, Timer.destroy.
  cbn -[Timers.delay Z.sub Z.add].
  destruct (bool_decide (h <= c + 1)) eqn:Hdh;
    [apply bool_decide_eq_true in Hdh|apply bool_decide_eq_false in Hdh];
    destruct (bool_decide (g <= c + 1)) eqn:Hdg;
    [apply bool_decide_eq_true in Hdg|apply bool_decide_eq_false in Hdg
    |apply bool_decide_eq_true in Hdg|apply bool_decide_eq_false in Hdg];
    destruct ha; cbn -[Timers.delay Z.sub Z.add];
    repeat match goal with
      | |- context [bool_decide ?P] =>
          let H := fresh "Hb" in
          destruct (bool_decide P) eqn:H;
          [apply bool_decide_eq_true in H|apply bool_decide_eq_false in H];
          cbn -[Timers.delay Z.sub Z.add]
      end;
    eexists _, _; (split; [reflexivity|]); (split; [reflexivity|]);
    intros Hf; try discriminate Hf; clear Hf; cbn -[Timers.delay Z.sub Z.add];
    split_and!; try reflexivity; try lia;
    eexists _, _; split_and!; try reflexivity; try lia.
Qed.

(** One millisecond of a running timer that has seen activity: it does not
    fire; it records the activity, or waits for the handle that will. *)
Lemma run_due_active (c t : Z) (tm : Timer.SmartTimer) (g : Z) :
  Design.running c t tm -> 0 < t ->
  Timer._hadActivity tm = true ->
  Timer._intervalTimer tm = Some g ->
  exists tm',
    Timer.run_due (c + 1) tm = (tm', None) /\
    Design.running (c + 1) t tm' /\
    Timer.interval tm' = Timer.interval tm /\
    (Timer._hadActivity tm' = false \/
     Timer._hadActivity tm' = true /\ Timer._intervalTimer tm' = Some g /\
     c + 1 < g).
Proof.
  intros Hr Ht Ha Hg.
  destruct (run_due_running c t tm Hr Ht) as (tm' & fired & Hrun & Hiv & Hnext).
  destruct tm as [to iv ht gt0 ha la d]. unfold Design.running in Hr.
  simpl in *. subst ha gt0.
  destruct Hr as (-> & -> & Hla & g' & h & [= <-] & [= ->] & Hgb & Hh).
  revert Hrun.
  unfold Timer.run_due, Timer._onTimeout, Timer._onInterval, Timer.destroy.
  cbn -[Timers.delay Z.sub Z.add].
  destruct (bool_decide (h <= c + 1)) eqn:Hdh;
    cbn -[Timers.delay Z.sub Z.add].
  - rewrite bool_decide_eq_true_2 by lia. cbn -[Timers.delay Z.sub Z.add].
    destruct (bool_decide (g <= c + 1)); cbn -[Timers.delay Z.sub Z.add];
      intros [= <- <-]; eexists; (split; [reflexivity|]);
      (split; [by apply Hnext|]); auto.
  - destruct (bool_decide (g <= c + 1)) eqn:Hdg;
      cbn -[Timers.delay Z.sub Z.add];
      intros [= <- <-]; eexists; (split; [reflexivity|]);
      (split; [by apply Hnext|]); simpl; auto.
    apply bool_decide_eq_false in Hdg. split; [reflexivity|].
    right. split_and!; auto. lia.
Qed.

(** A stream with a running timer records its activity within the interval,
    with nothing else happening to it. *)
Lemma activity_settles (m : nat) (t : Z) :
  0 < t ->
  forall (c : Z) (s : Stream.SmartStream) (tm : Timer.SmartTimer) (g : Z),
    Stream._timer s = Some (Stream.Smart tm) ->
    Design.running c t tm ->
    Timer._intervalTimer tm = Some g ->
    g <= c + Z.of_nat m ->
    exists (k : nat) tm',
      (k <= m)%nat /\
      Stream.run {| Stream.clock := c; Stream.stream := s |}
        (replicate k Stream.ActElapse) =
      {| Stream.clock := c + Z.of_nat k;
         Stream.stream := Stream.with_timer s (Some (Stream.Smart tm')) |} /\
      Design.running (c + Z.of_nat k) t tm' /\
      Timer._hadActivity tm' = false /\
      Timer.interval tm' = Timer.interval tm.
Proof.
  intros Ht. induction m as [|m IH]; intros c s tm g Htm Hr Hg Hm.
  - destruct Hr as (_ & _ & _ & g' & h & Hg' & _ & Hgb & _).
    rewrite Hg in Hg'. injection Hg' as <-. lia.
  - destruct (Timer._hadActivity tm) eqn:Ha.
    + destruct (run_due_active c t tm g Hr Ht Ha Hg)
        as (tm1 & Hrun & Hr1 & Hiv1 & [Ha1|(Ha1 & Hg1 & Hlt)]).
      * exists 1%nat, tm1. split; [lia|].
        cbn [replicate Stream.run fold_left Stream.step Stream.clock Stream.stream].
        rewrite (run_timers_quiet _ _ _ _ Htm Hrun). auto.
      * destruct (IH (c + 1) (Stream.with_timer s (Some (Stream.Smart tm1))) tm1 g)
          as (k & tm' & Hk & Hrun' & Hr' & Ha' & Hiv');
          [reflexivity|exact Hr1|exact Hg1|lia|].
        exists (S k), tm'. split; [lia|].
        cbn [replicate Stream.run fold_left Stream.step Stream.clock Stream.stream].
        rewrite (run_timers_quiet _ _ _ _ Htm Hrun).
        fold (Stream.run {| Stream.clock := c + 1;
                            Stream.stream :=
                              Stream.with_timer s (Some (Stream.Smart tm1)) |}
                (replicate k Stream.ActElapse)).
        rewrite Hrun', with_timer_twice.
        replace (c + 1 + Z.of_nat k) with (c + Z.of_nat (S k)) in * by lia.
        split_and!; auto. congruence.
    + exists 0%nat, tm. split; [lia|]. simpl. rewrite Z.add_0_r.
      split_and!; auto.
      f_equal. destruct s. simpl in Htm. subst. reflexivity.
Qed.

Lemma destroy_timed (c t : Z) (s : Stream.SmartStream) (err : option exn)
    (tm : Timer.SmartTimer) :
  Stream._timer s = Some (Stream.Smart tm) ->
  Timer.interval tm = Stream._interval s ->
  Design.timed c t (Stream.destroy s err).
Proof.
  unfold Stream.destroy. intros Htm Hiv.
  destruct s as [[d e en wr em] raw ty enc cl sz lim to iv tmr im].
  simpl in *. subst tmr. unfold Design.timed, Design.settled.
  destruct d; [exists tm; simpl; auto|].
  exists (Timer.destroy tm).
  destruct err as [err|], cl; cbn -[isSmartStreamError];
    try destruct (isSmartStreamError err); cbn; auto.
Qed.

(** Every step keeps a stream timed. *)
Lemma step_timed (w : Stream.world) (a : Stream.action) (t : Z) :
  0 < t ->
  Design.timed (Stream.clock w) t (Stream.stream w) ->
  Design.timed (Stream.clock (Stream.step w a)) t (Stream.stream (Stream.step w a)).
Proof.
  destruct w as [c s]. intros Ht HT.
  destruct a as [ch| |err| |]; cbn [Stream.step Stream.stream Stream.clock] in *.
  - unfold Stream.write.
    destruct (Stream.destroyed (Stream.super s)) eqn:Hd; [exact HT|].
    destruct HT as (tm & Htm & Hiv & Hor).
    destruct (Stream.ended (Stream.super s)) eqn:He; [by eapply destroy_timed|].
    destruct (Stream.writing (Stream.super s)) eqn:Hw; [by exists tm|].
    destruct Hor as [Hs|Hr].
    { unfold Design.settled in Hs. rewrite Hd, He in Hs.
      destruct Hs as [?|[? _]]; discriminate. }
    unfold Stream.transform.
    destruct s as [[d e en wr em] raw ty enc cl sz lim to iv tmr im].
    simpl in Hd, He, Hw, Htm, Hiv. subst d en wr tmr.
    cbn -[gt Stream.destroy Timer.touch].
    destruct (gt (Finite (sz + Stream.byteLength ch)) lim).
    + by eapply destroy_timed.
    + unfold Timer.touch. destruct Hr as (Hdt & Hr). rewrite Hdt. cbn.
      eexists. split; [reflexivity|]. split; [exact Hiv|]. right.
      unfold Design.running. simpl. auto.
  - unfold Stream.end_.
    destruct (Stream.destroyed (Stream.super s)) eqn:Hd; [exact HT|].
    destruct (Stream.ended (Stream.super s)) eqn:He; [exact HT|].
    cbn [orb].
    destruct HT as (tm & Htm & Hiv & [Hs|Hr]).
    { unfold Design.settled in Hs. rewrite Hd, He in Hs.
      destruct Hs as [?|[? _]]; discriminate. }
    destruct s as [[d e en wr em] raw ty enc cl sz lim to iv tmr im].
    simpl in Hd, He, Htm, Hiv. subst d en tmr.
    destruct wr.
    + exists tm. split_and!; [reflexivity|exact Hiv|right; exact Hr].
    + exists (Timer.destroy tm). unfold Design.settled.
      destruct cl; cbn; split_and!; auto.
  - destruct HT as (tm & Htm & Hiv & _). by eapply destroy_timed.
  - unfold Stream.run_immediate. destruct (Stream.immediate s) eqn:Him;
      [|exact HT].
    destruct HT as (tm & Htm & Hiv & _).
    apply (destroy_timed _ _ _ _ tm); by destruct s.
  - unfold Stream.run_timers.
    destruct HT as (tm & Htm & Hiv & Hor). rewrite Htm.
    pose proof (run_due_config (c + 1) tm) as [_ Hiv'].
    destruct (Timer.run_due (c + 1) tm) as [tm' fired] eqn:Hrun.
    simpl in Hiv'.
    assert (Design.settled (Stream.with_timer s (Some (Stream.Smart tm'))) <->
            Design.settled s) as Hset.
    { destruct s as [[d e en wr em] raw ty enc cl sz lim to iv tmr im].
      reflexivity. }
    assert (Stream._interval (Stream.with_timer s (Some (Stream.Smart tm'))) =
            Stream._interval s) as Hivs by (by destruct s).
    destruct fired as [duration|].
    + apply (destroy_timed _ _ _ _ tm'); [reflexivity|congruence].
    + exists tm'. split; [reflexivity|]. split; [congruence|].
      destruct Hor as [Hs|Hr]; [left; by apply Hset|].
      destruct (run_due_running c t tm Hr Ht) as (tm'' & fired & Hrun' & _ & Hn).
      rewrite Hrun in Hrun'. injection Hrun' as <- <-. right. by apply Hn.
Qed.

Lemma run_app (w : Stream.world) (l1 l2 : list Stream.action) :
  Stream.run w (l1 ++ l2) = Stream.run (Stream.run w l1) l2.
Proof. apply fold_left_app. Qed.

(** What [destroy] with a fault of the stream's own class does to a stream
    that is not destroyed. *)
Lemma destroy_with_fault (s : Stream.SmartStream) (e : exn) :
  Stream.destroyed (Stream.super s) = false ->
  isSmartStreamError e = true ->
  Stream.errored (Stream.super (Stream.destroy s (Some e))) = Some e /\
  Stream.emitted (Stream.super (Stream.destroy s (Some e))) =
    Stream.emitted (Stream.super s) ++ [Stream.EvError e; Stream.EvClose].
Proof.
  unfold Stream.destroy. intros Hd He. rewrite Hd.
  destruct s as [[d er en wr em] raw ty enc cl sz lim to iv tmr im].
  destruct cl; cbn -[isSmartStreamError]; rewrite He; cbn;
    rewrite <- app_assoc; auto.
Qed.

Section Latency.
Variable StringToNumber : string -> number.

Lemma construct_timed (now : Z) (props : option (gmap string value))
    (s : Stream.SmartStream) (t : Z) :
  Stream.construct StringToNumber now props = Ok s ->
  Stream.immediate s = false ->
  Stream._timeout s = Finite t ->
  0 < t ->
  Design.timed now t s.
Proof.
  intros Hc Him Hto Ht.
  apply construct_Ok in Hc as (p & -> & _ & Hi).
  apply initialize_Ok in Hi as (_ & _ & _ & _ & _ & _ & _ & _ & _ & _ & Htm).
  rewrite Him, Hto in Htm.
  assert (strict_eq (VNum (Finite t)) (VNum (Finite 0)) = false) as Hz.
  { simpl. apply bool_decide_eq_false. lia. }
  rewrite Hz in Htm. destruct Htm as (tm & Hnew & Htimer).
  unfold Timer.new in Hnew.
  repeat match type of Hnew with (if ?b then _ else _) = _ =>
    destruct b; [discriminate|] end.
  assert (tm = {| Timer.timeout := Finite t;
                  Timer.interval := Stream._interval s;
                  Timer._timeoutTimer := Some (now + Timers.delay (Finite t));
                  Timer._intervalTimer :=
                    Some (now + Timers.delay (Stream._interval s));
                  Timer._hadActivity := false;
                  Timer._lastActivity := now;
                  Timer._destroyed := false |}) as -> by congruence.
  clear Hnew.
  pose proof (delay_bounds t) as Hd.
  assert (1 <= Timers.delay (Stream._interval s)) as Hdi.
  { destruct (Stream._interval s) as [| |z|]; simpl; try lia.
    destruct (bool_decide _) eqn:Hb; [apply bool_decide_eq_true in Hb|]; lia. }
  eexists. split; [exact Htimer|]. split; [reflexivity|]. right.
  unfold Design.running. cbn -[Timers.delay].
  split_and!; try reflexivity; try lia.
  eexists _, _. split_and!; try reflexivity; lia.
Qed.

(** X20. Silence is detected, and in bounded time.  Take a stream made with
    a timeout of [t] ms, [t] above 0, and no declared length above its
    limit, at any moment of its life when it is neither destroyed nor
    flushed: if nothing is done to it from then on, it is
    destroyed with a TimedOut fault of duration [t], followed by 'close',
    after at most [t] ms plus one interval (the interval as the runtime
    keeps it).  The timer checks the clock once per interval, and that is
    all it costs in precision. *)
Theorem silence_is_detected (now : Z) (props : option (gmap string value))
    (s0 : Stream.SmartStream) (t : Z) (acts : list Stream.action) :
  Stream.construct StringToNumber now props = Ok s0 ->
  Stream.immediate s0 = false ->
  Stream._timeout s0 = Finite t ->
  0 < t ->
  let w := Stream.run {| Stream.clock := now; Stream.stream := s0 |} acts in
  let s := Stream.stream w in
  Stream.destroyed (Stream.super s) = false ->
  Stream.ended (Stream.super s) = false \/ Stream.writing (Stream.super s) = true ->
  exists n : nat,
    0 < Z.of_nat n <= Timers.delay (Stream._interval s0) + t /\
    let s' :=
      Stream.stream
        (Stream.run {| Stream.clock := Stream.clock w; Stream.stream := s |}
           (replicate n Stream.ActElapse)) in
    Stream.errored (Stream.super s') = Some (Design.timed_out t) /\
    Stream.emitted (Stream.super s') =
      Stream.emitted (Stream.super s) ++
      [Stream.EvError (Design.timed_out t); Stream.EvClose].
Proof.
  intros Hc Him Hto Ht w s Hd Hopen.
  assert (Design.timed (Stream.clock w) t s) as HT.
  { subst s w. clear Hd Hopen.
    induction acts as [|a acts IH] using rev_ind.
    - by apply (construct_timed now props).
    - rewrite run_app. by apply step_timed. }
  pose proof (after_config now s0 acts) as (_ & _ & _ & _ & _ & Hiv0).
  unfold Design.after in Hiv0. fold w in Hiv0. fold s in Hiv0.
  destruct HT as (tm & Htm & Hiv & [Hs|Hr]).
  { unfold Design.settled in Hs. rewrite Hd in Hs.
    destruct Hs as [?|[He Hw]]; [discriminate|].
    destruct Hopen; congruence. }
  set (c := Stream.clock w) in *.
  pose proof Hr as (_ & _ & _ & g & h0 & Hg & _ & Hgb & _).
  destruct (activity_settles (Z.to_nat (Timers.delay (Timer.interval tm))) t Ht
              c s tm g Htm Hr Hg) as (k & tm1 & Hk & Hrun1 & Hr1 & Ha1 & Hiv1);
    [lia|].
  destruct Hr1 as (Hd1 & Hto1 & Hl1 & g1 & h1 & Hg1 & Hh1 & Hgb1 & Hhb1).
  set (c1 := c + Z.of_nat k) in *.
  set (L := Timer._lastActivity tm1) in *.
  set (n2 := Z.to_nat (L + t - c1 - 1)).
  destruct (idle_waits n2 c1 (Stream.with_timer s (Some (Stream.Smart tm1)))
              tm1 t h1)
    as (tm2 & h2 & Hrun2 & Ha2 & Hl2 & Hto2 & Hh2 & Hhb2);
    [reflexivity|exact Ha1|exact Hto1|exact Hh1|lia|subst n2; fold L; lia|].
  fold L in Hl2, Hhb2. rewrite with_timer_twice in Hrun2.
  destruct (run_due_idle (L + t) tm2 t h2 Ha2 Hto2 Hh2) as [_ Hfire];
    [rewrite Hl2; subst n2; lia|].
  destruct Hfire as [tm3 Hfire]; [by rewrite Hl2|].
  exists (k + (n2 + 1))%nat. split.
  { assert (Stream._interval s0 = Timer.interval tm) as -> by congruence.
    subst n2 c1. lia. }
  cbv zeta. rewrite replicate_add, run_app, Hrun1.
  rewrite replicate_add, run_app, Hrun2.
  cbn [replicate Stream.run fold_left Stream.step Stream.clock Stream.stream].
  replace (c1 + Z.of_nat n2 + 1) with (L + t) by (subst n2; lia).
  unfold Stream.run_timers. cbn [Stream._timer Stream.with_timer].
  rewrite Hfire, with_timer_twice.
  destruct (destroy_with_fault
              (Stream.with_timer s (Some (Stream.Smart tm3)))
              (SmartStreamError.TimedOut {[ "duration" := VNum (Finite t) ]}))
    as [H1 H2]; [exact Hd|reflexivity|].
  split; [exact H1|exact H2].
Qed.

End Latency.

(** ** A stream with no timer *)

Section NoTimer.
Variable StringToNumber : string -> number.

(** X21. A stream whose declared length exceeds its limit has no timer (see
    C5), and its transform callback touches the timer without looking: a
    chunk written to such a stream before its fault is signalled, and small
    enough for the limit, makes [write] throw the [TypeError] of reading
    [touch] of [undefined].  The chunk is counted but not passed on, the
    writable side is left in the middle of that write, so that no later
    chunk is taken and [end] flushes nothing; the TooLarge fault still
    comes with the next turn of the event loop. *)
Theorem writing_before_the_fault_throws (now : Z)
    (props : option (gmap string value)) (s : Stream.SmartStream)
    (c : Stream.chunk) :
  Stream.construct StringToNumber now props = Ok s ->
  Stream.immediate s = true ->
  gt (Finite (Stream.byteLength c)) (Stream._limit s) = false ->
  let s' := Stream.write s c in
  Stream.emitted (Stream.super s') =
    [Stream.EvThrown (TypeError (cannot_read_property "touch"))] /\
  Stream._size s' = Stream.byteLength c /\
  (forall c', Stream.write s' c' = s') /\
  Stream.emitted (Stream.super (Stream.end_ s')) = Stream.emitted (Stream.super s') /\
  Stream.state_of (Stream.end_ s') = Stream.Open /\
  Stream.errored (Stream.super (Stream.run_immediate (Stream.end_ s'))) =
    Some (SmartStreamError.TooLarge (Stream.toJSON s)).
Proof.
  intros Hc Him Hgt.
  apply construct_Ok in Hc as (p & -> & _ & Hi).
  apply initialize_Ok in Hi
    as (Hf & _ & _ & _ & _ & Hsz & _ & _ & _ & _ & Htm).
  rewrite Him in Htm.
  destruct s as [[d e en wr em] raw ty enc cl sz lim to iv tm im].
  simpl in *. injection Hf as -> -> -> -> ->. subst sz tm im.
  unfold Stream.write, Stream.transform. cbn -[gt Stream.toJSON].
  change (0 + Stream.byteLength c) with (Stream.byteLength c).
  rewrite Hgt. cbn -[gt Stream.toJSON]. split_and!; reflexivity.
Qed.

End NoTimer.

(** ** The error class *)

(** X22. What a helper of an error class makes.  The instance has the
    message and the code of the helper, and of the getters [is<Code>] the one
    of that code alone is true.  Its stack is always the one the runtime
    captures: the constructor can take a stack from a string passed as
    cause, but it refuses a cause that is not an [Error] first, so a string
    cause never gets that far; a helper called with one throws. *)
Theorem a_helper_never_sets_the_stack (message code : string)
    (metadata cause : ErrorClass.arg) :
  (forall i,
     ErrorClass.helper message code metadata cause = inl i ->
     ErrorClass.the_message i = message /\
     ErrorClass.the_code i = ErrorClass.Str code /\
     (forall c, ErrorClass.is_code i c = true <-> c = code) /\
     ErrorClass.the_stack i = None /\
     (ErrorClass.the_cause i = ErrorClass.Nullish \/
      exists e, ErrorClass.the_cause i = ErrorClass.Err e)) /\
  (forall s,
     cause = ErrorClass.Str s ->
     exists r, ErrorClass.helper message code metadata cause = inr r).
Proof.
  unfold ErrorClass.helper, ErrorClass.construct, ErrorClass.is_code.
  cbn -[bool_decide]. split.
  - intros i.
    destruct (bool_decide (16 < String.length code)%nat); [discriminate|].
    destruct cause as [|s|e|]; cbn; try discriminate;
      destruct metadata as [|s'|e'|]; cbn; intros [= <-]; cbn;
      (split_and!; eauto;
       intros c; rewrite bool_decide_eq_true; split; congruence).
  - intros s ->. destruct (bool_decide _); cbn; eauto.
Qed.

(** X23. An [Error] passed to a helper in the place of the metadata becomes
    the cause of the instance, which then has no metadata; and a cause
    passed along with it is lost: the constructor moves it to the stack,
    where only a string is kept. *)
Theorem an_Error_as_metadata_becomes_the_cause (message code : string)
    (e : exn) (cause : ErrorClass.arg) :
  (String.length code <= 16)%nat ->
  cause = ErrorClass.Nullish \/ (exists e', cause = ErrorClass.Err e') ->
  ErrorClass.helper message code (ErrorClass.Err e) cause =
  inl {| ErrorClass.the_message := message;
         ErrorClass.the_code := ErrorClass.Str code;
         ErrorClass.the_metadata := ErrorClass.Nullish;
         ErrorClass.the_cause := ErrorClass.Err e;
         ErrorClass.the_stack := None |}.
Proof.
  intros Hlen Hc.
  unfold ErrorClass.helper, ErrorClass.construct.
  cbn -[bool_decide]. rewrite bool_decide_eq_false_2 by lia.
  destruct Hc as [->|[e' ->]]; reflexivity.
Qed.

(** ** The further properties at concrete inputs *)

(** With a limit of 10, three chunks of 4 bytes: two are passed on, 8 bytes
    in all, and the third is the fault. *)
Lemma never_passes_more_than_the_limit_witness :
  exists s,
    Stream.construct Codecs.StringToNumber 0 (Some Examples.ten) = Ok s /\
    let acts := Stream.ActWrite <$> replicate 3 Examples.four in
    Design.total (Design.data_of (Design.log 0 s acts)) = 8 /\
    le (Finite (Design.total (Design.data_of (Design.log 0 s acts))))
       (Stream._limit s) = true /\
    Design.total (Design.data_of (Design.log 0 s acts)) <=
      Stream._size (Design.after 0 s acts).
Proof.
  eexists. split; [vm_compute; reflexivity|]. cbv zeta.
  split; [vm_compute; reflexivity|].
  apply (never_passes_more_than_the_limit Codecs.StringToNumber 0
           (Some Examples.ten)).
  vm_compute. reflexivity.
Defined.


(** A timer of 500 ms made at 0 and left alone: at 500 its timeout handler
    reports 500 ms and destroys it. *)
Lemma timeout_event_is_late_and_final_witness :
  exists t t',
    Timer.new 0 (Finite 500) (Finite 100) = Ok t /\
    Timer._onTimeout 500 t = (t', Some 500) /\
    isNaN (Timer.timeout t) = false /\
    ge (Finite 500) (Timer.timeout t) = true /\
    500 = 500 - Timer._lastActivity t' /\
    Timer._destroyed t' = true /\
    Timer._timeoutTimer t' = None /\
    Timer._intervalTimer t' = None /\
    Timer.touch t' = Throw (Error timer_already_destroyed) /\
    forall later, Timer.run_due later t' = (t', None).
Proof.
  eexists _, _. split; [vm_compute; reflexivity|].
  split; [vm_compute; reflexivity|]. split; [reflexivity|].
  apply (timeout_event_is_late_and_final 500); reflexivity.
Defined.

(** A stream that took four bytes and was ended has no timer running, and an
    hour later it is the same. *)
Lemma no_timer_is_left_running_witness :
  exists s,
    Stream.construct Codecs.StringToNumber 0 (Some Examples.json) = Ok s /\
    let s' := Design.after 0 s [Stream.ActWrite Examples.four; Stream.ActEnd] in
    Stream.state_of s' = Stream.Flushed /\
    Design.stopped s' /\
    forall (n : nat) (clk : Z),
      Stream.run {| Stream.clock := clk; Stream.stream := s' |}
        (replicate n Stream.ActElapse) =
      {| Stream.clock := clk + Z.of_nat n; Stream.stream := s' |}.
Proof.
  eexists. split; [vm_compute; reflexivity|]. cbv zeta.
  split; [vm_compute; reflexivity|].
  apply (no_timer_is_left_running Codecs.StringToNumber 0 (Some Examples.json)).
  - vm_compute. reflexivity.
  - right. vm_compute. reflexivity.
Defined.

(** With a timeout of 500 ms and an interval of 100 ms, a stream left alone
    is open and silent at 499 ms and timed out at 500. *)
Lemma times_out_when_idle_witness :
  exists s,
    Stream.construct Codecs.StringToNumber 0 (Some Examples.half_second) = Ok s /\
    Stream.immediate s = false /\
    Stream._timeout s = Finite 500 /\
    Design.log 0 s (replicate 499 Stream.ActElapse) = [] /\
    Design.log 0 s (replicate (Z.to_nat 500) Stream.ActElapse) =
      [Stream.EvError (Design.timed_out 500); Stream.EvClose].
Proof.
  eexists. split; [vm_compute; reflexivity|].
  do 2 (split; [reflexivity|]).
  match goal with |- Design.log 0 ?s _ = _ /\ _ =>
    destruct (times_out_when_idle Codecs.StringToNumber 0
                (Some Examples.half_second) s 500) as (Hq & Hlog & _)
  end.
  - vm_compute. reflexivity.
  - reflexivity.
  - reflexivity.
  - lia.
  - split; [|exact Hlog]. apply (Hq 499%nat). lia.
Defined.

(** A timeout of 500 ms: 300 ms pass, a chunk is written, and during the
    499 ms after it nothing happens to the stream. *)
Lemma a_chunk_postpones_the_timeout_witness :
  exists s0,
    Stream.construct Codecs.StringToNumber 0 (Some Examples.half_second) = Ok s0 /\
    let w := Stream.run {| Stream.clock := 0; Stream.stream := s0 |}
               (replicate 300 Stream.ActElapse) in
    let s := Stream.write (Stream.stream w) Examples.four in
    let s' :=
      Stream.stream
        (Stream.run {| Stream.clock := Stream.clock w; Stream.stream := s |}
           (replicate 499 Stream.ActElapse)) in
    Stream.clock w = 300 /\
    Stream.super s' = Stream.super s /\
    Stream.destroyed (Stream.super s') = false /\
    Stream._size s' = Stream._size s.
Proof.
  eexists. split; [vm_compute; reflexivity|]. cbv zeta.
  split; [vm_compute; reflexivity|].
  apply (a_chunk_postpones_the_timeout Codecs.StringToNumber 0
           (Some Examples.half_second) _ 500 (replicate 300 Stream.ActElapse)
           Examples.four 499).
  - vm_compute. reflexivity.
  - reflexivity.
  - vm_compute. reflexivity.
  - lia.
Defined.

(** A timeout of 500 ms given without an interval passes the guards and is
    refused by the timer: the default interval of 1000 ms exceeds it. *)
Lemma construct_after_guards_witness :
  Stream.validate Codecs.StringToNumber (Some Examples.hasty) = None /\
  Stream.construct Codecs.StringToNumber 0 (Some Examples.hasty) =
    Throw (Error (interval_exceeds_timeout (Finite 1000) (Finite 500))).
Proof.
  assert (Stream.validate Codecs.StringToNumber (Some Examples.hasty) = None)
    as Hv by (vm_compute; reflexivity).
  split; [exact Hv|].
  pose proof (construct_after_guards Codecs.StringToNumber 0 Examples.hasty Hv)
    as H.
  cbv zeta in H. destruct H as (_ & _ & _ & H).
  apply H.
  - vm_compute. reflexivity.
  - vm_compute. discriminate.
  - vm_compute. reflexivity.
Defined.

(** The header of a stream that took four bytes makes a stream with the same
    header. *)
Lemma toJSON_is_acceptable_props_witness :
  exists s0,
    Stream.construct Codecs.StringToNumber 0 (Some Examples.ten) = Ok s0 /\
    let s := Design.after 0 s0 [Stream.ActWrite Examples.four] in
    exists s2,
      Stream.construct Codecs.StringToNumber 7 (Some (Stream.toJSON s)) = Ok s2 /\
      Stream.toJSON s2 = Stream.toJSON s /\
      Stream._contentType s2 = Stream._contentType s /\
      Stream._timeout s2 = Finite 30000 /\
      Stream._interval s2 = Finite 1000.
Proof.
  eexists. split; [vm_compute; reflexivity|].
  apply (toJSON_is_acceptable_props Codecs.StringToNumber 0 7
           (Some Examples.ten) _ [Stream.ActWrite Examples.four]).
  vm_compute. reflexivity.
Defined.

(** For application/json; charset=utf-8 the content type is
    application/json. *)
Lemma contentType_is_canonical_witness :
  exists s,
    Stream.construct Codecs.StringToNumber 0 (Some Examples.json_utf8) = Ok s /\
    Stream._contentType s = "application/json" /\
    Stream.exec1 (VStr (Stream._contentType s)) = Ok (Stream._contentType s) /\
    exists rest, Stream._contentTypeRaw s = VStr (Stream._contentType s +:+ rest).
Proof.
  eexists. split; [vm_compute; reflexivity|].
  split; [reflexivity|].
  apply (contentType_is_canonical Codecs.StringToNumber 0
           (Some Examples.json_utf8)).
  vm_compute. reflexivity.
Defined.

(** A stream of text/html is text and nothing else. *)
Lemma exactly_one_family_witness :
  exists s,
    Stream.construct Codecs.StringToNumber 0 (Some Examples.html) = Ok s /\
    Stream.isText s = true /\
    exists family subtype,
      family ∈ Stream.TYPES /\
      Stream._contentType s = family +:+ "/" +:+ subtype /\
      Design.families s = (fun ty => bool_decide (ty = family)) <$> Stream.TYPES.
Proof.
  eexists. split; [vm_compute; reflexivity|].
  split; [vm_compute; reflexivity|].
  apply (exactly_one_family Codecs.StringToNumber 0 (Some Examples.html)).
  vm_compute. reflexivity.
Defined.


(** [{ foo: 'bar', bar: 'baz' }] made into a stream of application/json
    comes back out of it. *)
Lemma fromObject_then_toObject_witness :
  exists s,
    Conversion.fromObject Codecs.StringToNumber Codecs.JSON_stringify
      Codecs.msgpack_encode Codecs.qs_stringify 0 Examples.obj None = Ok s /\
    Stream._contentType s = "application/json" /\
    Conversion.toObject Codecs.JSON_parse Codecs.msgpack_decode Codecs.qs_parse
      (fun _ log => log) s = Util.Resolved Examples.obj.
Proof.
  eexists. split; [vm_compute; reflexivity|].
  split; [reflexivity|].
  match goal with |- Conversion.toObject _ _ _ _ ?s = _ =>
    destruct (fromObject_then_toObject Codecs.StringToNumber
                Codecs.JSON_stringify Codecs.JSON_parse Codecs.msgpack_encode
                Codecs.msgpack_decode Codecs.qs_stringify Codecs.qs_parse
                (fun _ log => log) 0 Examples.obj None s) as (_ & H & _)
  end.
  - vm_compute. reflexivity.
  - reflexivity.
  - split_and!.
    + intros _. eexists. split; [vm_compute; reflexivity|].
      vm_compute. reflexivity.
    + discriminate.
    + discriminate.
  - apply H. intros [_ [=]].
Defined.

(** text/html is refused by [fromObject], [serialize] and [deserialize]
    alike. *)
Lemma fromObject_refuses_unknown_types_witness :
  let type := VStr "text/html; charset=utf-8" in
  Conversion.fromObject Codecs.StringToNumber Codecs.JSON_stringify
    Codecs.msgpack_encode Codecs.qs_stringify 0 Examples.obj
    (Some Examples.html) = Throw (TypeError (unknown_MIME_type type)) /\
  Util.serialize Codecs.JSON_stringify Codecs.msgpack_encode Codecs.qs_stringify
    type Examples.obj =
    Throw (SmartStreamError.Unexpected (unknown_MIME_type type)) /\
  Util.deserialize Codecs.JSON_parse Codecs.msgpack_decode Codecs.qs_parse
    type Examples.four =
    Throw (SmartStreamError.Unexpected (unknown_MIME_type type)).
Proof.
  pose proof (fromObject_refuses_unknown_types Codecs.StringToNumber
                Codecs.JSON_stringify Codecs.JSON_parse Codecs.msgpack_encode
                Codecs.msgpack_decode Codecs.qs_stringify Codecs.qs_parse
                (fun _ log => log) 0 Examples.obj (Some Examples.html)
                Examples.four) as H.
  cbv zeta in H. cbv zeta.
  apply H. vm_compute. reflexivity.
Defined.

(** application/json; charset=utf-8 makes a deserializable stream and is
    refused by [fromObject]. *)
Lemma parameters_defeat_fromObject_witness :
  exists s,
    Stream.construct Codecs.StringToNumber 0 (Some Examples.json_utf8) = Ok s /\
    Stream._contentType s = "application/json" /\
    Stream.isDeserializable s = true /\
    Conversion.fromObject Codecs.StringToNumber Codecs.JSON_stringify
      Codecs.msgpack_encode Codecs.qs_stringify 0 Examples.obj
      (Some Examples.json_utf8) =
    Throw (TypeError (unknown_MIME_type
                        (VStr ("application/json" +:+ ";" +:+ " charset=utf-8")))).
Proof.
  eexists. split; [vm_compute; reflexivity|].
  apply (parameters_defeat_fromObject Codecs.StringToNumber
           Codecs.JSON_stringify Codecs.msgpack_encode Codecs.qs_stringify
           0 0 Examples.obj Examples.json_utf8 "application/json"
           " charset=utf-8").
  - apply (bool_decide_unpack _). vm_compute. exact I.
  - vm_compute. reflexivity.
  - vm_compute. reflexivity.
Defined.

(** image.jpg.gz is gzip encoded and typed as image.jpg is. *)
Lemma compressed_extension_is_stripped_witness :
  Util.getContentEncoding Codecs.extname "image.jpg.gz" = "gzip" /\
  Util.getContentType Codecs.extname Codecs.mime_getType "image.jpg.gz" =
    Codecs.mime_getType "image.jpg".
Proof.
  destruct (compressed_extension_is_stripped Codecs.extname Codecs.mime_getType
              "image.jpg.gz" "image.jpg" eq_refl) as (_ & H & _).
  apply H. reflexivity.
Defined.

(** A timeout of 500 ms and an interval of 100 ms: after a chunk the stream
    is left alone, and within 600 ms it has timed out. *)
Lemma silence_is_detected_witness :
  exists s0,
    Stream.construct Codecs.StringToNumber 0 (Some Examples.half_second) = Ok s0 /\
    let w := Stream.run {| Stream.clock := 0; Stream.stream := s0 |}
               [Stream.ActWrite Examples.four] in
    let s := Stream.stream w in
    exists n : nat,
      0 < Z.of_nat n <= 600 /\
      let s' :=
        Stream.stream
          (Stream.run {| Stream.clock := Stream.clock w; Stream.stream := s |}
             (replicate n Stream.ActElapse)) in
      Stream.errored (Stream.super s') = Some (Design.timed_out 500) /\
      Stream.emitted (Stream.super s') =
        Stream.emitted (Stream.super s) ++
        [Stream.EvError (Design.timed_out 500); Stream.EvClose].
Proof.
  eexists. split; [vm_compute; reflexivity|].
  match goal with
  | |- context [Stream.run {| Stream.clock := 0; Stream.stream := ?s |}] =>
    destruct (silence_is_detected Codecs.StringToNumber 0
                (Some Examples.half_second) s 500
                [Stream.ActWrite Examples.four]) as (n & Hn & H)
  end.
  - vm_compute. reflexivity.
  - reflexivity.
  - reflexivity.
  - lia.
  - reflexivity.
  - left. reflexivity.
  - cbv zeta. exists n. split; [exact Hn | exact H].
Defined.

(** A declared length of 100 under a limit of 10: four bytes written at once
    make [write] throw, and the TooLarge fault follows. *)
Lemma writing_before_the_fault_throws_witness :
  exists s,
    Stream.construct Codecs.StringToNumber 0 (Some Examples.oversized) = Ok s /\
    let s' := Stream.write s Examples.four in
    Stream.emitted (Stream.super s') =
      [Stream.EvThrown (TypeError (cannot_read_property "touch"))] /\
    Stream._size s' = Stream.byteLength Examples.four /\
    (forall c', Stream.write s' c' = s') /\
    Stream.emitted (Stream.super (Stream.end_ s')) =
      Stream.emitted (Stream.super s') /\
    Stream.state_of (Stream.end_ s') = Stream.Open /\
    Stream.errored (Stream.super (Stream.run_immediate (Stream.end_ s'))) =
      Some (SmartStreamError.TooLarge (Stream.toJSON s)).
Proof.
  eexists. split; [vm_compute; reflexivity|].
  apply (writing_before_the_fault_throws Codecs.StringToNumber 0
           (Some Examples.oversized)).
  - vm_compute. reflexivity.
  - reflexivity.
  - reflexivity.
Defined.

(** A helper called with an error in the place of the metadata. *)
Lemma an_Error_as_metadata_becomes_the_cause_witness :
  ErrorClass.helper "no such file" "NOT_FOUND"
    (ErrorClass.Err (Error timer_already_destroyed)) ErrorClass.Nullish =
  inl {| ErrorClass.the_message := "no such file";
         ErrorClass.the_code := ErrorClass.Str "NOT_FOUND";
         ErrorClass.the_metadata := ErrorClass.Nullish;
         ErrorClass.the_cause := ErrorClass.Err (Error timer_already_destroyed);
         ErrorClass.the_stack := None |}.
Proof.
  apply an_Error_as_metadata_becomes_the_cause.
  - simpl. lia.
  - left. reflexivity.
Defined.
